(** * 4e_sqlite: compendium ingestion, rule-graph extraction and identity
    resolution

    A shallow embedding of the three scripts of the repository

    - [build_compendium_db.py]      (module [Build]),
    - [4e_xml_parser/extract_grants.py]          (module [Extract]),
    - [4e_xml_parser/resolve_compendium_ids.py]  (module [Resolve]),

    followed by the properties proved about them.

    Text is modelled by [string]: a sequence of bytes read as ASCII
    characters.  The character classes of Python ([str.strip], [str.lower],
    [str.isdigit], the classes [\s] and [\d] of [re]) are the ASCII ones;
    bytes above 127 are letters without case, neither blank nor digit.
    [None] is [None] of [option]; a Python test [if x:] on an optional string
    is written [truthy x]. *)

From Stdlib Require Import Ascii String List ZArith Bool Lia DecimalString.
From stdpp Require Import base option list gmap strings.

Local Open Scope string_scope.

(* ===================================================================== *)
(** * Python's string operations *)
(* ===================================================================== *)

Module PyStr.

Definition code (c : ascii) : nat := nat_of_ascii c.

(** [str.isspace] on ASCII: TAB..CR, FS..US and the space. *)
Definition is_space (c : ascii) : bool :=
  (Nat.leb 9 (code c) && Nat.leb (code c) 13)
  || (Nat.leb 28 (code c) && Nat.leb (code c) 32).

Definition is_digit (c : ascii) : bool :=
  Nat.leb 48 (code c) && Nat.leb (code c) 57.

Definition is_upper (c : ascii) : bool :=
  Nat.leb 65 (code c) && Nat.leb (code c) 90.

Definition is_lower (c : ascii) : bool :=
  Nat.leb 97 (code c) && Nat.leb (code c) 122.

Definition lower_char (c : ascii) : ascii :=
  if is_upper c then ascii_of_nat (code c + 32) else c.

Definition upper_char (c : ascii) : ascii :=
  if is_lower c then ascii_of_nat (code c - 32) else c.

Fixpoint lower (s : string) : string :=
  match s with
  | EmptyString => EmptyString
  | String c r => String (lower_char c) (lower r)
  end.

Fixpoint upper (s : string) : string :=
  match s with
  | EmptyString => EmptyString
  | String c r => String (upper_char c) (upper r)
  end.

(** [s.capitalize()]: first character upper case, the rest lower case. *)
Definition capitalize (s : string) : string :=
  match s with
  | EmptyString => EmptyString
  | String c r => String (upper_char c) (lower r)
  end.

Fixpoint rev_onto (s acc : string) : string :=
  match s with
  | EmptyString => acc
  | String c r => rev_onto r (String c acc)
  end.

Definition rev (s : string) : string := rev_onto s EmptyString.

Fixpoint lstrip (s : string) : string :=
  match s with
  | EmptyString => EmptyString
  | String c r => if is_space c then lstrip r else s
  end.

(** [s.rstrip()]: a character stays when something stays after it, or when
    it is no blank. *)
Fixpoint rstrip (s : string) : string :=
  match s with
  | EmptyString => EmptyString
  | String c r =>
      match rstrip r with
      | EmptyString => if is_space c then EmptyString else String c EmptyString
      | r' => String c r'
      end
  end.

Definition strip (s : string) : string := rstrip (lstrip s).

(** [s.rstrip(c)] for a one-character argument. *)
Fixpoint rstrip_char (c : ascii) (s : string) : string :=
  match s with
  | EmptyString => EmptyString
  | String d r =>
      match rstrip_char c r with
      | EmptyString => if Ascii.eqb c d then EmptyString else String d EmptyString
      | r' => String d r'
      end
  end.

(** [s.startswith(p)] *)
Definition startswith (p s : string) : bool := String.prefix p s.

Definition endswith (p s : string) : bool := String.prefix (rev p) (rev s).

(** [s[n:]] and [s[:n]] for [0 <= n]. *)
Fixpoint drop (n : nat) (s : string) : string :=
  match n, s with
  | O, _ => s
  | S _, EmptyString => EmptyString
  | S m, String _ r => drop m r
  end.

Fixpoint take (n : nat) (s : string) : string :=
  match n, s with
  | O, _ => EmptyString
  | S _, EmptyString => EmptyString
  | S m, String c r => String c (take m r)
  end.

(** [s.find(sub)]: the index of the first occurrence, [None] for -1. *)
Fixpoint find (sub s : string) : option nat :=
  if startswith sub s then Some 0
  else match s with
       | EmptyString => None
       | String _ r => S <$> find sub r
       end.

(** [sub in s] *)
Definition contains (sub s : string) : bool :=
  match find sub s with Some _ => true | None => false end.

(** [s.find(c)] and [s.rfind(c)] for a one-character argument. *)
Fixpoint find_char (c : ascii) (s : string) : option nat :=
  match s with
  | EmptyString => None
  | String d r => if Ascii.eqb c d then Some 0 else S <$> find_char c r
  end.

Fixpoint rfind_char (c : ascii) (s : string) : option nat :=
  match s with
  | EmptyString => None
  | String d r =>
      match rfind_char c r with
      | Some i => Some (S i)
      | None => if Ascii.eqb c d then Some 0 else None
      end
  end.

(** [s.replace(old, new, 1)] *)
Fixpoint replace_first (old new s : string) : string :=
  if startswith old s then new ++ drop (String.length old) s
  else match s with
       | EmptyString => EmptyString
       | String c r => String c (replace_first old new r)
       end.

(** [s.split(c)] for a one-character separator. *)
Fixpoint split_char (c : ascii) (s : string) : list string :=
  match s with
  | EmptyString => [EmptyString]
  | String d r =>
      if Ascii.eqb c d then EmptyString :: split_char c r
      else match split_char c r with
           | [] => [String d EmptyString]
           | w :: ws => String d w :: ws
           end
  end.

(** [s.rsplit(c, 1)]: cut at the last [c]; one part when [c] does not occur. *)
Definition rsplit1 (c : ascii) (s : string) : list string :=
  match rfind_char c s with
  | Some i => [take i s; drop (S i) s]
  | None => [s]
  end.

(** [sep.join(parts)] *)
Fixpoint join (sep : string) (parts : list string) : string :=
  match parts with
  | [] => EmptyString
  | [p] => p
  | p :: ps => p ++ sep ++ join sep ps
  end.

Fixpoint all_chars (p : ascii -> bool) (s : string) : bool :=
  match s with
  | EmptyString => true
  | String c r => p c && all_chars p r
  end.

(** [s.isdigit()]: non-empty and digits only. *)
Definition isdigit (s : string) : bool :=
  match s with
  | EmptyString => false
  | _ => all_chars is_digit s
  end.

(** Truth value of a string and of an optional string. *)
Definition nonempty (s : string) : bool :=
  match s with EmptyString => false | _ => true end.

Definition truthy (o : option string) : bool :=
  match o with Some s => nonempty s | None => false end.

(** [d.get(k)] on a dictionary literal. *)
Fixpoint assoc {V : Type} (k : string) (d : list (string * V)) : option V :=
  match d with
  | [] => None
  | (k', v) :: d' => if String.eqb k k' then Some v else assoc k d'
  end.

(** [s.replace(old, new)] for an [old] that is not empty: [skip] counts the
    characters of an occurrence still to pass over. *)
Fixpoint replace_from (old new : string) (skip : nat) (s : string) : string :=
  match s with
  | EmptyString => EmptyString
  | String c r =>
      match skip with
      | S k => replace_from old new k r
      | O =>
          if startswith old s
          then new ++ replace_from old new (String.length old - 1) r
          else String c (replace_from old new 0 r)
      end
  end.

Definition replace_all (old new s : string) : string :=
  replace_from old new 0 s.

(** The double quote, written by its code: string literals here hold none. *)
Definition dq : ascii := ascii_of_nat 34.

(** [q s] is [s] with every apostrophe turned into a double quote, to write
    quoted payloads legibly. *)
Fixpoint q (s : string) : string :=
  match s with
  | EmptyString => EmptyString
  | String c r => String (if Ascii.eqb c "'"%char then dq else c) (q r)
  end.

End PyStr.

(* ===================================================================== *)
(** * Python's regular expressions *)
(* ===================================================================== *)

(** The part of [re] the scripts use: a backtracking matcher that tries
    alternatives from left to right and repetitions greedily, as [re] does,
    written with a success continuation. *)
Module Re.
Import PyStr.

Inductive t :=
| Eps
| Chr (p : ascii -> bool)   (** one character of a class *)
| Seq (a b : t)
| Alt (a b : t)             (** [a|b] *)
| Star (a : t)              (** [a*] *)
| Group (n : nat) (a : t)   (** the [n]th parenthesis *)
| Bol                       (** [^] *)
| Eol                       (** [$] *)
| WordB.                    (** [\b] *)

(** A position in the subject: the character before it, the text from it
    on, and the groups closed so far (latest first). *)
Record state := {
  prev : option ascii;
  rest : string;
  caps : list (nat * string)
}.

(** [\w] *)
Definition is_word (c : ascii) : bool :=
  is_lower c || is_upper c || is_digit c || Ascii.eqb c "_"%char
  || Nat.leb 128 (code c).

Definition word_before (st : state) : bool :=
  match prev st with Some c => is_word c | None => false end.

Definition word_after (st : state) : bool :=
  match rest st with String c _ => is_word c | EmptyString => false end.

Definition newline : ascii := ascii_of_nat 10.

(** [$] without [re.MULTILINE]: the end, or just before a final newline. *)
Definition at_end (st : state) : bool :=
  match rest st with
  | EmptyString => true
  | String c EmptyString => Ascii.eqb c newline
  | _ => false
  end.

Definition consumed (st st' : state) : string :=
  take (String.length (rest st) - String.length (rest st')) (rest st).

(** [run r st k]: match [r] at [st] and hand every way of doing so to [k],
    in the order of preference of [re], until [k] accepts one. *)
Fixpoint run {A : Type} (r : t) (st : state) (k : state -> option A)
  : option A :=
  match r with
  | Eps => k st
  | Chr p =>
      match rest st with
      | String c s =>
          if p c then k {| prev := Some c; rest := s; caps := caps st |}
          else None
      | EmptyString => None
      end
  | Seq a b => run a st (fun st' => run b st' k)
  | Alt a b =>
      match run a st k with
      | Some x => Some x
      | None => run b st k
      end
  | Star a =>
      (fix loop (n : nat) (st : state) : option A :=
         match n with
         | O => k st
         | S n' =>
             match
               run a st
                 (fun st' =>
                    if Nat.ltb (String.length (rest st'))
                         (String.length (rest st))
                    then loop n' st' else None)
             with
             | Some x => Some x
             | None => k st
             end
         end) (String.length (rest st)) st
  | Group n a =>
      run a st
        (fun st' =>
           k {| prev := prev st'; rest := rest st';
                caps := (n, consumed st st') :: caps st' |})
  | Bol => match prev st with None => k st | Some _ => None end
  | Eol => if at_end st then k st else None
  | WordB => if xorb (word_before st) (word_after st) then k st else None
  end.

(** ** Writing patterns *)

Definition chr (c : ascii) : t := Chr (Ascii.eqb c).
Definition not_chr (c : ascii) : t := Chr (fun d => negb (Ascii.eqb c d)).
Definition one_of (cs : string) : t :=
  Chr (fun d => contains (String d EmptyString) cs).
Definition none_of (cs : string) : t :=
  Chr (fun d => negb (contains (String d EmptyString) cs)).
(** A letter under [re.IGNORECASE]. *)
Definition ichr (c : ascii) : t :=
  Chr (fun d => Ascii.eqb (lower_char c) (lower_char d)).

Definition plus (a : t) : t := Seq a (Star a).
Definition opt (a : t) : t := Alt a Eps.

Fixpoint cat (rs : list t) : t :=
  match rs with
  | [] => Eps
  | [r] => r
  | r :: rs' => Seq r (cat rs')
  end.

Fixpoint alts (rs : list t) : t :=
  match rs with
  | [] => Chr (fun _ => false)
  | [r] => r
  | r :: rs' => Alt r (alts rs')
  end.

Fixpoint lit (s : string) : t :=
  match s with
  | EmptyString => Eps
  | String c EmptyString => chr c
  | String c s' => Seq (chr c) (lit s')
  end.

(** A literal under [re.IGNORECASE]. *)
Fixpoint ilit (s : string) : t :=
  match s with
  | EmptyString => Eps
  | String c EmptyString => ichr c
  | String c s' => Seq (ichr c) (ilit s')
  end.

(** [\s] and [\d] *)
Definition ws : t := Chr is_space.
Definition digit : t := Chr is_digit.

(** ** [re.match], [re.search], [re.sub], [re.finditer] *)

(** A match: where it starts, its text and its groups. *)
Record found := {
  start : nat;
  text : string;
  groups : list (nat * string)
}.

(** [m.group(n)] of a group that took part in the match. *)
Fixpoint lookup (n : nat) (cs : list (nat * string)) : string :=
  match cs with
  | [] => EmptyString
  | (m, s) :: cs' => if Nat.eqb n m then s else lookup n cs'
  end.

Definition group (n : nat) (m : found) : string := lookup n (groups m).

(** The match of [r] that starts right at this position, if any. *)
Definition match_here (r : t) (i : nat) (p : option ascii) (s : string)
  : option found :=
  let st := {| prev := p; rest := s; caps := [] |} in
  match run r st Some with
  | Some st' =>
      Some {| start := i; text := consumed st st'; groups := caps st' |}
  | None => None
  end.

(** [re.match(r, s)] *)
Definition match_ (r : t) (s : string) : option found :=
  match_here r 0 None s.

Fixpoint search_from (r : t) (i : nat) (p : option ascii) (s : string)
  : option found :=
  match match_here r i p s with
  | Some m => Some m
  | None =>
      match s with
      | String c s' => search_from r (S i) (Some c) s'
      | EmptyString => None
      end
  end.

(** [re.search(r, s)]: the leftmost match. *)
Definition search (r : t) (s : string) : option found :=
  search_from r 0 None s.

(** [re.sub] from a position: [skip] counts the characters of the last match
    still to pass over.  A match that is empty is replaced and the scan
    moves one character on. *)
Fixpoint sub_from (r : t) (repl : found -> string) (skip : nat)
    (i : nat) (p : option ascii) (s : string) : string :=
  match skip with
  | S k =>
      match s with
      | String c s' => sub_from r repl k (S i) (Some c) s'
      | EmptyString => EmptyString
      end
  | O =>
      match match_here r i p s with
      | Some m =>
          repl m ++
          match s with
          | String c s' =>
              match String.length (text m) with
              | O => String c (sub_from r repl 0 (S i) (Some c) s')
              | S k => sub_from r repl k (S i) (Some c) s'
              end
          | EmptyString => EmptyString
          end
      | None =>
          match s with
          | String c s' => String c (sub_from r repl 0 (S i) (Some c) s')
          | EmptyString => EmptyString
          end
      end
  end.

(** [re.sub(r, repl, s)] with a function [repl] of the match. *)
Definition sub_with (r : t) (repl : found -> string) (s : string) : string :=
  sub_from r repl 0 0 None s.

(** [re.sub(r, repl, s)] with a fixed replacement text. *)
Definition sub (r : t) (repl : string) (s : string) : string :=
  sub_with r (fun _ => repl) s.

Fixpoint finditer_from (r : t) (skip : nat) (i : nat) (p : option ascii)
    (s : string) : list found :=
  match skip with
  | S k =>
      match s with
      | String c s' => finditer_from r k (S i) (Some c) s'
      | EmptyString => []
      end
  | O =>
      match match_here r i p s with
      | Some m =>
          m ::
          match s with
          | String c s' =>
              finditer_from r (String.length (text m) - 1) (S i) (Some c) s'
          | EmptyString => []
          end
      | None =>
          match s with
          | String c s' => finditer_from r 0 (S i) (Some c) s'
          | EmptyString => []
          end
      end
  end.

(** [re.finditer(r, s)] *)
Definition finditer (r : t) (s : string) : list found :=
  finditer_from r 0 0 None s.

End Re.

(* ===================================================================== *)
(** * The two stores *)
(* ===================================================================== *)

(** The rule-graph store [4e_grants.db], as [create_schema] of
    [extract_grants.py] declares it.  [TEXT NOT NULL] columns are strings,
    nullable ones optional strings. *)
Module Grant.
Record row := {
  id : nat;
  granter_xml_id : string;
  granter_compendium_id : option string;
  granter_type : string;
  granter_name : option string;
  granted_xml_id : string;
  granted_compendium_id : option string;
  granted_type : string;
  granted_name : option string;
  requires : option string;
  level : option string;
  ordinal : nat
}.
End Grant.

Module StatAdd.
Record row := {
  id : nat;
  granter_xml_id : string;
  granter_compendium_id : option string;
  granter_type : string;
  granter_name : option string;
  stat_name : string;
  value : string;
  bonus_type : option string;
  requires : option string;
  ordinal : nat
}.
End StatAdd.

Module Modify.
Record row := {
  id : nat;
  granter_xml_id : string;
  granter_compendium_id : option string;
  granter_type : string;
  granter_name : option string;
  target_name : string;
  target_type : option string;
  field : string;
  value : option string;
  list_addition : option string;
  requires : option string;
  ordinal : nat
}.
End Modify.

(** One row of [_id_resolution_log]. *)
Module Log.
Record row := {
  xml_id : string;
  attempted_compendium_id : option string;
  resolved_compendium_id : option string;
  compendium_table : option string;
  status : string;
  resolution_method : option string;
  unmappable_reason : option string;
  occurrence_count : nat;
  as_granter_in_grants : nat;
  as_granted_in_grants : nat;
  in_statadd_count : nat;
  in_modify_count : nat
}.
End Log.

Module GrantsDb.
Record t := {
  grants : list Grant.row;
  stat_additions : list StatAdd.row;
  modifies : list Modify.row;
  meta : list (string * string);
  id_resolution_log : list Log.row
}.
End GrantsDb.

(** The canonical store [4e_compendium.db] as the resolver reads it: the
    [id] and [name] of the rows of each category table (both are [TEXT]
    columns) and the rows of [name_index]. *)
Module Compendium.

Record entity := {
  id : string;
  name : string
}.

Record t := {
  tables : gmap string (list entity);
  name_index : list (string * string)
}.

End Compendium.

(* ===================================================================== *)
(** * resolve_compendium_ids.py *)
(* ===================================================================== *)

Module Resolve.
Import PyStr.

(** [TYPE_MAP]: an entry [(None, None)] of the source is [None] here. *)
Definition TYPE_MAP : list (string * option (string * string)) :=
  [ ("POWER", Some ("powers", "power"));
    ("FEAT", Some ("feats", "feat"));
    ("CLASS", Some ("classes", "class"));
    ("RACE", Some ("races", "race"));
    ("MAGIC_ITEM", Some ("items", "item"));
    ("ITEM", Some ("items", "item"));
    ("PARAGON_PATH", Some ("paragon_paths", "paragonpath"));
    ("EPIC_DESTINY", Some ("epic_destinies", "epicdestiny"));
    ("THEME", Some ("themes", "theme"));
    ("RITUAL", Some ("rituals", "ritual"));
    ("BACKGROUND", Some ("backgrounds", "background"));
    ("DEITY", Some ("deities", "deity"));
    ("COMPANION", Some ("companions", "companion"));
    ("RACIAL_TRAIT", None);
    ("CLASS_FEATURE", None);
    ("GRANTS", None);
    ("BUILD_SUGGESTIONS", None);
    ("INTERNAL", None) ].

Definition TYPE_GROUP_PREFIXES : list (string * list string) :=
  [ ("MAGIC_ITEM", ["item"; "implement"; "armor"; "weapon"; "poison"]);
    ("ITEM", ["item"; "implement"; "armor"; "weapon"; "poison"]);
    ("COMPANION", ["companion"; "associate"]);
    ("FAMILIAR", ["companion"; "associate"]);
    ("ASSOCIATE", ["companion"; "associate"]) ].

(** [xml_to_compendium_id]: [(compendium_id, compendium_table,
    unmappable_reason)]. *)
Definition xml_to_compendium_id (xml_id : option string)
  : option string * option string * option string :=
  match xml_id with
  | None => (None, None, Some "empty_or_invalid")
  | Some x =>
      if negb (nonempty x) then (None, None, Some "empty_or_invalid")
      else if negb (contains "ID_FMP_" x) then
        let parts := firstn 2 (split_char "_" x) in
        let prefix :=
          if Nat.leb 2 (length parts) then join "_" parts
          else if Nat.ltb 30 (String.length x) then take 30 x ++ "..."
          else x in
        (None, None, Some ("non-FMP prefix (" ++ prefix ++ ")"))
      else
        let rest := replace_first "ID_FMP_" "" x in
        match rsplit1 "_" rest with
        | [type_part; num_part] =>
            if negb (isdigit num_part) then
              (None, None, Some "no numeric suffix")
            else
              match assoc type_part TYPE_MAP with
              | Some (Some (table, prefix)) =>
                  (Some (prefix ++ num_part), Some table, None)
              | _ => (None, None, Some ("unknown type (" ++ type_part ++ ")"))
              end
        | _ => (None, None, Some "unparseable format")
        end
  end.

(** ** [name_search_variants] *)

(** [\s*\([^)]*\)\s*$] *)
Definition paren_suffix : Re.t :=
  Re.cat [Re.Star Re.ws; Re.chr "("; Re.Star (Re.not_chr ")"); Re.chr ")";
          Re.Star Re.ws; Re.Eol].

(** [\s*\[[^\]]*\]\s*$] *)
Definition bracket_suffix : Re.t :=
  Re.cat [Re.Star Re.ws; Re.chr "["; Re.Star (Re.not_chr "]"); Re.chr "]";
          Re.Star Re.ws; Re.Eol].

(** [\s*\+\d+\s*$] *)
Definition plus_suffix : Re.t :=
  Re.cat [Re.Star Re.ws; Re.chr "+"; Re.plus Re.digit; Re.Star Re.ws; Re.Eol].

(** [([a-z])([A-Z])] *)
Definition camel : Re.t :=
  Re.Seq (Re.Group 1 (Re.Chr is_lower)) (Re.Group 2 (Re.Chr is_upper)).

(** [\s+] *)
Definition blanks : Re.t := Re.plus Re.ws.

(** [\s+w\s*$] under [re.IGNORECASE], for a literal [w]. *)
Definition word_suffix (w : string) : Re.t :=
  Re.cat [Re.plus Re.ws; Re.ilit w; Re.Star Re.ws; Re.Eol].

(** [\s+w1\s+w2\s*$] under [re.IGNORECASE] *)
Definition two_word_suffix (w1 w2 : string) : Re.t :=
  Re.cat [Re.plus Re.ws; Re.ilit w1; Re.plus Re.ws; Re.ilit w2;
          Re.Star Re.ws; Re.Eol].

(** [\bw\b] under [re.IGNORECASE] *)
Definition whole_word (w : string) : Re.t :=
  Re.cat [Re.WordB; Re.ilit w; Re.WordB].

(** The inner [add]: [seen] holds exactly the members of [variants]. *)
Definition add (v : string) (variants : list string) : list string :=
  let v := strip (Re.sub blanks " " v) in
  if nonempty v && negb (existsb (String.eqb v) variants)
  then app variants [v]
  else variants.

(** [s[:idx] + " " + s[idx:]] for the compound words. *)
Definition compound_split (sub s : string) (variants : list string)
  : list string :=
  if contains sub s
     && negb (contains (" " ++ sub) s || contains (sub ++ " ") s)
  then match find sub s with
       | Some (S i) => add (take (S i) s ++ " " ++ drop (S i) s) variants
       | _ => variants
       end
  else variants.

(** The body of the loops over equipment and implement words. *)
Definition strip_word_both (w s : string) (variants : list string)
  : list string :=
  let variants := add (strip (Re.sub (word_suffix w) "" s)) variants in
  let base_no_plus := strip (Re.sub plus_suffix "" s) in
  add (strip (Re.sub (word_suffix w) "" base_no_plus)) variants.

(** [s.split(sep)[0]] *)
Definition before_first (sep s : string) : string :=
  match find sep s with
  | Some i => take i s
  | None => s
  end.

Definition name_search_variants (name : string) : list string :=
  let s := lower (strip name) in
  if negb (nonempty s) then []
  else
    let variants := [s] in
    let base := strip (Re.sub paren_suffix "" s) in
    let variants := add base variants in
    let variants := add (strip (Re.sub bracket_suffix "" s)) variants in
    let variants := add (strip (Re.sub bracket_suffix "" base)) variants in
    let variants := add (Re.sub plus_suffix "" base) variants in
    let variants := add (Re.sub plus_suffix "" s) variants in
    let spaced :=
      lower (strip (Re.sub_with camel
                      (fun m => Re.group 1 m ++ " " ++ Re.group 2 m)
                      (strip name))) in
    let variants := add spaced variants in
    let variants :=
      if negb (String.eqb spaced base)
      then add (Re.sub paren_suffix "" spaced) variants
      else variants in
    let variants :=
      fold_left (fun vs sub => compound_split sub s vs)
        ["sword"; "blade"; "armor"; "shield"; "weapon"; "staff"; "rod"; "orb";
         "cloak"] variants in
    let variants :=
      fold_left
        (fun vs suffix => add (strip (Re.sub (word_suffix suffix) "" s)) vs)
        ["attack"; "power"; "(daily)"; "(encounter)"; "flight"; "teleport";
         "strike"; "buffet"] variants in
    let attack_stripped := strip (Re.sub (word_suffix "attack") "" s) in
    let variants :=
      if negb (String.eqb attack_stripped s)
         && negb (startswith "form of" attack_stripped)
      then add ("form of " ++ attack_stripped)
             (add ("form of the " ++ attack_stripped) variants)
      else variants in
    let variants :=
      fold_left
        (fun vs tier =>
           add (strip (Re.sub blanks " " (Re.sub (whole_word tier) "" s))) vs)
        ["epic"; "heroic"; "paragon"] variants in
    let variants :=
      fold_left (fun vs suffix => strip_word_both suffix s vs)
        ["armor"; "weapon"; "shield"; "ring"; "boots"; "cloak"] variants in
    let variants :=
      add (Re.sub (two_word_suffix "secondary" "power") "" s) variants in
    let variants :=
      add (Re.sub (two_word_suffix "secondary" "attack") "" s) variants in
    let variants :=
      if contains " form " s
      then add (strip (before_first " form " s ++ " form")) variants
      else variants in
    let variants :=
      fold_left (fun vs impl => strip_word_both impl s vs)
        ["rod"; "staff"; "orb"; "wand"] variants in
    let variants :=
      if contains " - " s
      then add (strip (Re.sub plus_suffix "" s)) variants
      else variants in
    let base_no_plus := strip (Re.sub plus_suffix "" s) in
    if endswith " implement" base_no_plus
    then
      let prefix :=
        strip (take (String.length base_no_plus - String.length " implement")
                 base_no_plus) in
      fold_left (fun vs impl_type => add (prefix ++ " " ++ impl_type) vs)
        ["orb"; "rod"; "staff"; "wand"; "tome"; "totem"; "holy symbol";
         "ki focus"] variants
    else variants.

(** ** What [main] loads before resolving *)

(** The tables whose ids are loaded: the tables of [TYPE_MAP] in the order
    of their first mention, then the item-like ones. *)
Definition id_tables : list string :=
  [ "powers"; "feats"; "classes"; "races"; "items"; "paragon_paths";
    "epic_destinies"; "themes"; "rituals"; "backgrounds"; "deities";
    "companions"; "implements"; "armor"; "weapons"; "poisons" ].

Definition table_rows (comp : Compendium.t) (table : string)
  : list Compendium.entity :=
  default [] (Compendium.tables comp !! table).

(** [get_valid_ids]: a missing table gives the empty set. *)
Definition get_valid_ids (comp : Compendium.t) (table : string) : gset string :=
  list_to_set (Compendium.id <$> table_rows comp table).

Definition load_valid_ids (comp : Compendium.t) : gmap string (gset string) :=
  fold_left
    (fun valid_ids table =>
       match valid_ids !! table with
       | Some _ => valid_ids
       | None => <[table := get_valid_ids comp table]> valid_ids
       end)
    id_tables ∅.

(** [valid_ids.get(table, set())] *)
Definition ids_of (valid_ids : gmap string (gset string)) (table : string)
  : gset string :=
  default ∅ (valid_ids !! table).

Definition load_all_valid_ids (valid_ids : gmap string (gset string))
  : gset string :=
  fold_left (fun acc table => acc ∪ ids_of valid_ids table) id_tables ∅.

(** [name_to_ids]: the rows of [name_index] grouped by name, in row order. *)
Definition load_name_to_ids (comp : Compendium.t) : gmap string (list string) :=
  fold_left
    (fun (m : gmap string (list string)) (row : string * string) =>
       <[row.1 := app (default [] (m !! row.1)) [row.2]]> m)
    (Compendium.name_index comp) ∅.

Definition set_name (xml : string) (name : option string)
    (m : gmap string string) : gmap string string :=
  match name with
  | Some n => if nonempty xml && nonempty n then <[xml := n]> m else m
  | None => m
  end.

(** [xml_id_to_name], from the three edge tables. *)
Definition load_xml_id_to_name (db : GrantsDb.t) : gmap string string :=
  let m :=
    fold_left
      (fun m r =>
         set_name (Grant.granted_xml_id r) (Grant.granted_name r)
           (set_name (Grant.granter_xml_id r) (Grant.granter_name r) m))
      (GrantsDb.grants db) ∅ in
  let m :=
    fold_left
      (fun m r => set_name (StatAdd.granter_xml_id r) (StatAdd.granter_name r) m)
      (GrantsDb.stat_additions db) m in
  fold_left
    (fun m r => set_name (Modify.granter_xml_id r) (Modify.granter_name r) m)
    (GrantsDb.modifies db) m.

(** [line.split(",", 1)] *)
Definition split_comma1 (line : string) : list string :=
  match find_char ","%char line with
  | Some i => [take i line; drop (S i) line]
  | None => [line]
  end.

(** [manual_mappings], from the lines of [manual_id_mappings.csv] ([None]
    when the file is absent). *)
Definition load_manual_mappings (all_valid_ids : gset string)
    (csv : option (list string)) : gmap string string :=
  fold_left
    (fun m line =>
       let line := strip line in
       if negb (nonempty line) || startswith "xml_id" line then m
       else match split_comma1 line with
            | [a; b] =>
                let xml_id := strip a in
                let comp_id := strip b in
                if nonempty xml_id && nonempty comp_id
                   && bool_decide (comp_id ∈ all_valid_ids)
                then <[xml_id := comp_id]> m
                else m
            | _ => m
            end)
    (default [] csv) ∅.

(** Everything the resolution closures of [main] capture. *)
Record env := {
  comp : Compendium.t;
  valid_ids : gmap string (gset string);
  all_valid_ids : gset string;
  name_to_ids : gmap string (list string);
  xml_id_to_name : gmap string string;
  manual_mappings : gmap string string
}.

Definition load_env (c : Compendium.t) (db : GrantsDb.t)
    (csv : option (list string)) : env :=
  let v := load_valid_ids c in
  let a := load_all_valid_ids v in
  {| comp := c;
     valid_ids := v;
     all_valid_ids := a;
     name_to_ids := load_name_to_ids c;
     xml_id_to_name := load_xml_id_to_name db;
     manual_mappings := load_manual_mappings a csv |}.

(** ** Name search *)

Definition PREFIX_TO_TABLE : list (string * string) :=
  [ ("weapon", "weapons"); ("item", "items"); ("armor", "armor");
    ("implement", "implements"); ("poison", "poisons"); ("power", "powers");
    ("feat", "feats") ].

Definition mem (x : string) (l : list string) : bool :=
  existsb (String.eqb x) l.

(** [any(eid.startswith(p) for p in acceptable_prefixes)] *)
Definition has_prefix_in (acceptable_prefixes : list string) (eid : string)
  : bool :=
  existsb (fun p => startswith p eid) acceptable_prefixes.

Definition search_tables_by_name (E : env) (name_key : string)
    (acceptable_prefixes : list string) : option string :=
  match acceptable_prefixes with
  | [] => None
  | _ =>
      if negb (nonempty name_key) then None
      else
        fold_left
          (fun found pt =>
             match found with
             | Some _ => found
             | None =>
                 let '(prefix, table) := pt in
                 if negb (mem prefix acceptable_prefixes
                          || mem (prefix ++ "s") acceptable_prefixes)
                 then None
                 else if negb (bool_decide (is_Some (valid_ids E !! table)))
                 then None
                 else
                   List.find
                     (fun eid =>
                        bool_decide (eid ∈ all_valid_ids E)
                        && has_prefix_in acceptable_prefixes eid)
                     (Compendium.id <$>
                        List.filter
                          (fun r =>
                             String.eqb (lower (Compendium.name r)) name_key)
                          (table_rows (comp E) table))
             end)
          PREFIX_TO_TABLE None
  end.

(** The prefixes a type hint allows. *)
Definition prefixes_of_hint (type_hint : option string) : list string :=
  match type_hint with
  | None => []
  | Some h =>
      if negb (nonempty h) then []
      else match assoc h TYPE_GROUP_PREFIXES with
           | Some ps => ps
           | None =>
               match assoc h TYPE_MAP with
               | Some (Some (_, prefix)) =>
                   if nonempty prefix then [prefix] else []
               | _ => []
               end
           end
  end.

(** One turn of the loop of [search_by_name] over the variants: [Some eid]
    is the [return] taken on this key. *)
Definition search_key (E : env) (acceptable_prefixes : list string)
    (key : string) : option string :=
  let candidates := default [] (name_to_ids E !! key) in
  let valid :=
    List.filter (fun eid => bool_decide (eid ∈ all_valid_ids E)) candidates in
  let by_index :=
    match valid with
    | [] => None
    | first :: _ =>
        match acceptable_prefixes with
        | [] => Some first
        | _ => head (List.filter (has_prefix_in acceptable_prefixes) valid)
        end
    end in
  match by_index with
  | Some eid => Some eid
  | None =>
      match acceptable_prefixes with
      | [] => None
      | _ =>
          match search_tables_by_name E key acceptable_prefixes with
          | Some direct => if nonempty direct then Some direct else None
          | None => None
          end
      end
  end.

Fixpoint first_some {A B : Type} (f : A -> option B) (l : list A) : option B :=
  match l with
  | [] => None
  | x :: l' =>
      match f x with
      | Some y => Some y
      | None => first_some f l'
      end
  end.

Definition search_by_name (E : env) (name type_hint : option string)
  : option string :=
  match name with
  | None => None
  | Some n =>
      if negb (nonempty n) || negb (nonempty (strip n)) then None
      else
        first_some (search_key E (prefixes_of_hint type_hint))
          (name_search_variants n)
  end.
(** ** The occurrences of each reference *)

(** [(as granter in grants, as granted in grants, in stat_additions, in
    modifies)] *)
Definition counts : Type := nat * nat * nat * nat.

(** [id_info[k] = f(id_info[k])] on a [defaultdict] whose default is
    [(0, 0, 0, 0)]: a new key goes last. *)
Fixpoint bump (f : counts -> counts) (k : string) (d : list (string * counts))
  : list (string * counts) :=
  match d with
  | [] => [(k, f (0, 0, 0, 0))]
  | (k', c) :: d' =>
      if String.eqb k k' then (k', f c) :: d' else (k', c) :: bump f k d'
  end.

Definition bump_if (f : counts -> counts) (k : string)
    (d : list (string * counts)) : list (string * counts) :=
  if nonempty k then bump f k d else d.

Definition collect_id_info (db : GrantsDb.t) : list (string * counts) :=
  let d :=
    fold_left
      (fun d r =>
         bump_if (fun '(g, a, s, m) => (g, a + 1, s, m))
           (Grant.granted_xml_id r)
           (bump_if (fun '(g, a, s, m) => (g + 1, a, s, m))
              (Grant.granter_xml_id r) d))
      (GrantsDb.grants db) [] in
  let d :=
    fold_left
      (fun d r =>
         bump_if (fun '(g, a, s, m) => (g, a, s + 1, m))
           (StatAdd.granter_xml_id r) d)
      (GrantsDb.stat_additions db) d in
  fold_left
    (fun d r =>
       bump_if (fun '(g, a, s, m) => (g, a, s, m + 1))
         (Modify.granter_xml_id r) d)
    (GrantsDb.modifies db) d.

(** How often the tables name a reference, counted as [SELECT COUNT] would:
    as granter and as granted in [grants], as granter in [stat_additions]
    and in [modifies]. *)
Definition occurrences (db : GrantsDb.t) (x : string) : counts :=
  (length (List.filter (fun r => String.eqb (Grant.granter_xml_id r) x)
             (GrantsDb.grants db)),
   length (List.filter (fun r => String.eqb (Grant.granted_xml_id r) x)
             (GrantsDb.grants db)),
   length (List.filter (fun r => String.eqb (StatAdd.granter_xml_id r) x)
             (GrantsDb.stat_additions db)),
   length (List.filter (fun r => String.eqb (Modify.granter_xml_id r) x)
             (GrantsDb.modifies db))).

Definition total (c : counts) : nat :=
  let '(g, a, s, m) := c in g + a + s + m.

(** ** The resolution loop *)

(** Is the derived id in the table it was derived for? *)
Definition direct_hit (E : env) (comp_id table : option string) : bool :=
  match comp_id, table with
  | Some c, Some t =>
      nonempty c && nonempty t && bool_decide (c ∈ ids_of (valid_ids E) t)
  | _, _ => false
  end.

(** The type tag of a reference: what stands before the last underscore
    once the authoring prefix is taken out. *)
Definition type_tag (xml_id : string) : option string :=
  match rsplit1 "_" (replace_first "ID_FMP_" "" xml_id) with
  | [type_part; _] => Some type_part
  | _ => None
  end.

(** [type_hint], as the loop computes it before it searches by name. *)
Definition type_hint_of (comp_id : option string) (xml_id : string)
  : option string :=
  if truthy comp_id && contains "ID_FMP_" xml_id then type_tag xml_id
  else None.

(** The body of the loop over [id_info.items()]: the row appended to
    [log_rows] and the assignment to [resolution_cache], if any. *)
Definition log_entry (E : env) (xml_id : string) (c : counts)
  : Log.row * option (option string) :=
  let '(g_count, a_count, s_count, m_count) := c in
  let '(comp_id, table, unmappable) := xml_to_compendium_id (Some xml_id) in
  let occ := g_count + a_count + s_count + m_count in
  let mk attempted resolved tbl status method reason :=
    {| Log.xml_id := xml_id;
       Log.attempted_compendium_id := attempted;
       Log.resolved_compendium_id := resolved;
       Log.compendium_table := tbl;
       Log.status := status;
       Log.resolution_method := method;
       Log.unmappable_reason := reason;
       Log.occurrence_count := occ;
       Log.as_granter_in_grants := g_count;
       Log.as_granted_in_grants := a_count;
       Log.in_statadd_count := s_count;
       Log.in_modify_count := m_count |} in
  if truthy unmappable then
    (mk None None None "unmappable" None unmappable, None)
  else if direct_hit E comp_id table then
    (mk comp_id comp_id table "matched" (Some "id") None, Some comp_id)
  else
    let manual_id := manual_mappings E !! xml_id in
    if truthy manual_id then
      (mk comp_id manual_id None "matched_manual" (Some "manual") None,
       Some manual_id)
    else
      let name := xml_id_to_name E !! xml_id in
      let type_hint := type_hint_of comp_id xml_id in
      let found_by_name :=
        if truthy name then search_by_name E name type_hint else None in
      if truthy found_by_name then
        (mk comp_id found_by_name None "matched_name_search"
           (Some "name_search") None,
         Some found_by_name)
      else
        (mk comp_id None (if truthy table then table else None) "not_found"
           None None,
         Some None).

Definition cache : Type := gmap string (option string).

Definition resolve_all (E : env) (id_info : list (string * counts))
  : list Log.row * cache :=
  fold_left
    (fun '(log_rows, resolution_cache) '(xml_id, c) =>
       let '(row, assigned) := log_entry E xml_id c in
       (app log_rows [row],
        match assigned with
        | Some v => <[xml_id := v]> resolution_cache
        | None => resolution_cache
        end))
    id_info ([], ∅).

(** ** The update phase *)

(** [resolve]: the answer and the cache after the call. *)
Definition resolve (E : env) (resolution_cache : cache)
    (xml_id : option string) : option string * cache :=
  match xml_id with
  | None => (None, resolution_cache)
  | Some x =>
      match resolution_cache !! x with
      | Some v => (v, resolution_cache)
      | None =>
          let '(comp_id, table, unmappable) := xml_to_compendium_id xml_id in
          if truthy unmappable then (None, <[x := None]> resolution_cache)
          else if direct_hit E comp_id table
          then (comp_id, <[x := comp_id]> resolution_cache)
          else (None, <[x := None]> resolution_cache)
      end
  end.

(** [UPDATE grants SET granter_compendium_id = ?, granted_compendium_id = ?] *)
Definition set_grant_ids (granter_comp granted_comp : option string)
    (r : Grant.row) : Grant.row :=
  {| Grant.id := Grant.id r;
     Grant.granter_xml_id := Grant.granter_xml_id r;
     Grant.granter_compendium_id := granter_comp;
     Grant.granter_type := Grant.granter_type r;
     Grant.granter_name := Grant.granter_name r;
     Grant.granted_xml_id := Grant.granted_xml_id r;
     Grant.granted_compendium_id := granted_comp;
     Grant.granted_type := Grant.granted_type r;
     Grant.granted_name := Grant.granted_name r;
     Grant.requires := Grant.requires r;
     Grant.level := Grant.level r;
     Grant.ordinal := Grant.ordinal r |}.

(** [UPDATE stat_additions SET granter_compendium_id = ?] *)
Definition set_statadd_id (granter_comp : option string) (r : StatAdd.row)
  : StatAdd.row :=
  {| StatAdd.id := StatAdd.id r;
     StatAdd.granter_xml_id := StatAdd.granter_xml_id r;
     StatAdd.granter_compendium_id := granter_comp;
     StatAdd.granter_type := StatAdd.granter_type r;
     StatAdd.granter_name := StatAdd.granter_name r;
     StatAdd.stat_name := StatAdd.stat_name r;
     StatAdd.value := StatAdd.value r;
     StatAdd.bonus_type := StatAdd.bonus_type r;
     StatAdd.requires := StatAdd.requires r;
     StatAdd.ordinal := StatAdd.ordinal r |}.

(** [UPDATE modifies SET granter_compendium_id = ?] *)
Definition set_modify_id (granter_comp : option string) (r : Modify.row)
  : Modify.row :=
  {| Modify.id := Modify.id r;
     Modify.granter_xml_id := Modify.granter_xml_id r;
     Modify.granter_compendium_id := granter_comp;
     Modify.granter_type := Modify.granter_type r;
     Modify.granter_name := Modify.granter_name r;
     Modify.target_name := Modify.target_name r;
     Modify.target_type := Modify.target_type r;
     Modify.field := Modify.field r;
     Modify.value := Modify.value r;
     Modify.list_addition := Modify.list_addition r;
     Modify.requires := Modify.requires r;
     Modify.ordinal := Modify.ordinal r |}.

(** A row without its resolved ids: every other column of it. *)
Definition grant_frame (r : Grant.row) : Grant.row := set_grant_ids None None r.
Definition statadd_frame (r : StatAdd.row) : StatAdd.row := set_statadd_id None r.
Definition modify_frame (r : Modify.row) : Modify.row := set_modify_id None r.

(** [UPDATE ... WHERE id = ?] *)
Definition update_where_id {R : Type} (id_of : R -> nat) (f : R -> R)
    (row_id : nat) (table : list R) : list R :=
  map (fun r => if Nat.eqb (id_of r) row_id then f r else r) table.

Definition is_some {A : Type} (o : option A) : bool :=
  match o with Some _ => true | None => false end.

(** The loop over the rows selected from [grants]: the table, the cache and
    the two counters [granter_updated], [granted_updated]. *)
Definition update_grants (E : env) (table : list Grant.row)
    (resolution_cache : cache) : list Grant.row * cache * (nat * nat) :=
  fold_left
    (fun '(table, resolution_cache, (granter_updated, granted_updated)) r =>
       let '(granter_comp, resolution_cache) :=
         resolve E resolution_cache (Some (Grant.granter_xml_id r)) in
       let '(granted_comp, resolution_cache) :=
         resolve E resolution_cache (Some (Grant.granted_xml_id r)) in
       if is_some granter_comp || is_some granted_comp then
         (update_where_id Grant.id (set_grant_ids granter_comp granted_comp)
            (Grant.id r) table,
          resolution_cache,
          (if truthy granter_comp then granter_updated + 1 else granter_updated,
           if truthy granted_comp then granted_updated + 1 else granted_updated))
       else (table, resolution_cache, (granter_updated, granted_updated)))
    table (table, resolution_cache, (0, 0)).

Definition update_stat_additions (E : env) (table : list StatAdd.row)
    (resolution_cache : cache) : list StatAdd.row * cache * nat :=
  fold_left
    (fun '(table, resolution_cache, stat_updated) r =>
       let '(granter_comp, resolution_cache) :=
         resolve E resolution_cache (Some (StatAdd.granter_xml_id r)) in
       if is_some granter_comp then
         (update_where_id StatAdd.id (set_statadd_id granter_comp)
            (StatAdd.id r) table,
          resolution_cache, stat_updated + 1)
       else (table, resolution_cache, stat_updated))
    table (table, resolution_cache, 0).

Definition update_modifies (E : env) (table : list Modify.row)
    (resolution_cache : cache) : list Modify.row * cache * nat :=
  fold_left
    (fun '(table, resolution_cache, mod_updated) r =>
       let '(granter_comp, resolution_cache) :=
         resolve E resolution_cache (Some (Modify.granter_xml_id r)) in
       if is_some granter_comp then
         (update_where_id Modify.id (set_modify_id granter_comp)
            (Modify.id r) table,
          resolution_cache, mod_updated + 1)
       else (table, resolution_cache, mod_updated))
    table (table, resolution_cache, 0).

(** [SELECT COUNT( * ) FROM _id_resolution_log WHERE status = ?] *)
Definition count_status (status : string) (log : list Log.row) : nat :=
  length (List.filter (fun r => String.eqb (Log.status r) status) log).

(** The figures [main] prints. *)
Record report := {
  total_grants : nat;
  with_granter : nat;
  with_granted : nat;
  stat_updated : nat;
  mod_updated : nat;
  matched : nat;
  matched_name : nat;
  matched_manual : nat;
  not_found : nat;
  unmappable : nat
}.

(** [main], for stores that exist: the rule-graph store after the run and
    the report.  [csv] holds the lines of the override file, if present. *)
Definition main (c : Compendium.t) (db : GrantsDb.t)
    (csv : option (list string)) : GrantsDb.t * report :=
  let E := load_env c db csv in
  let '(log_rows, resolution_cache) := resolve_all E (collect_id_info db) in
  let '(grants, resolution_cache, _) :=
    update_grants E (GrantsDb.grants db) resolution_cache in
  let '(stat_additions, resolution_cache, stat_n) :=
    update_stat_additions E (GrantsDb.stat_additions db) resolution_cache in
  let '(modifies, resolution_cache, mod_n) :=
    update_modifies E (GrantsDb.modifies db) resolution_cache in
  ({| GrantsDb.grants := grants;
      GrantsDb.stat_additions := stat_additions;
      GrantsDb.modifies := modifies;
      GrantsDb.meta := GrantsDb.meta db;
      GrantsDb.id_resolution_log := log_rows |},
   {| total_grants := length (GrantsDb.grants db);
      with_granter :=
        length (List.filter
                  (fun r => is_some (Grant.granter_compendium_id r)) grants);
      with_granted :=
        length (List.filter
                  (fun r => is_some (Grant.granted_compendium_id r)) grants);
      stat_updated := stat_n;
      mod_updated := mod_n;
      matched := count_status "matched" log_rows;
      matched_name := count_status "matched_name_search" log_rows;
      matched_manual := count_status "matched_manual" log_rows;
      not_found := count_status "not_found" log_rows;
      unmappable := count_status "unmappable" log_rows |}).

(** [SELECT resolved_compendium_id FROM _id_resolution_log WHERE xml_id = ?]:
    what the log holds as the resolved id of a reference; nothing when the
    reference has no row. *)
Definition logged (log : list Log.row) (x : string) : option string :=
  match List.find (fun r => String.eqb (Log.xml_id r) x) log with
  | Some r => Log.resolved_compendium_id r
  | None => None
  end.

End Resolve.

(* ===================================================================== *)
(** * extract_grants.py *)
(* ===================================================================== *)

Module Extract.
Import PyStr.

(** An element of the parsed rule-authoring export: tag, attributes and
    child elements in document order. *)
Inductive element :=
| Element (tag : string) (attrib : gmap string string)
    (children : list element).

Definition tag (e : element) : string :=
  match e with Element t _ _ => t end.

(** [elem.get(key)] *)
Definition get (e : element) (key : string) : option string :=
  match e with Element _ a _ => a !! key end.

Definition children (e : element) : list element :=
  match e with Element _ _ cs => cs end.

(** [elem.find(t)]: the first child with that tag. *)
Definition find_child (t : string) (e : element) : option element :=
  List.find (fun c => String.eqb (tag c) t) (children e).

(** [root.findall(t)]: the children with that tag. *)
Definition findall (t : string) (e : element) : list element :=
  List.filter (fun c => String.eqb (tag c) t) (children e).

(** [safe_str] *)
Definition safe_str (val : option string) : option string :=
  match val with
  | None => None
  | Some v => let s := strip v in if nonempty s then Some s else None
  end.

(** [a or b] on optional strings. *)
Definition or_else (a b : option string) : option string :=
  if truthy a then a else b.

(** The row id SQLite gives an inserted row: one more than the largest. *)
Definition next_id (ids : list nat) : nat := S (fold_right Nat.max 0 ids).

(** What the three [INSERT] statements add, with the counters of
    [process_rules_element]. *)
Record progress := {
  db : GrantsDb.t;
  grant_count : nat;
  statadd_count : nat;
  modify_count : nat;
  ordinal : nat
}.

Definition insert_grant (r : Grant.row) (d : GrantsDb.t) : GrantsDb.t :=
  {| GrantsDb.grants := app (GrantsDb.grants d) [r];
     GrantsDb.stat_additions := GrantsDb.stat_additions d;
     GrantsDb.modifies := GrantsDb.modifies d;
     GrantsDb.meta := GrantsDb.meta d;
     GrantsDb.id_resolution_log := GrantsDb.id_resolution_log d |}.

Definition insert_statadd (r : StatAdd.row) (d : GrantsDb.t) : GrantsDb.t :=
  {| GrantsDb.grants := GrantsDb.grants d;
     GrantsDb.stat_additions := app (GrantsDb.stat_additions d) [r];
     GrantsDb.modifies := GrantsDb.modifies d;
     GrantsDb.meta := GrantsDb.meta d;
     GrantsDb.id_resolution_log := GrantsDb.id_resolution_log d |}.

Definition insert_modify (r : Modify.row) (d : GrantsDb.t) : GrantsDb.t :=
  {| GrantsDb.grants := GrantsDb.grants d;
     GrantsDb.stat_additions := GrantsDb.stat_additions d;
     GrantsDb.modifies := app (GrantsDb.modifies d) [r];
     GrantsDb.meta := GrantsDb.meta d;
     GrantsDb.id_resolution_log := GrantsDb.id_resolution_log d |}.

Definition has_value (o : option string) : bool :=
  match o with Some _ => true | None => false end.

(** A directive that lacks an attribute its kind requires: a grant without
    target reference or target type, a stat addition without name or value,
    a modification without target name or field. *)
Definition missing_required (child : element) : bool :=
  let t := lower (tag child) in
  if String.eqb t "grant" then
    negb (has_value (safe_str (get child "name"))
          && has_value (safe_str (get child "type")))
  else if String.eqb t "statadd" then
    negb (has_value (safe_str (get child "name"))
          && has_value (safe_str (get child "value")))
  else if String.eqb t "modify" then
    negb (has_value (safe_str (get child "name"))
          && has_value
               (safe_str (or_else (get child "Field") (get child "field"))))
  else false.

(** The body of the loop [for child in rules] of [process_rules_element]. *)
Definition process_child (granter_xml_id granter_type : string)
    (granter_name : option string) (id_to_name : gmap string string)
    (p : progress) (child : element) : progress :=
  let t := lower (tag child) in
  if String.eqb t "grant" then
    match safe_str (get child "name"), safe_str (get child "type") with
    | Some granted_xml_id, Some granted_type =>
        let row :=
          {| Grant.id := next_id (Grant.id <$> GrantsDb.grants (db p));
             Grant.granter_xml_id := granter_xml_id;
             Grant.granter_compendium_id := None;
             Grant.granter_type := granter_type;
             Grant.granter_name := granter_name;
             Grant.granted_xml_id := granted_xml_id;
             Grant.granted_compendium_id := None;
             Grant.granted_type := granted_type;
             Grant.granted_name := id_to_name !! granted_xml_id;
             Grant.requires := safe_str (get child "requires");
             Grant.level := safe_str (get child "Level");
             Grant.ordinal := ordinal p |} in
        {| db := insert_grant row (db p);
           grant_count := grant_count p + 1;
           statadd_count := statadd_count p;
           modify_count := modify_count p;
           ordinal := ordinal p + 1 |}
    | _, _ => p
    end
  else if String.eqb t "statadd" then
    match safe_str (get child "name"), safe_str (get child "value") with
    | Some stat_name, Some value =>
        let row :=
          {| StatAdd.id := next_id (StatAdd.id <$> GrantsDb.stat_additions (db p));
             StatAdd.granter_xml_id := granter_xml_id;
             StatAdd.granter_compendium_id := None;
             StatAdd.granter_type := granter_type;
             StatAdd.granter_name := granter_name;
             StatAdd.stat_name := stat_name;
             StatAdd.value := value;
             StatAdd.bonus_type := safe_str (get child "type");
             StatAdd.requires := safe_str (get child "requires");
             StatAdd.ordinal := ordinal p |} in
        {| db := insert_statadd row (db p);
           grant_count := grant_count p;
           statadd_count := statadd_count p + 1;
           modify_count := modify_count p;
           ordinal := ordinal p + 1 |}
    | _, _ => p
    end
  else if String.eqb t "modify" then
    match safe_str (get child "name"),
          safe_str (or_else (get child "Field") (get child "field")) with
    | Some target_name, Some field =>
        let row :=
          {| Modify.id := next_id (Modify.id <$> GrantsDb.modifies (db p));
             Modify.granter_xml_id := granter_xml_id;
             Modify.granter_compendium_id := None;
             Modify.granter_type := granter_type;
             Modify.granter_name := granter_name;
             Modify.target_name := target_name;
             Modify.target_type := safe_str (get child "type");
             Modify.field := field;
             Modify.value := safe_str (get child "value");
             Modify.list_addition := safe_str (get child "list-addition");
             Modify.requires := safe_str (get child "requires");
             Modify.ordinal := ordinal p |} in
        {| db := insert_modify row (db p);
           grant_count := grant_count p;
           statadd_count := statadd_count p;
           modify_count := modify_count p + 1;
           ordinal := ordinal p + 1 |}
    | _, _ => p
    end
  else p.

(** [process_rules_element]: the store after the element and the three
    counts it returns. *)
Definition process_rules_element (elem : element)
    (id_to_name : gmap string string) (d : GrantsDb.t)
  : GrantsDb.t * (nat * nat * nat) :=
  match safe_str (get elem "internal-id"), safe_str (get elem "type") with
  | Some granter_xml_id, Some granter_type =>
      match find_child "rules" elem with
      | None => (d, (0, 0, 0))
      | Some rules =>
          let p :=
            fold_left
              (process_child granter_xml_id granter_type
                 (safe_str (get elem "name")) id_to_name)
              (children rules)
              {| db := d; grant_count := 0; statadd_count := 0;
                 modify_count := 0; ordinal := 0 |} in
          (db p, (grant_count p, statadd_count p, modify_count p))
      end
  | _, _ => (d, (0, 0, 0))
  end.

(** The store [create_schema] leaves in a new file. *)
Definition create_schema : GrantsDb.t :=
  {| GrantsDb.grants := [];
     GrantsDb.stat_additions := [];
     GrantsDb.modifies := [];
     GrantsDb.meta := [("source", "combined.dnd40.merged.xml")];
     GrantsDb.id_resolution_log := [] |}.

(** [id_to_name], from the [RulesElement]s of the root. *)
Definition build_id_to_name (root : element) : gmap string string :=
  fold_left
    (fun m elem =>
       match get elem "internal-id", get elem "name" with
       | Some xml_id, Some name =>
           if nonempty xml_id && nonempty name
           then <[xml_id := strip name]> m
           else m
       | _, _ => m
       end)
    (findall "RulesElement" root) ∅.

(** [INSERT OR REPLACE INTO _meta VALUES (key, value)] *)
Definition meta_put (key value : string) (m : list (string * string))
  : list (string * string) :=
  app (List.filter (fun kv => negb (String.eqb kv.1 key)) m) [(key, value)].

(** What [main] reports. *)
Record report := {
  rules_elements_processed : nat;
  total_grants : nat;
  total_statadds : nat;
  total_modifies : nat;
  errors : list (string * string)
}.

(** [main], once the export is parsed: any existing store [old] is removed,
    a new one is built from [root], and [extracted_at] records the time
    [now] of the run.  No step of the loop body raises here, so [errors],
    which only the [except] branch appends to, stays empty. *)
Definition main (now : string) (root : element) (old : option GrantsDb.t)
  : GrantsDb.t * report :=
  let id_to_name := build_id_to_name root in
  let '(d, (g, s, m), n) :=
    fold_left
      (fun '(d, (tg, ts, tm), n) elem =>
         let '(d', (g, s, m)) := process_rules_element elem id_to_name d in
         (d', (tg + g, ts + s, tm + m), n + 1))
      (findall "RulesElement" root)
      (create_schema, (0, 0, 0), 0) in
  ({| GrantsDb.grants := GrantsDb.grants d;
      GrantsDb.stat_additions := GrantsDb.stat_additions d;
      GrantsDb.modifies := GrantsDb.modifies d;
      GrantsDb.meta := meta_put "extracted_at" now (GrantsDb.meta d);
      GrantsDb.id_resolution_log := GrantsDb.id_resolution_log d |},
   {| rules_elements_processed := n;
      total_grants := g;
      total_statadds := s;
      total_modifies := m;
      errors := [] |}).

End Extract.

(* ===================================================================== *)
(** * Python's json.loads *)
(* ===================================================================== *)

(** The decoder of the standard library on text, as [json.loads] runs it
    with its defaults: strict strings, the literals [NaN], [Infinity] and
    [-Infinity] accepted, blanks limited to space, TAB, LF and CR.  A float
    is kept as the text of its literal; an object is the dictionary Python
    builds from it (a repeated key keeps its first place and takes the last
    value).  [None] stands for [json.JSONDecodeError]. *)
Module Json.
Import PyStr.

Inductive value :=
| JNull
| JBool (b : bool)
| JInt (z : Z)
| JFloat (lexeme : string)
| JStr (s : string)
| JList (items : list value)
| JDict (members : list (string * value)).

(** [d[k] = v] *)
Fixpoint dict_set (k : string) (v : value) (d : list (string * value))
  : list (string * value) :=
  match d with
  | [] => [(k, v)]
  | (k', v') :: d' =>
      if String.eqb k k' then (k', v) :: d' else (k', v') :: dict_set k v d'
  end.

(** [d.get(k)] *)
Fixpoint dict_get (k : string) (d : list (string * value)) : option value :=
  match d with
  | [] => None
  | (k', v) :: d' => if String.eqb k k' then Some v else dict_get k d'
  end.

Definition is_json_blank (c : ascii) : bool :=
  Ascii.eqb c " "%char || Nat.eqb (code c) 9 || Nat.eqb (code c) 10
  || Nat.eqb (code c) 13.

Fixpoint skip_blanks (s : string) : string :=
  match s with
  | EmptyString => EmptyString
  | String c r => if is_json_blank c then skip_blanks r else s
  end.

Definition hex_digit (c : ascii) : option N :=
  if is_digit c then Some (N.of_nat (code c - 48))
  else if Nat.leb 97 (code c) && Nat.leb (code c) 102
  then Some (N.of_nat (code c - 87))
  else if Nat.leb 65 (code c) && Nat.leb (code c) 70
  then Some (N.of_nat (code c - 55))
  else None.

(** The four hexadecimal digits after [\u]. *)
Definition hex4 (s : string) : option (N * string) :=
  match s with
  | String a (String b (String c (String d r))) =>
      match hex_digit a, hex_digit b, hex_digit c, hex_digit d with
      | Some x, Some y, Some z, Some w =>
          Some ((((x * 16 + y) * 16 + z) * 16 + w)%N, r)
      | _, _, _, _ => None
      end
  | _ => None
  end.

(** A code point as the bytes of its UTF-8 form. *)
Definition utf8 (n : N) : string :=
  let b (k : N) := ascii_of_N k in
  if (n <? 128)%N then String (b n) EmptyString
  else if (n <? 2048)%N then
    String (b (192 + n / 64)%N) (String (b (128 + n mod 64)%N) EmptyString)
  else if (n <? 65536)%N then
    String (b (224 + n / 4096)%N)
      (String (b (128 + (n / 64) mod 64)%N)
         (String (b (128 + n mod 64)%N) EmptyString))
  else
    String (b (240 + n / 262144)%N)
      (String (b (128 + (n / 4096) mod 64)%N)
         (String (b (128 + (n / 64) mod 64)%N)
            (String (b (128 + n mod 64)%N) EmptyString))).

Definition backslash : ascii := ascii_of_nat 92.

(** [scanstring], after the opening quote: the text and what follows the
    closing quote. *)
Fixpoint scanstring (fuel : nat) (s : string) : option (string * string) :=
  match fuel with
  | O => None
  | S fuel' =>
      match s with
      | EmptyString => None
      | String c r =>
          if Ascii.eqb c dq then Some (EmptyString, r)
          else if Ascii.eqb c backslash then
            match r with
            | EmptyString => None
            | String e r' =>
                let simple (x : ascii) :=
                  match scanstring fuel' r' with
                  | Some (t, rest) => Some (String x t, rest)
                  | None => None
                  end in
                if Ascii.eqb e dq then simple dq
                else if Ascii.eqb e backslash then simple backslash
                else if Ascii.eqb e "/"%char then simple "/"%char
                else if Ascii.eqb e "b"%char then simple (ascii_of_nat 8)
                else if Ascii.eqb e "f"%char then simple (ascii_of_nat 12)
                else if Ascii.eqb e "n"%char then simple (ascii_of_nat 10)
                else if Ascii.eqb e "r"%char then simple (ascii_of_nat 13)
                else if Ascii.eqb e "t"%char then simple (ascii_of_nat 9)
                else if Ascii.eqb e "u"%char then
                  match hex4 r' with
                  | Some (u, r'') =>
                      let pair :=
                        if ((55296 <=? u) && (u <=? 56319))%N then
                          match r'' with
                          | String b1 (String b2 r3) =>
                              if Ascii.eqb b1 backslash
                                 && Ascii.eqb b2 "u"%char then
                                match hex4 r3 with
                                | Some (u2, r4) =>
                                    if ((56320 <=? u2) && (u2 <=? 57343))%N
                                    then
                                      Some ((65536 + (u - 55296) * 1024
                                             + (u2 - 56320))%N, r4)
                                    else None
                                | None => None
                                end
                              else None
                          | _ => None
                          end
                        else None in
                      let '(cp, after) :=
                        match pair with
                        | Some x => x
                        | None => (u, r'')
                        end in
                      match scanstring fuel' after with
                      | Some (t, rest) => Some (utf8 cp ++ t, rest)
                      | None => None
                      end
                  | None => None
                  end
                else None
            end
          else if Nat.ltb (code c) 32 then None
          else
            match scanstring fuel' r with
            | Some (t, rest) => Some (String c t, rest)
            | None => None
            end
      end
  end.

(** [NUMBER_RE]: an integer part [-?(?:0|[1-9]\d* )] as group 1, a fraction
    [\.\d+] as group 2 and an exponent [[eE][-+]?\d+] as group 3, the last
    two optional. *)
Definition NUMBER_RE : Re.t :=
  Re.cat
    [ Re.Group 1
        (Re.Seq (Re.opt (Re.chr "-"))
           (Re.Alt (Re.chr "0")
              (Re.Seq (Re.Chr (fun c => is_digit c && negb (Ascii.eqb c "0")))
                 (Re.Star Re.digit))));
      Re.opt (Re.Group 2 (Re.Seq (Re.chr ".") (Re.plus Re.digit)));
      Re.opt
        (Re.Group 3
           (Re.cat [Re.one_of "eE"; Re.opt (Re.one_of "-+");
                    Re.plus Re.digit])) ].

(** [int(s)] for a text of digits with an optional sign. *)
Fixpoint digits_value (acc : Z) (s : string) : Z :=
  match s with
  | EmptyString => acc
  | String c r => digits_value (acc * 10 + Z.of_nat (code c - 48)) r
  end.

Definition int_of (s : string) : Z :=
  match s with
  | String c r =>
      if Ascii.eqb c "-"%char then Z.opp (digits_value 0 r)
      else digits_value 0 s
  | EmptyString => 0%Z
  end.

Definition scan_number (s : string) : option (value * string) :=
  match Re.match_ NUMBER_RE s with
  | Some m =>
      let rest := drop (String.length (Re.text m)) s in
      if String.eqb (Re.text m) (Re.group 1 m)
      then Some (JInt (int_of (Re.text m)), rest)
      else Some (JFloat (Re.text m), rest)
  | None => None
  end.

(** [s] starts with [w]: what follows it. *)
Definition after (w s : string) : option string :=
  if startswith w s then Some (drop (String.length w) s) else None.

(** [scan_once], the array loop and the object loop, by fuel. *)
Fixpoint scan_once (fuel : nat) (s : string) : option (value * string) :=
  match fuel with
  | O => None
  | S fuel' =>
      match s with
      | EmptyString => None
      | String c r =>
          if Ascii.eqb c dq then
            match scanstring (S (String.length r)) r with
            | Some (t, rest) => Some (JStr t, rest)
            | None => None
            end
          else if Ascii.eqb c "{"%char then
            match skip_blanks r with
            | String d r' =>
                if Ascii.eqb d "}"%char then Some (JDict [], r')
                else scan_members fuel' [] (skip_blanks r)
            | EmptyString => None
            end
          else if Ascii.eqb c "["%char then
            match skip_blanks r with
            | String d r' =>
                if Ascii.eqb d "]"%char then Some (JList [], r')
                else scan_items fuel' [] (skip_blanks r)
            | EmptyString => None
            end
          else
            match after "null" s, after "true" s, after "false" s with
            | Some rest, _, _ => Some (JNull, rest)
            | _, Some rest, _ => Some (JBool true, rest)
            | _, _, Some rest => Some (JBool false, rest)
            | _, _, _ =>
                match scan_number s with
                | Some x => Some x
                | None =>
                    match after "NaN" s, after "Infinity" s,
                          after "-Infinity" s with
                    | Some rest, _, _ => Some (JFloat "NaN", rest)
                    | _, Some rest, _ => Some (JFloat "Infinity", rest)
                    | _, _, Some rest => Some (JFloat "-Infinity", rest)
                    | _, _, _ => None
                    end
                end
            end
      end
  end
with scan_items (fuel : nat) (acc : list value) (s : string)
  : option (value * string) :=
  match fuel with
  | O => None
  | S fuel' =>
      match scan_once fuel' s with
      | Some (v, rest) =>
          match skip_blanks rest with
          | String d r' =>
              if Ascii.eqb d "]"%char then Some (JList (app acc [v]), r')
              else if Ascii.eqb d ","%char
              then scan_items fuel' (app acc [v]) (skip_blanks r')
              else None
          | EmptyString => None
          end
      | None => None
      end
  end
with scan_members (fuel : nat) (acc : list (string * value)) (s : string)
  : option (value * string) :=
  match fuel with
  | O => None
  | S fuel' =>
      match s with
      | String c r =>
          if Ascii.eqb c dq then
            match scanstring (S (String.length r)) r with
            | Some (key, rest) =>
                match skip_blanks rest with
                | String d r' =>
                    if Ascii.eqb d ":"%char then
                      match scan_once fuel' (skip_blanks r') with
                      | Some (v, rest') =>
                          match skip_blanks rest' with
                          | String e r'' =>
                              if Ascii.eqb e "}"%char
                              then Some (JDict (dict_set key v acc), r'')
                              else if Ascii.eqb e ","%char
                              then scan_members fuel' (dict_set key v acc)
                                     (skip_blanks r'')
                              else None
                          | EmptyString => None
                          end
                      | None => None
                      end
                    else None
                | EmptyString => None
                end
            | None => None
            end
          else None
      | EmptyString => None
      end
  end.

(** The byte order mark. *)
Definition BOM : string :=
  String (ascii_of_nat 239)
    (String (ascii_of_nat 187) (String (ascii_of_nat 191) EmptyString)).

(** [json.loads(s)] *)
Definition loads (s : string) : option value :=
  if startswith BOM s then None
  else
    match scan_once (2 * String.length s + 2) (skip_blanks s) with
    | Some (v, rest) =>
        match skip_blanks rest with
        | EmptyString => Some v
        | _ => None
        end
    | None => None
    end.

End Json.

(* ===================================================================== *)
(** * build_compendium_db.py *)
(* ===================================================================== *)

Module Build.
Import PyStr Json.

(** ** Repairing and decoding a payload *)

(** [,(\s*[}\]])], replaced by its group 1. *)
Definition trailing_comma : Re.t :=
  Re.Seq (Re.chr ",") (Re.Group 1 (Re.Seq (Re.Star Re.ws) (Re.one_of "}]"))).

(** The characters the repair takes for the second of a valid escape:
    [b f n r t u], the double quote, the backslash and the slash. *)
Definition escape_chars : string :=
  "bfnrtu" ++ String dq (String backslash "/").

(** A backslash and, as group 1, one character that is none of those. *)
Definition bad_escape : Re.t :=
  Re.Seq (Re.chr backslash) (Re.Group 1 (Re.none_of escape_chars)).

(** The inner [fix_escapes]. *)
Definition fix_escapes (m : Re.found) : string :=
  let char := Re.group 1 m in
  if contains char escape_chars then Re.text m
  else String backslash (String backslash char).

Definition clean_json_string (s : string) : string :=
  let s := Re.sub_with trailing_comma (Re.group 1) s in
  Re.sub_with bad_escape fix_escapes s.

(** [safe_json_loads]: [JNull] is Python's [None], also what the text
    [null] decodes to. *)
Definition safe_json_loads (s : string) : value :=
  match loads s with
  | Some v => v
  | None =>
      match loads (clean_json_string s) with
      | Some v => v
      | None => JNull
      end
  end.

(** [extract_jsonp_payload]: the text between the first opening and the last
    closing parenthesis. *)
Definition extract_jsonp_payload (content : string) : option string :=
  let content := strip content in
  let content :=
    if startswith BOM content then drop (String.length BOM) content
    else content in
  match find_char "(" content with
  | None => None
  | Some paren_start =>
      match rfind_char ")" content with
      | None => None
      | Some paren_end =>
          Some (take (paren_end - (paren_start + 1))
                  (drop (paren_start + 1) content))
      end
  end.

(** The loop of [parse_listing] over [enumerate(json_part)]: the index at
    which the bracket depth comes back to zero. *)
Fixpoint columns_end_from (bracket_depth : Z) (i : nat) (s : string)
  : option nat :=
  match s with
  | EmptyString => None
  | String char r =>
      if Ascii.eqb char "[" then columns_end_from (bracket_depth + 1) (S i) r
      else if Ascii.eqb char "]" then
        if (bracket_depth - 1 =? 0)%Z then Some i
        else columns_end_from (bracket_depth - 1) (S i) r
      else columns_end_from bracket_depth (S i) r
  end.

(** The square brackets of a text are balanced: none closes what was not
    opened, and [depth] more close than open. *)
Fixpoint balanced_from (depth : nat) (s : string) : bool :=
  match s with
  | EmptyString => Nat.eqb depth 0
  | String c r =>
      if Ascii.eqb c "[" then balanced_from (S depth) r
      else if Ascii.eqb c "]" then
        match depth with
        | O => false
        | S d => balanced_from d r
        end
      else balanced_from depth r
  end.

Definition balanced (s : string) : bool := balanced_from 0 s.

(** The two texts [parse_listing] hands to the decoder: [columns_str] and
    [rows_str]. *)
Definition split_listing (args : string) : option (string * string) :=
  match find_char "[" args with
  | None => None
  | Some first_bracket =>
      let json_part := drop first_bracket args in
      match columns_end_from 0 0 json_part with
      | None => None
      | Some columns_end =>
          let columns_str := take (columns_end + 1) json_part in
          let remaining := drop (columns_end + 1) json_part in
          match find_char "[" remaining with
          | None => None
          | Some rows_start =>
              Some (columns_str, rstrip_char ")" (drop rows_start remaining))
          end
      end
  end.

Definition is_none (v : value) : bool :=
  match v with JNull => true | _ => false end.

(** [parse_listing]: [(columns, rows)], a pair of empty lists on failure. *)
Definition parse_listing (content : string) : value * value :=
  match extract_jsonp_payload content with
  | None => (JList [], JList [])
  | Some args =>
      if negb (nonempty args) then (JList [], JList [])
      else
        match split_listing args with
        | None => (JList [], JList [])
        | Some (columns_str, rows_str) =>
            let columns := safe_json_loads columns_str in
            let rows := safe_json_loads rows_str in
            if is_none columns || is_none rows then (JList [], JList [])
            else (columns, rows)
        end
  end.

(** [parse_catalog], [parse_index] and [parse_name_index]: the object that
    starts at the first brace, an empty dictionary on failure. *)
Definition parse_object (content : string) : value :=
  match extract_jsonp_payload content with
  | None => JDict []
  | Some args =>
      if negb (nonempty args) then JDict []
      else
        match find_char "{" args with
        | None => JDict []
        | Some brace_start =>
            let result := safe_json_loads (drop brace_start args) in
            if is_none result then JDict [] else result
        end
  end.

(** ** Python values and what may go wrong *)

(** The result of a step that may raise. *)
Inductive outcome (A : Type) :=
| Done (a : A)
| Raised.
Arguments Done {A} a.
Arguments Raised {A}.

Definition and_then {A B : Type} (o : outcome A) (k : A -> outcome B)
  : outcome B :=
  match o with
  | Done a => k a
  | Raised => Raised
  end.

(** What a run takes from Python, from SQLite and from the clock. *)
Record runtime := {
  (** the text [HTMLTextExtractor] collects from a markup body that is not
      empty, its parts joined by spaces *)
  markup_text : string -> string;
  (** [str(x)] for the float a literal denotes *)
  float_str : string -> string;
  (** whether that float is zero *)
  float_zero : string -> bool;
  (** [str(x)] for a list or a dictionary *)
  container_str : value -> string;
  (** what a [TEXT] column holds once that float is bound to it *)
  real_text : string -> option string;
  (** the order in which this process iterates over the set built by
      adding these strings in this order; it follows the hash seed of the
      process *)
  set_iter : list string -> list string;
  (** [datetime.now().isoformat()] when the build writes its metadata *)
  now : string;
  (** [CURRENT_TIMESTAMP] when the row of [_parse_log] with this id is
      inserted *)
  timestamp_at : nat -> string
}.

Section Runtime.

Variable rt : runtime.

(** Truth value of a decoded value. *)
Definition py_truthy (v : value) : bool :=
  match v with
  | JNull => false
  | JBool b => b
  | JInt z => negb (z =? 0)%Z
  | JFloat l => negb (float_zero rt l)
  | JStr s => nonempty s
  | JList l => match l with [] => false | _ => true end
  | JDict d => match d with [] => false | _ => true end
  end.

Definition decimal (z : Z) : string := NilZero.string_of_int (Z.to_int z).

(** [str(v)] *)
Definition py_str (v : value) : string :=
  match v with
  | JNull => "None"
  | JBool true => "True"
  | JBool false => "False"
  | JInt z => decimal z
  | JFloat l => float_str rt l
  | JStr s => s
  | JList _ | JDict _ => container_str rt v
  end.

(** [len(v)] *)
Definition py_len (v : value) : outcome nat :=
  match v with
  | JList l => Done (length l)
  | JStr s => Done (String.length s)
  | JDict d => Done (length d)
  | _ => Raised
  end.

(** [v[i]] for an index that is not negative. *)
Definition py_item (v : value) (i : nat) : outcome value :=
  match v with
  | JList l => match nth_error l i with Some x => Done x | None => Raised end
  | JStr s =>
      if Nat.ltb i (String.length s) then Done (JStr (take 1 (drop i s)))
      else Raised
  | _ => Raised
  end.

Fixpoint chars (s : string) : list value :=
  match s with
  | EmptyString => []
  | String c r => JStr (String c EmptyString) :: chars r
  end.

(** The items [for x in v] goes through. *)
Definition py_iter (v : value) : outcome (list value) :=
  match v with
  | JList l => Done l
  | JStr s => Done (chars s)
  | JDict d => Done (map (fun kv => JStr kv.1) d)
  | _ => Raised
  end.

Definition hashable (v : value) : bool :=
  match v with
  | JList _ | JDict _ => false
  | _ => true
  end.

(** [d.get(key, '')] on a value [d] that should be a dictionary with text
    keys. *)
Definition get_or_empty (d key : value) : outcome value :=
  match d with
  | JDict members =>
      match key with
      | JStr k => Done (default (JStr EmptyString) (dict_get k members))
      | JList _ | JDict _ => Raised
      | _ => Done (JStr EmptyString)
      end
  | _ => Raised
  end.

(** ** [normalize_value] *)

Definition is_list (v : value) : bool :=
  match v with JList _ => true | _ => false end.

Definition normalize_value (val : value) : value :=
  match val with
  | JNull => JNull
  | JList [] => JNull
  | JList (first :: _) => JStr (py_str first)
  | _ => val
  end.

(** ** Derived fields *)

(** A value used as text: a string it must be. *)
Definition as_text (v : value) : outcome string :=
  match v with
  | JStr s => Done s
  | _ => Raised
  end.

(** [html_to_text]: nothing for a body that is empty or absent; the parser
    and the fallback of the source both need text. *)
Definition html_to_text (html : value) : outcome string :=
  if negb (py_truthy html) then Done EmptyString
  else and_then (as_text html) (fun h => Done (markup_text rt h)).

(** [vs\.?\s*(AC|Fortitude|Reflex|Will)] under [re.IGNORECASE] *)
Definition vs_defense : Re.t :=
  Re.cat
    [ Re.ilit "vs"; Re.opt (Re.chr "."); Re.Star Re.ws;
      Re.Group 1
        (Re.alts [Re.ilit "AC"; Re.ilit "Fortitude"; Re.ilit "Reflex";
                  Re.ilit "Will"]) ].

(** [search_text or html_to_text(html_body)] *)
Definition search_or_markup (html_body search_text : value) : outcome string :=
  if py_truthy search_text then as_text search_text
  else html_to_text html_body.

(** [extract_defense_targeted].  The conditional expression of its first
    line binds weaker than [or]: it reads
    [(search_text or html_to_text(html_body)) if html_body else ""]. *)
Definition extract_defense_targeted (html_body search_text : value)
  : outcome (option string * option string) :=
  and_then
    (if py_truthy html_body then search_or_markup html_body search_text
     else Done EmptyString)
    (fun text =>
       match Re.search vs_defense text with
       | Some m =>
           let defense := Re.group 1 m in
           if String.eqb (upper defense) "AC"
           then Done (Some "AC", Some "high")
           else Done (Some (capitalize defense), Some "high")
       | None => Done (None, None)
       end).

Definition DAMAGE_TYPES : list string :=
  [ "fire"; "cold"; "lightning"; "thunder"; "radiant"; "necrotic";
    "psychic"; "poison"; "acid"; "force" ].

Definition CONDITIONS : list string :=
  [ "dazed"; "stunned"; "prone"; "immobilized"; "slowed"; "dominated";
    "blinded"; "deafened"; "weakened"; "petrified"; "unconscious";
    "restrained"; "grabbed"; "marked"; "surprised"; "helpless";
    "dying"; "dead"; "bloodied" ].

Definition mem (x : string) (l : list string) : bool :=
  existsb (String.eqb x) l.

(** [found.add(x)], the set kept as the strings in the order they came. *)
Definition set_add (x : string) (found : list string) : list string :=
  if mem x found then found else app found [x].

(** [extract_damage_types]: the strings added to [found], and [sources]. *)
Definition extract_damage_types (keywords_raw : value)
  : outcome (list string * list (string * string * string)) :=
  if py_truthy keywords_raw then
    and_then (as_text keywords_raw)
      (fun kw =>
         let kw_lower := lower kw in
         Done
           (fold_left
              (fun '(found, sources) dt =>
                 if contains dt kw_lower
                 then (set_add dt found, app sources [("keyword", dt, "high")])
                 else (found, sources))
              (set_iter rt DAMAGE_TYPES) ([], [])))
  else Done ([], []).

(** [\w+] as group 1 *)
Definition word1 : Re.t := Re.Group 1 (Re.plus (Re.Chr Re.is_word)).

(** The five patterns of [extract_conditions]. *)
Definition condition_patterns : list Re.t :=
  [ Re.Seq (Re.lit "target is ") word1;
    Re.cat [Re.lit "target"; Re.opt (Re.chr "s"); Re.chr " ";
            Re.Alt (Re.lit "are") (Re.lit "is"); Re.chr " "; word1];
    Re.Seq word1 (Re.lit " (save ends)");
    Re.cat [Re.lit "and ";
            Re.opt (Re.Alt (Re.lit "is ") (Re.lit "the target is "));
            word1];
    Re.Seq (Re.lit "knocked ") word1 ].

Definition extract_conditions (html_body search_text : value)
  : outcome (list string * list (string * string * string)) :=
  if negb (py_truthy html_body) && negb (py_truthy search_text)
  then Done ([], [])
  else
    and_then (search_or_markup html_body search_text)
      (fun text =>
         let text_lower := lower text in
         Done
           (fold_left
              (fun acc pattern =>
                 fold_left
                   (fun '(found, sources) m =>
                      let word := Re.group 1 m in
                      if mem word CONDITIONS
                      then (set_add word found,
                            app sources [("pattern", word, "medium")])
                      else (found, sources))
                   (Re.finditer pattern text_lower) acc)
              condition_patterns ([], []))).

(** [\bw\b] under [re.IGNORECASE] *)
Definition whole_word (w : string) : Re.t :=
  Re.cat [Re.WordB; Re.ilit w; Re.WordB].

(** [w\s+(\d+)] *)
Definition word_number (w : string) : Re.t :=
  Re.cat [Re.lit w; Re.plus Re.ws; Re.Group 1 (Re.plus Re.digit)].

(** [w\s+(k1|k2|...)\s+(\d+)] under [re.IGNORECASE] *)
Definition word_shape_number (w : string) (shapes : list string) : Re.t :=
  Re.cat [Re.ilit w; Re.plus Re.ws; Re.Group 1 (Re.alts (map Re.ilit shapes));
          Re.plus Re.ws; Re.Group 2 (Re.plus Re.digit)].

Definition found_some {A : Type} (o : option A) : bool :=
  match o with Some _ => true | None => false end.

(** [extract_range_info]:
    [(range_type, range_value, area_type, area_size)]. *)
Definition extract_range_info (action_raw html_body : value)
  : outcome (option string * option Z * option string * option Z) :=
  and_then (html_to_text html_body)
    (fun text =>
       let number w :=
         match Re.search (word_number w) text with
         | Some m => Some (int_of (Re.group 1 m))
         | None => None
         end in
       let shape w shapes :=
         match Re.search (word_shape_number w shapes) text with
         | Some m => (Some (lower (Re.group 1 m)), Some (int_of (Re.group 2 m)))
         | None => (None, None)
         end in
       if found_some (Re.search (whole_word "Melee") text)
       then Done (Some "Melee", number "Melee", None, None)
       else if found_some (Re.search (whole_word "Ranged") text)
       then Done (Some "Ranged", number "Ranged", None, None)
       else if found_some (Re.search (whole_word "Close") text)
       then let '(t, n) := shape "Close" ["burst"; "blast"] in
            Done (Some "Close", None, t, n)
       else if found_some (Re.search (whole_word "Area") text)
       then let '(t, n) := shape "Area" ["burst"; "blast"; "wall"] in
            Done (Some "Area", None, t, n)
       else Done (None, None, None, None)).

Definition extract_power_type (type_raw : value) : outcome (option string) :=
  if negb (py_truthy type_raw) then Done None
  else
    and_then (as_text type_raw)
      (fun type_raw =>
         let t := lower type_raw in
         if contains "at-will" t || contains "atwill" t then Done (Some "At-Will")
         else if contains "enc" t then Done (Some "Encounter")
         else if contains "daily" t then Done (Some "Daily")
         else Done None).

(** [parse_level]; a Boolean counts as the integer it is. *)
Definition parse_level (level_raw : value) : option Z :=
  if negb (py_truthy level_raw) then None
  else
    match level_raw with
    | JInt z => Some z
    | JBool b => Some (if b then 1 else 0)%Z
    | JList l =>
        match l with
        | _ :: JInt z :: _ => Some z
        | _ :: JBool b :: _ => Some (if b then 1 else 0)%Z
        | _ => None
        end
    | _ =>
        let s := strip (py_str level_raw) in
        match Re.match_ (Re.Group 1 (Re.plus Re.digit)) s with
        | Some m => Some (int_of (Re.group 1 m))
        | None => None
        end
    end.

(** ** The store *)

(** A value as a column holds it. *)
Inductive sqlval :=
| SNull
| SInt (z : Z)
| SText (s : string).

(** A row: its columns by name. *)
Definition srow : Type := list (string * sqlval).

Fixpoint column (c : string) (r : srow) : sqlval :=
  match r with
  | [] => SNull
  | (c', v) :: r' => if String.eqb c c' then v else column c r'
  end.

Record parse_log_row := {
  log_id : nat;
  entry_id : string;
  field : string;
  log_value : sqlval;
  source : sqlval;
  confidence : sqlval;
  timestamp : string
}.

Record store := {
  tables : gmap string (list srow);
  power_keywords : list (string * string);
  power_damage_types : list (string * string);
  power_conditions : list (string * string);
  name_index : list (string * string);
  parse_log : list parse_log_row;
  meta : list (string * string);
  categories : list (string * (nat * string))
}.

(** [create_schema] on a new file: every table is there and empty. *)
Definition create_schema : store :=
  {| tables := ∅;
     power_keywords := [];
     power_damage_types := [];
     power_conditions := [];
     name_index := [];
     parse_log := [];
     meta := [];
     categories := [] |}.

Definition in_int64 (z : Z) : bool :=
  ((-9223372036854775808 <=? z) && (z <=? 9223372036854775807))%Z.

(** A parameter bound to a [TEXT] column: numbers are stored as text, lists
    and dictionaries cannot be bound. *)
Definition bind_text (v : value) : outcome sqlval :=
  match v with
  | JNull => Done SNull
  | JBool b => Done (SText (if b then "1" else "0"))
  | JInt z => if in_int64 z then Done (SText (decimal z)) else Raised
  | JFloat l =>
      Done (match real_text rt l with Some t => SText t | None => SNull end)
  | JStr s => Done (SText s)
  | JList _ | JDict _ => Raised
  end.

(** An integer or [None] bound to an [INTEGER] column. *)
Definition bind_int (z : option Z) : outcome sqlval :=
  match z with
  | None => Done SNull
  | Some n => if in_int64 n then Done (SInt n) else Raised
  end.

Definition opt_text (o : option string) : sqlval :=
  match o with Some t => SText t | None => SNull end.

Fixpoint bind_all (params : list (string * value)) : outcome srow :=
  match params with
  | [] => Done []
  | (c, v) :: ps =>
      and_then (bind_text v)
        (fun b => and_then (bind_all ps) (fun r => Done ((c, b) :: r)))
  end.

Definition same_id (i : sqlval) (r : srow) : bool :=
  match i, column "id" r with
  | SText a, SText b => String.eqb a b
  | SInt a, SInt b => (a =? b)%Z
  | _, _ => false
  end.

Definition is_null (v : sqlval) : bool :=
  match v with SNull => true | _ => false end.

Definition with_tables (t : gmap string (list srow)) (s : store) : store :=
  {| tables := t;
     power_keywords := power_keywords s;
     power_damage_types := power_damage_types s;
     power_conditions := power_conditions s;
     name_index := name_index s;
     parse_log := parse_log s;
     meta := meta s;
     categories := categories s |}.

(** [INSERT OR REPLACE INTO table (...) VALUES (...)] on a category table:
    [name] is [NOT NULL]; a row with the same [id] gives way. *)
Definition insert_or_replace (table : string) (r : srow) (s : store)
  : outcome store :=
  if is_null (column "name" r) then Raised
  else
    let rows := default [] (tables s !! table) in
    let kept := List.filter (fun r' => negb (same_id (column "id" r) r')) rows in
    Done (with_tables (<[table := app kept [r]]> (tables s)) s).

(** [INSERT OR IGNORE] into a tag relation: [power_id] is [NOT NULL] and the
    pair is the key. *)
Definition tag_insert (power_id : sqlval) (tag : string)
    (rel : list (string * string)) : list (string * string) :=
  match power_id with
  | SText p =>
      if existsb (fun '(a, b) => String.eqb a p && String.eqb b tag) rel
      then rel
      else app rel [(p, tag)]
  | _ => rel
  end.

(** [INSERT INTO _parse_log (entry_id, field, value, source, confidence)]:
    [entry_id] is [NOT NULL]; the id counts up and the time is the clock's. *)
Definition log_insert (entry_id : sqlval) (field : string)
    (value source confidence : sqlval) (s : store) : outcome store :=
  match entry_id with
  | SText e =>
      let n := S (length (parse_log s)) in
      Done
        {| tables := tables s;
           power_keywords := power_keywords s;
           power_damage_types := power_damage_types s;
           power_conditions := power_conditions s;
           name_index := name_index s;
           parse_log :=
             app (parse_log s)
               [ {| log_id := n; entry_id := e; field := field;
                    log_value := value; source := source;
                    confidence := confidence;
                    timestamp := timestamp_at rt n |} ];
           meta := meta s;
           categories := categories s |}
  | _ => Raised
  end.

(** ** Rows of a listing *)

(** [{col: idx for idx, col in enumerate(columns)}]: the items of [columns];
    one that cannot be hashed raises. *)
Definition make_col_map (columns : value) : outcome (list value) :=
  and_then (py_iter columns)
    (fun items => if forallb hashable items then Done items else Raised).

Fixpoint last_index_from (i : nat) (name : string) (cols : list value)
  : option nat :=
  match cols with
  | [] => None
  | c :: cs =>
      match last_index_from (S i) name cs with
      | Some j => Some j
      | None =>
          match c with
          | JStr n => if String.eqb n name then Some i else None
          | _ => None
          end
      end
  end.

(** [col_map.get(name)] *)
Definition col_get (col_map : list value) (name : string) : option nat :=
  last_index_from 0 name col_map.

(** ** [insert_generic] *)

(** The loop over [col_mapping.items()] that fills [values]. *)
Fixpoint mapped_values (col_map : list value)
    (col_mapping : list (string * string)) (row : value)
  : outcome (list (string * value)) :=
  match col_mapping with
  | [] => Done []
  | (table_col, listing_col) :: rest =>
      and_then
        (match col_get col_map listing_col with
         | Some idx =>
             and_then (py_len row)
               (fun n =>
                  if Nat.ltb idx n
                  then and_then (py_item row idx)
                         (fun cell => Done (normalize_value cell))
                  else Done JNull)
         | None => Done JNull
         end)
        (fun v =>
           and_then (mapped_values col_map rest row)
             (fun vs => Done ((table_col, v) :: vs)))
  end.

(** [values.get(key)] with a default. *)
Definition values_get (key : string) (dflt : value)
    (values : list (string * value)) : value :=
  default dflt (dict_get key values).

(** The parameters [insert_generic] binds for one row, in the order of
    [values.keys()]: the text columns, and [level] when the mapping has
    [level_raw]. *)
Definition generic_values (col_map : list value)
    (col_mapping : list (string * string)) (html_bodies search_texts : value)
    (row : value) : outcome (list (string * value) * option (option Z)) :=
  and_then (mapped_values col_map col_mapping row)
    (fun values =>
       let entry_id := values_get "id" (JStr EmptyString) values in
       and_then (get_or_empty html_bodies entry_id)
         (fun html_body =>
            and_then (get_or_empty search_texts entry_id)
              (fun search_text =>
                 let values := dict_set "html_body" html_body values in
                 let values := dict_set "search_text" search_text values in
                 Done
                   (values,
                    if found_some (assoc "level_raw" col_mapping)
                    then Some (parse_level (values_get "level_raw" JNull values))
                    else None)))).

(** The body of the loop of [insert_generic]; an exception leaves the store
    as it was. *)
Definition insert_generic_row (table_name : string) (col_map : list value)
    (col_mapping : list (string * string)) (html_bodies search_texts : value)
    (s : store) (row : value) : store :=
  match
    and_then
      (generic_values col_map col_mapping html_bodies search_texts row)
      (fun '(values, level) =>
         and_then (bind_all values)
           (fun r =>
              match level with
              | Some l =>
                  and_then (bind_int l)
                    (fun b => insert_or_replace table_name
                                (app r [("level", b)]) s)
              | None => insert_or_replace table_name r s
              end))
  with
  | Done s' => s'
  | Raised => s
  end.

Definition insert_generic (table_name : string) (columns rows : value)
    (html_bodies search_texts : value) (col_mapping : list (string * string))
    (s : store) : outcome store :=
  and_then (make_col_map columns)
    (fun col_map =>
       and_then (py_iter rows)
         (fun rows =>
            Done
              (fold_left
                 (insert_generic_row table_name col_map col_mapping
                    html_bodies search_texts)
                 rows s))).

(** ** [insert_powers] *)

(** [row[i] if len(row) > i else ''] with [i = col_map.get(name, dflt)]. *)
Definition cell_or_empty (col_map : list value) (name : string) (dflt : nat)
    (row : value) : outcome value :=
  let i := default dflt (col_get col_map name) in
  and_then (py_len row)
    (fun n => if Nat.ltb i n then py_item row i else Done (JStr EmptyString)).

(** [[k.strip() for k in keywords_raw.split(',') if k.strip()]] *)
Definition split_keywords (keywords_raw : string) : list string :=
  List.filter nonempty (map strip (split_char "," keywords_raw)).

(** What one row of the listing yields before anything is written: the
    parameters of the [INSERT] into [powers] and what the later statements
    use. *)
Record power_row := {
  p_params : srow;
  p_id : sqlval;
  p_keywords_raw : value;
  p_html_body : value;
  p_search_text : value;
  p_defense : option string;
  p_defense_conf : option string
}.

Definition power_record (col_map : list value)
    (html_bodies search_texts : value) (row : value) : outcome power_row :=
  and_then (py_item row (default 0 (col_get col_map "ID"))) (fun id_cell =>
  let entry_id := normalize_value id_cell in
  and_then (cell_or_empty col_map "Name" 1 row) (fun c =>
  let name := normalize_value c in
  and_then (cell_or_empty col_map "ClassName" 2 row) (fun c =>
  let class_name := normalize_value c in
  and_then (cell_or_empty col_map "Level" 3 row) (fun level_raw =>
  and_then (cell_or_empty col_map "Type" 4 row) (fun c =>
  let type_raw := normalize_value c in
  and_then (cell_or_empty col_map "Action" 5 row) (fun c =>
  let action := normalize_value c in
  and_then (cell_or_empty col_map "Keywords" 6 row) (fun c =>
  let keywords_raw := normalize_value c in
  and_then (cell_or_empty col_map "SourceBook" 7 row) (fun c =>
  let source_book := normalize_value c in
  and_then (get_or_empty html_bodies entry_id) (fun html_body =>
  and_then (get_or_empty search_texts entry_id) (fun search_text =>
  let level := parse_level level_raw in
  and_then (extract_power_type type_raw) (fun power_usage =>
  and_then (extract_defense_targeted html_body search_text)
    (fun '(defense, defense_conf) =>
  and_then (extract_range_info action html_body)
    (fun '(range_type, range_value, area_type, area_size) =>
  and_then (bind_text entry_id) (fun b_id =>
  and_then (bind_text name) (fun b_name =>
  and_then (bind_text class_name) (fun b_class =>
  and_then (bind_int level) (fun b_level =>
  and_then (bind_text type_raw) (fun b_type =>
  and_then (bind_text action) (fun b_action =>
  and_then (bind_text keywords_raw) (fun b_keywords =>
  and_then (bind_text source_book) (fun b_source =>
  and_then (bind_text html_body) (fun b_html =>
  and_then (bind_text search_text) (fun b_search =>
  and_then (bind_int range_value) (fun b_range_value =>
  and_then (bind_int area_size) (fun b_area_size =>
  Done
    {| p_params :=
         [ ("id", b_id); ("name", b_name); ("class_name", b_class);
           ("level", b_level); ("level_raw", SText (py_str level_raw));
           ("type", b_type); ("type_raw", b_type); ("action", b_action);
           ("keywords_raw", b_keywords); ("source_book", b_source);
           ("html_body", b_html); ("search_text", b_search);
           ("power_usage", opt_text power_usage);
           ("defense_targeted", opt_text defense);
           ("range_type", opt_text range_type);
           ("range_value", b_range_value);
           ("area_type", opt_text area_type);
           ("area_size", b_area_size) ];
       p_id := b_id;
       p_keywords_raw := keywords_raw;
       p_html_body := html_body;
       p_search_text := search_text;
       p_defense := defense;
       p_defense_conf := defense_conf |}))))))))))))))))))))))))).

Definition with_tags (kw dt cd : list (string * string)) (s : store) : store :=
  {| tables := tables s;
     power_keywords := kw;
     power_damage_types := dt;
     power_conditions := cd;
     name_index := name_index s;
     parse_log := parse_log s;
     meta := meta s;
     categories := categories s |}.

(** The loops [for source, value, confidence in sources] that write to
    [_parse_log]: the store when the loop ends, and whether it ended by an
    exception. *)
Fixpoint log_sources (entry_id : sqlval) (field : string)
    (sources : list (string * string * string)) (s : store) : store * bool :=
  match sources with
  | [] => (s, true)
  | (source, value, confidence) :: rest =>
      match log_insert entry_id field (SText value) (SText source)
              (SText confidence) s with
      | Done s' => log_sources entry_id field rest s'
      | Raised => (s, false)
      end
  end.

(** The statements of [insert_powers] after the row of [powers] is written:
    keywords, damage types, conditions and the log.  An exception ends the
    work on this row and keeps what was written. *)
Definition power_tags (p : power_row) (s : store) : store :=
  match
    (if py_truthy (p_keywords_raw p) then as_text (p_keywords_raw p)
     else Done EmptyString)
  with
  | Raised => s
  | Done kw_text =>
      let s :=
        with_tags
          (fold_left (fun rel kw => tag_insert (p_id p) kw rel)
             (split_keywords kw_text) (power_keywords s))
          (power_damage_types s) (power_conditions s) s in
      match extract_damage_types (p_keywords_raw p) with
      | Raised => s
      | Done (damage_types, dt_sources) =>
          let s :=
            with_tags (power_keywords s)
              (fold_left (fun rel dt => tag_insert (p_id p) dt rel)
                 (set_iter rt damage_types) (power_damage_types s))
              (power_conditions s) s in
          match log_sources (p_id p) "damage_type" dt_sources s with
          | (s, false) => s
          | (s, true) =>
              match extract_conditions (p_html_body p) (p_search_text p) with
              | Raised => s
              | Done (conditions, cond_sources) =>
                  let s :=
                    with_tags (power_keywords s) (power_damage_types s)
                      (fold_left (fun rel cond => tag_insert (p_id p) cond rel)
                         (set_iter rt conditions) (power_conditions s)) s in
                  match log_sources (p_id p) "condition" cond_sources s with
                  | (s, false) => s
                  | (s, true) =>
                      match p_defense p with
                      | Some defense =>
                          if nonempty defense then
                            match
                              log_insert (p_id p) "defense_targeted"
                                (SText defense) (SText "regex")
                                (opt_text (p_defense_conf p)) s
                            with
                            | Done s' => s'
                            | Raised => s
                            end
                          else s
                      | None => s
                      end
                  end
              end
          end
      end
  end.

(** The body of the loop of [insert_powers]. *)
Definition insert_powers_row (col_map : list value)
    (html_bodies search_texts : value) (s : store) (row : value) : store :=
  match power_record col_map html_bodies search_texts row with
  | Raised => s
  | Done p =>
      match insert_or_replace "powers" (p_params p) s with
      | Raised => s
      | Done s' => power_tags p s'
      end
  end.

Definition insert_powers (columns rows html_bodies search_texts : value)
    (s : store) : outcome store :=
  and_then (make_col_map columns)
    (fun col_map =>
       and_then (py_iter rows)
         (fun rows =>
            Done
              (fold_left (insert_powers_row col_map html_bodies search_texts)
                 rows s))).

(** ** Loading a category *)

(** The pattern [parse_batch_data] falls back on, read with [re.DOTALL]: a
    quoted key (group 1), a colon, blanks, a quoted text with its escapes
    (group 2), blanks, and a comma or a closing brace. *)
Definition key_value : Re.t :=
  Re.cat
    [ Re.chr dq; Re.Group 1 (Re.plus (Re.not_chr dq)); Re.chr dq;
      Re.chr ":"; Re.Star Re.ws; Re.chr dq;
      Re.Group 2
        (Re.Star
           (Re.Alt (Re.none_of (String dq (String backslash EmptyString)))
              (Re.Seq (Re.chr backslash) (Re.Chr (fun _ => true)))));
      Re.chr dq; Re.Star Re.ws; Re.one_of ",}" ].

Definition unescape (v : string) : string :=
  let v := replace_all (String backslash (String dq EmptyString))
             (String dq EmptyString) v in
  let v := replace_all (String backslash "n")
             (String (ascii_of_nat 10) EmptyString) v in
  replace_all (String backslash "t") (String (ascii_of_nat 9) EmptyString) v.

(** [parse_batch_data]: a dictionary. *)
Definition parse_batch_data (content : string) : list (string * value) :=
  match extract_jsonp_payload content with
  | None => []
  | Some args =>
      if negb (nonempty args) then []
      else
        match find_char "{" args with
        | None => []
        | Some brace_start =>
            let json_str := drop brace_start args in
            match safe_json_loads json_str with
            | JNull =>
                fold_left
                  (fun result m =>
                     dict_set (Re.group 1 m) (JStr (unescape (Re.group 2 m)))
                       result)
                  (Re.finditer key_value json_str) []
            | JDict d => d
            | _ => []
            end
        end
  end.

(** The files of one category directory: [_listing.js], [data0.js] to
    [data19.js] by number, [_index.js]; [None] for a file that is not
    there. *)
Record category_files := {
  listing_js : option string;
  data_js : nat -> option string;
  index_js : option string
}.

(** [html_bodies.update(bodies)] *)
Definition dict_update (d bodies : list (string * value))
  : list (string * value) :=
  fold_left (fun d kv => dict_set kv.1 kv.2 d) bodies d.

(** [load_category_data]: [(columns, rows, html_bodies, search_texts)]. *)
Definition load_category_data (files : category_files)
  : value * value * value * value :=
  let '(columns, rows) :=
    match listing_js files with
    | Some content => parse_listing content
    | None => (JList [], JList [])
    end in
  let html_bodies :=
    fold_left
      (fun d i =>
         match data_js files i with
         | Some content => dict_update d (parse_batch_data content)
         | None => d
         end)
      (seq 0 20) [] in
  let search_texts :=
    match index_js files with
    | Some content => parse_object content
    | None => JDict []
    end in
  (columns, rows, JDict html_bodies, search_texts).

(** ** [build_database] *)

Definition category_table_map : list (string * string) :=
  [ ("power", "powers");
    ("feat", "feats");
    ("monster", "monsters");
    ("item", "items");
    ("class", "classes");
    ("race", "races");
    ("paragonpath", "paragon_paths");
    ("epicdestiny", "epic_destinies");
    ("theme", "themes");
    ("ritual", "rituals");
    ("background", "backgrounds");
    ("trap", "traps");
    ("disease", "diseases");
    ("poison", "poisons");
    ("deity", "deities");
    ("companion", "companions");
    ("glossary", "glossary");
    ("armor", "armor");
    ("weapon", "weapons");
    ("implement", "implements") ].

Definition generic_mappings : list (string * list (string * string)) :=
  [ ("feats",
     [ ("id", "ID");
       ("name", "Name");
       ("tier", "Tier");
       ("prerequisite", "Prerequisite");
       ("source_book", "SourceBook") ]);
    ("monsters",
     [ ("id", "ID");
       ("name", "Name");
       ("level_raw", "Level");
       ("combat_role", "CombatRole");
       ("group_role", "GroupRole");
       ("size", "Size");
       ("creature_type", "CreatureType");
       ("source_book", "SourceBook") ]);
    ("items",
     [ ("id", "ID");
       ("name", "Name");
       ("category", "Category");
       ("type", "Type");
       ("level_raw", "Level");
       ("cost", "Cost");
       ("rarity", "Rarity");
       ("source_book", "SourceBook") ]);
    ("classes",
     [ ("id", "ID");
       ("name", "Name");
       ("role", "RoleName");
       ("power_source", "PowerSourceText");
       ("key_abilities", "KeyAbilities");
       ("source_book", "SourceBook") ]);
    ("races",
     [ ("id", "ID");
       ("name", "Name");
       ("origin", "Origin");
       ("description", "DescriptionAttribute");
       ("size", "Size");
       ("source_book", "SourceBook") ]);
    ("paragon_paths",
     [ ("id", "ID");
       ("name", "Name");
       ("prerequisite", "Prerequisite");
       ("source_book", "SourceBook") ]);
    ("epic_destinies",
     [ ("id", "ID");
       ("name", "Name");
       ("prerequisite", "Prerequisite");
       ("source_book", "SourceBook") ]);
    ("themes",
     [ ("id", "ID");
       ("name", "Name");
       ("prerequisite", "Prerequisite");
       ("source_book", "SourceBook") ]);
    ("rituals",
     [ ("id", "ID");
       ("name", "Name");
       ("level_raw", "Level");
       ("component_cost", "ComponentCost");
       ("price", "Price");
       ("key_skill", "KeySkillDescription");
       ("source_book", "SourceBook") ]);
    ("backgrounds",
     [ ("id", "ID");
       ("name", "Name");
       ("type", "Type");
       ("campaign", "Campaign");
       ("skills", "Skills");
       ("source_book", "SourceBook") ]);
    ("traps",
     [ ("id", "ID");
       ("name", "Name");
       ("type", "Type");
       ("level_raw", "Level");
       ("role", "Role");
       ("xp", "XP");
       ("source_book", "SourceBook") ]);
    ("diseases",
     [ ("id", "ID");
       ("name", "Name");
       ("level_raw", "Level");
       ("source_book", "SourceBook") ]);
    ("poisons",
     [ ("id", "ID");
       ("name", "Name");
       ("level_raw", "Level");
       ("cost", "Cost");
       ("source_book", "SourceBook") ]);
    ("deities",
     [ ("id", "ID");
       ("name", "Name");
       ("alignment", "Alignment");
       ("source_book", "SourceBook") ]);
    ("companions",
     [ ("id", "ID");
       ("name", "Name");
       ("type", "Type");
       ("source_book", "SourceBook") ]);
    ("glossary",
     [ ("id", "ID");
       ("name", "Name");
       ("category", "Category");
       ("type", "Type");
       ("source_book", "SourceBook") ]);
    ("armor",
     [ ("id", "ID");
       ("name", "Name");
       ("type", "Type");
       ("armor_bonus", "ArmorBonus");
       ("min_enhancement_bonus", "MinEnhancementBonus");
       ("armor_check", "Check");
       ("speed", "Speed");
       ("price", "Price");
       ("weight", "Weight");
       ("source_book", "SourceBook") ]);
    ("weapons",
     [ ("id", "ID");
       ("name", "Name");
       ("weapon_category", "WeaponCategory");
       ("hands_required", "HandsRequired");
       ("proficiency_bonus", "ProficiencyBonus");
       ("damage", "Damage");
       ("range", "Range");
       ("price", "Price");
       ("weight", "Weight");
       ("weapon_group", "Group");
       ("properties", "Properties");
       ("source_book", "SourceBook") ]);
    ("implements",
     [ ("id", "ID");
       ("name", "Name");
       ("source_book", "SourceBook") ]) ].

(** The directory [4e_database_files]: the category directories that are
    there, [index.js] and [catalog.js]. *)
Record sources := {
  category_dirs : gmap string category_files;
  name_index_js : option string;
  catalog_js : option string
}.

(** [INSERT OR REPLACE INTO _meta (key, value)] *)
Definition meta_put (key value : string) (m : list (string * string))
  : list (string * string) :=
  app (List.filter (fun kv => negb (String.eqb kv.1 key)) m) [(key, value)].

Definition with_meta (m : list (string * string)) (s : store) : store :=
  {| tables := tables s;
     power_keywords := power_keywords s;
     power_damage_types := power_damage_types s;
     power_conditions := power_conditions s;
     name_index := name_index s;
     parse_log := parse_log s;
     meta := m;
     categories := categories s |}.

(** [INSERT OR REPLACE INTO _categories (name, entry_count, table_name)] *)
Definition with_category (name : string) (entry_count : nat)
    (table_name : string) (s : store) : store :=
  {| tables := tables s;
     power_keywords := power_keywords s;
     power_damage_types := power_damage_types s;
     power_conditions := power_conditions s;
     name_index := name_index s;
     parse_log := parse_log s;
     meta := meta s;
     categories :=
       app (List.filter (fun c => negb (String.eqb c.1 name)) (categories s))
         [(name, (entry_count, table_name))] |}.

(** [INSERT OR IGNORE INTO name_index (name_lower, entry_id)] *)
Definition index_insert (name_lower entry_id : string) (s : store) : store :=
  if existsb (fun '(a, b) => String.eqb a name_lower && String.eqb b entry_id)
       (name_index s)
  then s
  else
    {| tables := tables s;
       power_keywords := power_keywords s;
       power_damage_types := power_damage_types s;
       power_conditions := power_conditions s;
       name_index := app (name_index s) [(name_lower, entry_id)];
       parse_log := parse_log s;
       meta := meta s;
       categories := categories s |}.

(** One turn of the loop over [category_table_map.items()]: the store and
    [total_entries]. *)
Definition build_category (src : sources) (acc : outcome (store * nat))
    (entry : string * string) : outcome (store * nat) :=
  and_then acc
    (fun '(s, total_entries) =>
       let '(category, table_name) := entry in
       match category_dirs src !! category with
       | None => Done (s, total_entries)
       | Some files =>
           let '(columns, rows, html_bodies, search_texts) :=
             load_category_data files in
           if negb (py_truthy rows) then Done (s, total_entries)
           else
             and_then
               (if String.eqb category "power"
                then insert_powers columns rows html_bodies search_texts s
                else
                  match assoc table_name generic_mappings with
                  | Some mapping =>
                      match mapping with
                      | [] => Done s
                      | _ =>
                          insert_generic table_name columns rows html_bodies
                            search_texts mapping s
                      end
                  | None => Done s
                  end)
               (fun s =>
                  and_then (py_len rows)
                    (fun n =>
                       Done (with_category category n table_name s,
                             total_entries + n)))
       end).

(** The loop over [name_index.items()]. *)
Definition build_name_index (name_index : list (string * value)) (s : store)
  : store :=
  fold_left
    (fun s '(name_lower, entry_id) =>
       match entry_id with
       | JList eids =>
           fold_left (fun s eid => index_insert name_lower (py_str eid) s)
             eids s
       | _ => index_insert name_lower (py_str entry_id) s
       end)
    name_index s.

Definition dict_items (v : value) : list (string * value) :=
  match v with JDict d => d | _ => [] end.

(** [build_database]: the store the run leaves.  A store [existing] from an
    earlier run is removed first, and writing starts from the empty schema.
    The search tables and indexes made at the end are computed from the
    tables and are left out.  [Raised] is an exception nothing catches. *)
Definition build_database (src : sources) (existing : option store)
  : outcome store :=
  and_then
    (fold_left (build_category src) category_table_map
       (Done (create_schema, 0)))
    (fun '(s, total_entries) =>
       let s :=
         match name_index_js src with
         | Some content =>
             build_name_index (dict_items (parse_object content)) s
         | None => s
         end in
       let m := meta_put "build_date" (now rt) (meta s) in
       let m := meta_put "total_entries" (decimal (Z.of_nat total_entries)) m in
       let m := meta_put "version" "1.0" m in
       Done (with_meta m s)).

End Runtime.

(** What the resolver reads from the store: the rows of the category
    tables with their [id] and [name], and the name index. *)
Definition entity_of (r : srow) : option Compendium.entity :=
  match column "id" r, column "name" r with
  | SText i, SText n => Some {| Compendium.id := i; Compendium.name := n |}
  | _, _ => None
  end.

Definition as_compendium (s : store) : Compendium.t :=
  {| Compendium.tables :=
       (fun rows : list srow => omap entity_of rows) <$> tables s;
     Compendium.name_index := name_index s |}.

(** ** The clock *)

(** The same process reading another clock. *)
Definition with_clock (now' : string) (timestamp_at' : nat -> string)
    (rt : runtime) : runtime :=
  {| markup_text := markup_text rt;
     float_str := float_str rt;
     float_zero := float_zero rt;
     container_str := container_str rt;
     real_text := real_text rt;
     set_iter := set_iter rt;
     now := now';
     timestamp_at := timestamp_at' |}.

(** A row of [_parse_log] written at another time. *)
Definition retime_row (ts : nat -> string) (r : parse_log_row)
  : parse_log_row :=
  {| log_id := log_id r;
     entry_id := entry_id r;
     field := field r;
     log_value := log_value r;
     source := source r;
     confidence := confidence r;
     timestamp := ts (log_id r) |}.

Definition retime (ts : nat -> string) (s : store) : store :=
  {| tables := tables s;
     power_keywords := power_keywords s;
     power_damage_types := power_damage_types s;
     power_conditions := power_conditions s;
     name_index := name_index s;
     parse_log := map (retime_row ts) (parse_log s);
     meta := meta s;
     categories := categories s |}.

(** The store without what the clock wrote: the column [timestamp] of
    [_parse_log] is blanked and the row [build_date] of [_meta] is left
    out. *)
Definition timeless (s : store) : store :=
  {| tables := tables s;
     power_keywords := power_keywords s;
     power_damage_types := power_damage_types s;
     power_conditions := power_conditions s;
     name_index := name_index s;
     parse_log := map (retime_row (fun _ => EmptyString)) (parse_log s);
     meta :=
       List.filter (fun kv => negb (String.eqb kv.1 "build_date")) (meta s);
     categories := categories s |}.

End Build.

(* ===================================================================== *)
(** * The three scripts in a row *)
(* ===================================================================== *)

Module Pipeline.

(** The two files a run leaves behind. *)
Record world := {
  compendium_db : option Build.store;
  grants_db : option GrantsDb.t
}.

(** What a run reads: the data directory, the parsed rule export and the
    lines of the override table. *)
Record inputs := {
  data : Build.sources;
  export : Extract.element;
  overrides : option (list string)
}.

(** [build_compendium_db.py], [extract_grants.py] and
    [resolve_compendium_ids.py] run one after the other on what an earlier
    run left in [w]; [extracted_at] is the time the extractor records.
    [None] when the build ends with an exception. *)
Definition run (rt : Build.runtime) (extracted_at : string) (i : inputs)
    (w : world) : option (world * Resolve.report) :=
  match Build.build_database rt (data i) (compendium_db w) with
  | Build.Raised => None
  | Build.Done store =>
      let '(extracted, _) :=
        Extract.main extracted_at (export i) (grants_db w) in
      let '(resolved, report) :=
        Resolve.main (Build.as_compendium store) extracted (overrides i) in
      Some ({| compendium_db := Some store; grants_db := Some resolved |},
            report)
  end.

(** The canonical store and the counts a run leaves. *)
Definition store_of (r : option (world * Resolve.report))
  : option Build.store :=
  match r with Some (w, _) => compendium_db w | None => None end.

Definition report_of (r : option (world * Resolve.report))
  : option Resolve.report :=
  match r with Some (_, report) => Some report | None => None end.

End Pipeline.

(* ===================================================================== *)
(** * Small stores and payloads to run the scripts on *)
(* ===================================================================== *)

Module Sample.
Import PyStr.

Definition grant (id : nat) (granter gtype gname granted dtype dname : string)
  : Grant.row :=
  {| Grant.id := id;
     Grant.granter_xml_id := granter;
     Grant.granter_compendium_id := None;
     Grant.granter_type := gtype;
     Grant.granter_name := Some gname;
     Grant.granted_xml_id := granted;
     Grant.granted_compendium_id := None;
     Grant.granted_type := dtype;
     Grant.granted_name := Some dname;
     Grant.requires := None;
     Grant.level := None;
     Grant.ordinal := 0 |}.

Definition entity (id name : string) : Compendium.entity :=
  {| Compendium.id := id; Compendium.name := name |}.

(** A store with one power, one feat and one suit of armor. *)
Definition compendium : Compendium.t :=
  {| Compendium.tables :=
       list_to_map
         [ ("powers", [entity "power435" "Fireball"]);
           ("feats", [entity "feat1" "Alertness"]);
           ("armor", [entity "armor7" "Black Iron Armor"]) ];
     Compendium.name_index := [("black iron armor", "armor7")] |}.

(** Three grants: a feat that grants a power; a reference outside the
    authoring family that grants a familiar; a magic item, missing from the
    store under its own number, that grants a power the store lacks. *)
Definition rule_graph : GrantsDb.t :=
  {| GrantsDb.grants :=
       [ grant 1 "ID_FMP_FEAT_9001" "Feat" "Example Feat"
           "ID_FMP_POWER_435" "Power" "Fireball";
         grant 2 "ID_INTERNAL_FOO_3" "Internal" "Foo"
           "ID_FMP_FAMILIAR_12" "Familiar" "Cat";
         grant 3 "ID_FMP_MAGIC_ITEM_77" "Magic Item" "Black Iron Armor +2"
           "ID_FMP_POWER_999" "Power" "Nothing" ];
     GrantsDb.stat_additions := [];
     GrantsDb.modifies := [];
     GrantsDb.meta := [("source", "combined.dnd40.merged.xml")];
     GrantsDb.id_resolution_log := [] |}.

(** An override table that maps the power the store has. *)
Definition override_lines : option (list string) :=
  Some ["xml_id,compendium_id"; "ID_FMP_POWER_435,feat1"].

(** The same store with, besides, an item whose name carries the
    enhancement suffix. *)
Definition compendium_plus : Compendium.t :=
  {| Compendium.tables :=
       list_to_map
         [ ("powers", [entity "power435" "Fireball"]);
           ("feats", [entity "feat1" "Alertness"]);
           ("armor", [entity "armor7" "Black Iron Armor"]);
           ("items", [entity "item99" "Black Iron Armor +2"]) ];
     Compendium.name_index := [("black iron armor", "armor7")] |}.

(** An override table that maps the magic item. *)
Definition override_item : option (list string) :=
  Some ["xml_id,compendium_id"; "ID_FMP_MAGIC_ITEM_77,feat1"].

Definition node (tag : string) (attrib : list (string * string))
    (children : list Extract.element) : Extract.element :=
  Extract.Element tag (list_to_map attrib) children.

(** A grant without target type. *)
Definition grant_without_type : Extract.element :=
  node "grant" [("name", "ID_FMP_POWER_435")] [].

Definition good_grant : Extract.element :=
  node "grant" [("name", "ID_FMP_POWER_435"); ("type", "Power")] [].

Definition good_statadd : Extract.element :=
  node "statadd" [("name", "resist:fire"); ("value", "+5")] [].

(** A feat whose rules are the given directives, and the power it grants. *)
Definition export_of (directives : list Extract.element) : Extract.element :=
  node "D20Rules" []
    [ node "RulesElement"
        [("internal-id", "ID_FMP_FEAT_9001"); ("type", "Feat");
         ("name", "Example Feat")]
        [node "rules" [] directives];
      node "RulesElement"
        [("internal-id", "ID_FMP_POWER_435"); ("type", "Power");
         ("name", "Fireball")] [] ].

(** A runtime for running the build: the identity for what Python and
    SQLite print, insertion order for sets, a clock that stands still. *)
Definition runtime_at (now : string) : Build.runtime :=
  {| Build.markup_text := fun s => s;
     Build.float_str := fun s => s;
     Build.float_zero := fun _ => false;
     Build.container_str := fun _ => "[...]";
     Build.real_text := fun s => Some s;
     Build.set_iter := fun l => l;
     Build.now := now;
     Build.timestamp_at := fun _ => now |}.

(** The directory of one category, with one power. *)
Definition power_files : Build.category_files :=
  {| Build.listing_js :=
       Some (q "od.reader.jsonp_data_listing(20130616, 'power', ['ID', 'Name', 'ClassName', 'Level', 'Type', 'Action', 'Keywords', 'SourceBook'], [['power435', 'Fireball', 'Wizard', '5', 'Daily', 'Standard Action', 'Arcane, Fire, Implement', 'PHB']])");
     Build.data_js := fun i =>
       match i with
       | 0 =>
           Some (q "od.reader.jsonp_batch_data(0, {'power435': 'Attack: Intelligence vs. Reflex. The target is dazed.'})")
       | _ => None
       end;
     Build.index_js :=
       Some (q "od.reader.jsonp_data_index({'power435': 'fireball attack: intelligence vs. reflex. the target is dazed.'})") |}.

Definition data_dir : Build.sources :=
  {| Build.category_dirs := {[ "power" := power_files ]};
     Build.name_index_js :=
       Some (q "od.reader.jsonp_name_index({'fireball': 'power435'})");
     Build.catalog_js := None |}.

(** What the three scripts read. *)
Definition inputs : Pipeline.inputs :=
  {| Pipeline.data := data_dir;
     Pipeline.export := export_of [good_grant; good_statadd];
     Pipeline.overrides := override_lines |}.

(** A first run where nothing is there yet, and a second run a day later on
    what the first one left. *)
Definition first_run : option (Pipeline.world * Resolve.report) :=
  Pipeline.run (runtime_at "2024-01-01T00:00:00") "2024-01-01 00:00:00"
    inputs
    {| Pipeline.compendium_db := None; Pipeline.grants_db := None |}.

Definition second_run : option (Pipeline.world * Resolve.report) :=
  match first_run with
  | Some (w, _) =>
      Pipeline.run (runtime_at "2024-01-02T00:00:00") "2024-01-02 00:00:00"
        inputs w
  | None => None
  end.

(** A row of a listing whose name is a list. *)
Definition feat_columns : list Json.value :=
  [Json.JStr "ID"; Json.JStr "Name"; Json.JStr "Tier"].

Definition feat_row : Json.value :=
  Json.JList
    [ Json.JStr "feat2";
      Json.JList [Json.JStr "Toughness"; Json.JInt 3];
      Json.JList [] ].

Definition feat_mapping : list (string * string) :=
  [ ("id", "ID"); ("name", "Name"); ("tier", "Tier");
    ("prerequisite", "Prerequisite"); ("source_book", "SourceBook") ].

(** The rule-graph store after the resolver ran on the three. *)
Definition resolved : GrantsDb.t :=
  (Resolve.main compendium rule_graph override_lines).1.

Definition log_row (xml_id : string) (attempted resolved table : option string)
    (status : string) (method reason : option string) (granter granted : nat)
  : Log.row :=
  {| Log.xml_id := xml_id;
     Log.attempted_compendium_id := attempted;
     Log.resolved_compendium_id := resolved;
     Log.compendium_table := table;
     Log.status := status;
     Log.resolution_method := method;
     Log.unmappable_reason := reason;
     Log.occurrence_count := granter + granted;
     Log.as_granter_in_grants := granter;
     Log.as_granted_in_grants := granted;
     Log.in_statadd_count := 0;
     Log.in_modify_count := 0 |}.

(** Four of the rows that run logs. *)
Definition row_power_435 : Log.row :=
  log_row "ID_FMP_POWER_435" (Some "power435") (Some "power435")
    (Some "powers") "matched" (Some "id") None 0 1.

Definition row_internal : Log.row :=
  log_row "ID_INTERNAL_FOO_3" None None None "unmappable" None
    (Some "non-FMP prefix (ID_INTERNAL)") 1 0.

Definition row_familiar : Log.row :=
  log_row "ID_FMP_FAMILIAR_12" None None None "unmappable" None
    (Some "unknown type (FAMILIAR)") 0 1.

Definition row_magic_item (resolved : string) : Log.row :=
  log_row "ID_FMP_MAGIC_ITEM_77" (Some "item77") (Some resolved) None
    "matched_name_search" (Some "name_search") None 1 0.

Definition row_power_999 : Log.row :=
  log_row "ID_FMP_POWER_999" (Some "power999") None (Some "powers")
    "not_found" None None 0 1.

End Sample.


(* ===================================================================== *)
(** * Properties of the identity resolver *)
(* ===================================================================== *)

Section ResolveFacts.
Import PyStr Resolve.

(** A table [TYPE_MAP] names has a name, its prefix is not empty, and its
    ids are among those [main] loads. *)
Lemma TYPE_MAP_entry (type_part table prefix : string) :
  assoc type_part TYPE_MAP = Some (Some (table, prefix)) ->
  nonempty table = true /\ nonempty prefix = true /\ In table id_tables.
Proof.
  unfold TYPE_MAP. simpl.
  repeat (destruct (String.eqb type_part _);
          [ intros [= <- <-]; repeat split; simpl; tauto | ]).
  discriminate.
Qed.

(** What a successful derivation looks like. *)
Lemma xml_to_compendium_id_mapped (x comp_id table : string) :
  xml_to_compendium_id (Some x) = (Some comp_id, Some table, None) ->
  nonempty comp_id = true /\ nonempty table = true /\ In table id_tables.
Proof.
  unfold xml_to_compendium_id.
  destruct (negb (nonempty x)); [discriminate |].
  destruct (negb (contains "ID_FMP_" x)); [discriminate |].
  destruct (rsplit1 "_" _) as [| type_part [| num_part [| ? ?]]];
    try discriminate.
  destruct (negb (isdigit num_part)); [discriminate |].
  destruct (assoc type_part TYPE_MAP) as [[[tb pf] |] |] eqn:Hentry;
    try discriminate.
  intros [= <- <-].
  destruct (TYPE_MAP_entry _ _ _ Hentry) as (Ht & Hp & Hin).
  repeat split; auto.
  destruct pf; [discriminate | reflexivity].
Qed.

(** The reason of a failed derivation is never empty, and nothing else comes
    with it. *)
Lemma xml_to_compendium_id_cases (x : option string) :
  (exists comp_id table,
     xml_to_compendium_id x = (Some comp_id, Some table, None))
  \/ (exists reason,
        xml_to_compendium_id x = (None, None, Some reason)
        /\ nonempty reason = true).
Proof.
  unfold xml_to_compendium_id.
  destruct x as [x |]; [| right; eexists; split; reflexivity].
  destruct (negb (nonempty x)); [right; eexists; split; reflexivity |].
  destruct (negb (contains "ID_FMP_" x)); [right; eexists; split; reflexivity |].
  destruct (rsplit1 "_" _) as [| type_part [| num_part [| ? ?]]];
    try (right; eexists; split; reflexivity).
  destruct (negb (isdigit num_part)); [right; eexists; split; reflexivity |].
  destruct (assoc type_part TYPE_MAP) as [[[tb pf] |] |];
    try (right; eexists; split; reflexivity).
  left. eauto.
Qed.

(** [load_valid_ids] holds, for each of the tables, the ids of its rows. *)
Lemma load_valid_ids_fold (c : Compendium.t) (l : list string)
    (m : gmap string (gset string)) (t : string) :
  (forall t' v, m !! t' = Some v -> v = get_valid_ids c t') ->
  In t l \/ is_Some (m !! t) ->
  fold_left
    (fun valid_ids table =>
       match valid_ids !! table with
       | Some _ => valid_ids
       | None => <[table := get_valid_ids c table]> valid_ids
       end) l m !! t = Some (get_valid_ids c t).
Proof.
  revert m. induction l as [| a l IH]; intros m Hm Ht; simpl.
  - destruct Ht as [[] | [v Hv]]. rewrite Hv. f_equal. eauto.
  - apply IH.
    + intros t' v. destruct (m !! a) eqn:Ha; [apply Hm |].
      rewrite lookup_insert. case_decide; [| apply Hm].
      subst. congruence.
    + destruct Ht as [[-> | Hin] | Hs]; auto.
      * right. destruct (m !! t) eqn:Ha; [rewrite Ha; eauto |].
        rewrite lookup_insert_eq. eauto.
      * right. destruct (m !! a) eqn:Ha; [exact Hs |].
        rewrite lookup_insert. case_decide; eauto.
Qed.

Lemma ids_of_loaded (c : Compendium.t) (t : string) :
  In t id_tables -> ids_of (load_valid_ids c) t = get_valid_ids c t.
Proof.
  intros Hin. unfold ids_of, load_valid_ids.
  rewrite (load_valid_ids_fold c id_tables ∅ t); auto.
  intros t' v. rewrite lookup_empty. discriminate.
Qed.

(** The derived id is found in the store exactly when the table it was
    derived for has a row with that id. *)
Lemma direct_hit_loaded (c : Compendium.t) (db : GrantsDb.t)
    (csv : option (list string)) (x comp_id table : string) :
  xml_to_compendium_id (Some x) = (Some comp_id, Some table, None) ->
  direct_hit (load_env c db csv) (Some comp_id) (Some table)
  = bool_decide (comp_id ∈ (Compendium.id <$> table_rows c table)).
Proof.
  intros Hx. destruct (xml_to_compendium_id_mapped _ _ _ Hx) as (Hc & Ht & Hin).
  unfold direct_hit. rewrite Hc, Ht.
  change (valid_ids (load_env c db csv)) with (load_valid_ids c).
  rewrite (ids_of_loaded c table Hin). unfold get_valid_ids.
  rewrite !andb_true_l.
  apply bool_decide_ext. apply elem_of_list_to_set.
Qed.

(** The rows [main] writes to the log: one per entry of [id_info], by the
    loop body. *)
Lemma resolve_all_fold (E : env) (info : list (string * counts))
    (rows : list Log.row) (ch : cache) :
  (fold_left
     (fun '(log_rows, resolution_cache) '(xml_id, c) =>
        let '(row, assigned) := log_entry E xml_id c in
        (app log_rows [row],
         match assigned with
         | Some v => <[xml_id := v]> resolution_cache
         | None => resolution_cache
         end)) info (rows, ch)).1
  = app rows (map (fun kc => (log_entry E kc.1 kc.2).1) info).
Proof.
  revert rows ch. induction info as [| [k cnt] info IH]; intros rows ch; simpl.
  - symmetry. apply app_nil_r.
  - destruct (log_entry E k cnt) as [row assigned]. rewrite IH.
    simpl. rewrite <- app_assoc. reflexivity.
Qed.

Lemma resolve_all_rows (E : env) (info : list (string * counts)) :
  (resolve_all E info).1 = map (fun kc => (log_entry E kc.1 kc.2).1) info.
Proof. unfold resolve_all. rewrite resolve_all_fold. reflexivity. Qed.

Lemma main_log (c : Compendium.t) (db : GrantsDb.t)
    (csv : option (list string)) :
  GrantsDb.id_resolution_log (main c db csv).1
  = map (fun kc => (log_entry (load_env c db csv) kc.1 kc.2).1)
      (collect_id_info db).
Proof.
  unfold main. rewrite <- resolve_all_rows.
  destruct (resolve_all _ _) as [log_rows ch].
  destruct (update_grants _ _ _) as [[g ch1] n1].
  destruct (update_stat_additions _ _ _) as [[sa ch2] n2].
  destruct (update_modifies _ _ _) as [[md ch3] n3].
  reflexivity.
Qed.

Lemma log_entry_xml_id (E : env) (k : string) (cnt : counts) :
  Log.xml_id (log_entry E k cnt).1 = k.
Proof.
  unfold log_entry. destruct cnt as [[[g a] s] m].
  destruct (xml_to_compendium_id _) as [[comp_id table] reason].
  repeat case_match; reflexivity.
Qed.

(** A row of the log is the loop body at its own reference. *)
Lemma main_log_row (c : Compendium.t) (db : GrantsDb.t)
    (csv : option (list string)) (r : Log.row) :
  r ∈ GrantsDb.id_resolution_log (main c db csv).1 ->
  exists cnt, r = (log_entry (load_env c db csv) (Log.xml_id r) cnt).1.
Proof.
  rewrite main_log. intros Hr. apply list_elem_of_In in Hr.
  apply in_map_iff in Hr. destruct Hr as ([k cnt] & <- & _). simpl.
  exists cnt. rewrite log_entry_xml_id. reflexivity.
Qed.

End ResolveFacts.

Section ResolveClaims.
Import PyStr Resolve.

Lemma log_entry_unmappable (E : env) (k reason : string) (cnt : counts) :
  xml_to_compendium_id (Some k) = (None, None, Some reason) ->
  nonempty reason = true ->
  log_entry E k cnt
  = ({| Log.xml_id := k;
        Log.attempted_compendium_id := None;
        Log.resolved_compendium_id := None;
        Log.compendium_table := None;
        Log.status := "unmappable";
        Log.resolution_method := None;
        Log.unmappable_reason := Some reason;
        Log.occurrence_count := cnt.1.1.1 + cnt.1.1.2 + cnt.1.2 + cnt.2;
        Log.as_granter_in_grants := cnt.1.1.1;
        Log.as_granted_in_grants := cnt.1.1.2;
        Log.in_statadd_count := cnt.1.2;
        Log.in_modify_count := cnt.2 |}, None).
Proof.
  intros Hx Hr. unfold log_entry. destruct cnt as [[[g a] s] m].
  rewrite Hx. cbn [truthy]. rewrite Hr. reflexivity.
Qed.

Lemma log_entry_matched (E : env) (k comp_id table : string) (cnt : counts) :
  xml_to_compendium_id (Some k) = (Some comp_id, Some table, None) ->
  direct_hit E (Some comp_id) (Some table) = true ->
  log_entry E k cnt
  = ({| Log.xml_id := k;
        Log.attempted_compendium_id := Some comp_id;
        Log.resolved_compendium_id := Some comp_id;
        Log.compendium_table := Some table;
        Log.status := "matched";
        Log.resolution_method := Some "id";
        Log.unmappable_reason := None;
        Log.occurrence_count := cnt.1.1.1 + cnt.1.1.2 + cnt.1.2 + cnt.2;
        Log.as_granter_in_grants := cnt.1.1.1;
        Log.as_granted_in_grants := cnt.1.1.2;
        Log.in_statadd_count := cnt.1.2;
        Log.in_modify_count := cnt.2 |}, Some (Some comp_id)).
Proof.
  intros Hx Hd. unfold log_entry. destruct cnt as [[[g a] s] m].
  rewrite Hx. cbn [truthy]. rewrite Hd. reflexivity.
Qed.

(** The row of a reference that only name search can still resolve. *)
Lemma log_entry_fallback (E : env) (k comp_id table : string) (cnt : counts) :
  xml_to_compendium_id (Some k) = (Some comp_id, Some table, None) ->
  direct_hit E (Some comp_id) (Some table) = false ->
  truthy (manual_mappings E !! k) = false ->
  log_entry E k cnt
  = let found_by_name :=
      if truthy (xml_id_to_name E !! k)
      then search_by_name E (xml_id_to_name E !! k)
             (type_hint_of (Some comp_id) k)
      else None in
    let mk resolved tbl status method :=
      {| Log.xml_id := k;
         Log.attempted_compendium_id := Some comp_id;
         Log.resolved_compendium_id := resolved;
         Log.compendium_table := tbl;
         Log.status := status;
         Log.resolution_method := method;
         Log.unmappable_reason := None;
         Log.occurrence_count := cnt.1.1.1 + cnt.1.1.2 + cnt.1.2 + cnt.2;
         Log.as_granter_in_grants := cnt.1.1.1;
         Log.as_granted_in_grants := cnt.1.1.2;
         Log.in_statadd_count := cnt.1.2;
         Log.in_modify_count := cnt.2 |} in
    if truthy found_by_name
    then (mk found_by_name None "matched_name_search" (Some "name_search"),
          Some found_by_name)
    else (mk None (if nonempty table then Some table else None) "not_found"
            None,
          Some None).
Proof.
  intros Hx Hd Hm. unfold log_entry. destruct cnt as [[[g a] s] m].
  rewrite Hx. cbn [truthy]. rewrite Hd.
  change (match manual_mappings E !! k with
          | Some s0 => nonempty s0
          | None => false
          end) with (truthy (manual_mappings E !! k)).
  rewrite Hm. reflexivity.
Qed.

(** A derivation that succeeds has met the authoring prefix and a type tag
    of the table. *)
Lemma xml_to_compendium_id_tag (x comp_id table : string) :
  xml_to_compendium_id (Some x) = (Some comp_id, Some table, None) ->
  contains "ID_FMP_" x = true
  /\ exists type_part entry,
       type_tag x = Some type_part
       /\ assoc type_part TYPE_MAP = Some entry.
Proof.
  unfold xml_to_compendium_id, type_tag.
  destruct (negb (nonempty x)); [discriminate |].
  destruct (contains "ID_FMP_" x); [| discriminate]. cbn [negb].
  destruct (rsplit1 "_" _) as [| type_part [| num_part [| ? ?]]];
    try discriminate.
  destruct (negb (isdigit num_part)); [discriminate |].
  destruct (assoc type_part TYPE_MAP) as [entry |] eqn:Hentry;
    [| discriminate].
  intros _. split; [reflexivity |]. eauto.
Qed.

(** C1.  A reference whose derived id is in the store and which the manual
    override table also maps is logged with status [matched] and method
    [id], never [matched_manual]: the loop tries the derived id before it
    looks at the overrides. *)
Theorem direct_derivation_before_override (c : Compendium.t)
    (db : GrantsDb.t) (csv : option (list string)) (r : Log.row)
    (comp_id table manual_id : string) :
  r ∈ GrantsDb.id_resolution_log (main c db csv).1 ->
  xml_to_compendium_id (Some (Log.xml_id r)) = (Some comp_id, Some table, None) ->
  comp_id ∈ (Compendium.id <$> table_rows c table) ->
  manual_mappings (load_env c db csv) !! Log.xml_id r = Some manual_id ->
  Log.status r = "matched"
  /\ Log.resolution_method r = Some "id"
  /\ Log.resolved_compendium_id r = Some comp_id
  /\ Log.status r <> "matched_manual".
Proof.
  intros Hr Hx Hin _.
  destruct (main_log_row _ _ _ _ Hr) as [cnt Hrow].
  rewrite (log_entry_matched _ _ _ _ cnt Hx) in Hrow.
  - rewrite Hrow. cbn. repeat split. discriminate.
  - rewrite (direct_hit_loaded c db csv _ _ _ Hx).
    apply bool_decide_eq_true. exact Hin.
Qed.


End ResolveClaims.

Section ResolveWitnesses.
Import PyStr Resolve.

Lemma sample_log_rows :
  Sample.row_power_435 ∈ GrantsDb.id_resolution_log
      (main Sample.compendium Sample.rule_graph Sample.override_lines).1
  /\ Sample.row_internal ∈ GrantsDb.id_resolution_log
      (main Sample.compendium Sample.rule_graph Sample.override_lines).1
  /\ Sample.row_familiar ∈ GrantsDb.id_resolution_log
      (main Sample.compendium Sample.rule_graph Sample.override_lines).1
  /\ Sample.row_power_999 ∈ GrantsDb.id_resolution_log
      (main Sample.compendium Sample.rule_graph Sample.override_lines).1.
Proof.
  repeat split; apply list_elem_of_In; vm_compute; auto 10.
Defined.

Lemma direct_derivation_before_override_witness :
  manual_mappings
    (load_env Sample.compendium Sample.rule_graph Sample.override_lines)
    !! "ID_FMP_POWER_435" = Some "feat1"
  /\ Log.status Sample.row_power_435 = "matched"
  /\ Log.resolution_method Sample.row_power_435 = Some "id"
  /\ Log.resolved_compendium_id Sample.row_power_435 = Some "power435"
  /\ Log.status Sample.row_power_435 <> "matched_manual".
Proof.
  split; [vm_compute; reflexivity |].
  apply (direct_derivation_before_override Sample.compendium
           Sample.rule_graph Sample.override_lines Sample.row_power_435
           "power435" "powers" "feat1").
  - exact (proj1 sample_log_rows).
  - vm_compute; reflexivity.
  - apply list_elem_of_In; vm_compute; auto.
  - vm_compute; reflexivity.
Defined.


End ResolveWitnesses.

Section NameSearchClaims.
Import PyStr Resolve.

(** The ids [name_to_ids] lists under a name are those of the rows of
    [name_index] with that name, in row order. *)
Lemma load_name_to_ids_fold (rows : list (string * string))
    (m : gmap string (list string)) (k : string) :
  default []
    (fold_left
       (fun (m : gmap string (list string)) (row : string * string) =>
          <[row.1 := app (default [] (m !! row.1)) [row.2]]> m) rows m !! k)
  = app (default [] (m !! k))
      (map snd (List.filter (fun row => String.eqb row.1 k) rows)).
Proof.
  revert m. induction rows as [| [n i] rows IH]; intros m; simpl.
  - symmetry. apply app_nil_r.
  - rewrite IH. destruct (String.eqb_spec n k) as [-> | Hne].
    + rewrite lookup_insert_eq. simpl. rewrite <- app_assoc. reflexivity.
    + rewrite lookup_insert_ne by exact Hne. reflexivity.
Qed.

Lemma name_to_ids_rows (c : Compendium.t) (db : GrantsDb.t)
    (csv : option (list string)) (k : string) :
  default [] (name_to_ids (load_env c db csv) !! k)
  = map snd
      (List.filter (fun row => String.eqb row.1 k) (Compendium.name_index c)).
Proof.
  change (name_to_ids (load_env c db csv)) with (load_name_to_ids c).
  unfold load_name_to_ids. rewrite load_name_to_ids_fold.
  rewrite lookup_empty. reflexivity.
Qed.

(** The prefixes a type hint allows are never empty strings. *)
Lemma prefixes_of_hint_nonempty (h : option string) (p : string) :
  In p (prefixes_of_hint h) -> nonempty p = true.
Proof.
  unfold prefixes_of_hint. destruct h as [h |]; [| intros []].
  destruct (negb (nonempty h)); [intros [] |].
  unfold TYPE_GROUP_PREFIXES. simpl assoc at 1.
  repeat (destruct (String.eqb h _);
          [ simpl; intros Hin;
            repeat (destruct Hin as [<- | Hin]; [reflexivity |]);
            destruct Hin | ]).
  destruct (assoc h TYPE_MAP) as [[[tb pf] |] |]; try (intros []).
  destruct (nonempty pf) eqn:Hp; [| intros []].
  intros [<- | []]. exact Hp.
Qed.

Lemma has_prefix_in_nonempty (h : option string) (eid : string) :
  has_prefix_in (prefixes_of_hint h) eid = true -> nonempty eid = true.
Proof.
  unfold has_prefix_in. intros Hex. apply existsb_exists in Hex.
  destruct Hex as (p & Hin & Hp).
  apply prefixes_of_hint_nonempty in Hin.
  destruct p; [discriminate |]. destruct eid; [discriminate | reflexivity].
Qed.

Lemma head_In {A : Type} (l : list A) (x : A) : head l = Some x -> In x l.
Proof. destruct l; [discriminate | intros [= ->]; left; reflexivity]. Qed.

Lemma filter_filter_head {A : Type} (f g : A -> bool) (l : list A) :
  head (List.filter g (List.filter f l))
  = head (List.filter (fun x => f x && g x) l).
Proof.
  induction l as [| a l IH]; simpl; [reflexivity |].
  destruct (f a); simpl; [| exact IH].
  destruct (g a); simpl; [reflexivity | exact IH].
Qed.

(** A key under which the index lists an id that is in the store and has one
    of the prefixes: the first such id is taken. *)
Lemma search_key_index (E : env) (prefixes : list string) (key eid : string) :
  prefixes <> [] ->
  head
    (List.filter
       (fun id => bool_decide (id ∈ all_valid_ids E)
                  && has_prefix_in prefixes id)
       (default [] (name_to_ids E !! key))) = Some eid ->
  search_key E prefixes key = Some eid.
Proof.
  intros Hp Hhead. unfold search_key.
  rewrite <- filter_filter_head in Hhead.
  destruct (List.filter _ (default [] (name_to_ids E !! key)))
    as [| first valid] eqn:Hvalid; [discriminate |].
  destruct prefixes as [| p ps]; [congruence |].
  rewrite Hhead. reflexivity.
Qed.

(** A key the index does not list falls back on the tables. *)
Lemma search_key_no_index (E : env) (prefixes : list string) (key : string) :
  default [] (name_to_ids E !! key) = [] ->
  search_tables_by_name E key prefixes = None ->
  search_key E prefixes key = None.
Proof.
  intros Hidx Htab. unfold search_key. rewrite Hidx, Htab. simpl.
  destruct prefixes; reflexivity.
Qed.

Lemma black_iron_armor_variants :
  name_search_variants "Black Iron Armor +2"
  = ["black iron armor +2"; "black iron armor"; "black iron"].
Proof. vm_compute. reflexivity. Qed.

(** A reference that was derived has a type hint with prefixes. *)
Lemma mapped_prefixes (x comp_id table : string) :
  xml_to_compendium_id (Some x) = (Some comp_id, Some table, None) ->
  prefixes_of_hint (type_hint_of (Some comp_id) x) <> [].
Proof.
  intros Hx. pose proof (xml_to_compendium_id_mapped _ _ _ Hx) as (Hc & _ & _).
  revert Hx. unfold xml_to_compendium_id, type_hint_of, type_tag.
  cbn [truthy]. rewrite Hc.
  destruct (negb (nonempty x)); [discriminate |].
  destruct (contains "ID_FMP_" x); [| discriminate]. cbn [negb andb].
  destruct (rsplit1 "_" _) as [| type_part [| num_part [| ? ?]]];
    try discriminate.
  destruct (negb (isdigit num_part)); [discriminate |].
  destruct (assoc type_part TYPE_MAP) as [[[tb pf] |] |] eqn:Hentry;
    try discriminate.
  intros _. pose proof (TYPE_MAP_entry _ _ _ Hentry) as (_ & Hpf & _).
  unfold prefixes_of_hint.
  assert (Hne : nonempty type_part = true).
  { destruct type_part; [discriminate Hentry | reflexivity]. }
  rewrite Hne. cbn [negb].
  unfold TYPE_GROUP_PREFIXES. simpl assoc at 1.
  repeat (destruct (String.eqb type_part _); [discriminate |]).
  rewrite Hentry, Hpf. discriminate.
Qed.

(** C3, amended.  A reference whose derived id is not in the store, which no
    override maps and whose display name is "Black Iron Armor +2", resolves
    by name search to the first id the index lists under "black iron armor"
    that is in the store and has a prefix its type allows, with status
    [matched_name_search] and method [name_search], provided the first
    variant finds nothing: the index has no row for "black iron armor +2"
    and no table the type allows has an acceptable row of that name. *)
Theorem black_iron_armor_plus_variant (c : Compendium.t) (db : GrantsDb.t)
    (csv : option (list string)) (r : Log.row) (comp_id table eid : string) :
  let E := load_env c db csv in
  let prefixes := prefixes_of_hint (type_hint_of (Some comp_id) (Log.xml_id r)) in
  r ∈ GrantsDb.id_resolution_log (main c db csv).1 ->
  xml_to_compendium_id (Some (Log.xml_id r)) = (Some comp_id, Some table, None) ->
  comp_id ∉ (Compendium.id <$> table_rows c table) ->
  manual_mappings E !! Log.xml_id r = None ->
  xml_id_to_name E !! Log.xml_id r = Some "Black Iron Armor +2" ->
  (forall id, ("black iron armor +2", id) ∉ Compendium.name_index c) ->
  search_tables_by_name E "black iron armor +2" prefixes = None ->
  head
    (List.filter
       (fun id => bool_decide (id ∈ all_valid_ids E)
                  && has_prefix_in prefixes id)
       (map snd
          (List.filter (fun row => String.eqb row.1 "black iron armor")
             (Compendium.name_index c)))) = Some eid ->
  Log.resolved_compendium_id r = Some eid
  /\ Log.status r = "matched_name_search"
  /\ Log.resolution_method r = Some "name_search".
Proof.
  intros E prefixes Hr Hx Hnot Hman Hname Hraw Htab Hhead.
  destruct (main_log_row _ _ _ _ Hr) as [cnt Hrow].
  assert (HE : E = load_env c db csv) by reflexivity.
  assert (Hprefixes :
    prefixes = prefixes_of_hint (type_hint_of (Some comp_id) (Log.xml_id r)))
    by reflexivity.
  clearbody E prefixes. rewrite <- HE in Hrow.
  assert (Hsearch :
    search_by_name E (Some "Black Iron Armor +2")
      (type_hint_of (Some comp_id) (Log.xml_id r)) = Some eid).
  { unfold search_by_name.
    replace (negb (nonempty "Black Iron Armor +2")
             || negb (nonempty (strip "Black Iron Armor +2")))
      with false by (vm_compute; reflexivity).
    rewrite black_iron_armor_variants, <- Hprefixes.
    change (first_some (search_key E prefixes)
              ["black iron armor +2"; "black iron armor"; "black iron"])
      with (match search_key E prefixes "black iron armor +2" with
            | Some y => Some y
            | None =>
                first_some (search_key E prefixes)
                  ["black iron armor"; "black iron"]
            end).
    rewrite search_key_no_index; [| | exact Htab].
    - change (first_some (search_key E prefixes)
                ["black iron armor"; "black iron"])
        with (match search_key E prefixes "black iron armor" with
              | Some y => Some y
              | None => first_some (search_key E prefixes) ["black iron"]
              end).
      rewrite (search_key_index E prefixes "black iron armor" eid);
        [reflexivity | rewrite Hprefixes; exact (mapped_prefixes _ _ _ Hx) |].
      replace (default [] (name_to_ids E !! "black iron armor"))
        with (map snd
                (List.filter
                   (fun row : string * string =>
                      String.eqb row.1 "black iron armor")
                   (Compendium.name_index c)))
        by (rewrite HE; symmetry; apply name_to_ids_rows).
      exact Hhead.
    - rewrite HE. rewrite name_to_ids_rows.
      destruct (List.filter
                  (fun row : string * string =>
                     String.eqb row.1 "black iron armor +2")
                  (Compendium.name_index c)) as [| [n i] l] eqn:Hf;
        [reflexivity |].
      exfalso. assert (Hin : In (n, i) (List.filter
        (fun row => String.eqb row.1 "black iron armor +2")
        (Compendium.name_index c))) by (rewrite Hf; left; reflexivity).
      apply filter_In in Hin. destruct Hin as [Hin Heq].
      apply String.eqb_eq in Heq. simpl in Heq. subst n.
      apply (Hraw i). apply list_elem_of_In. exact Hin. }
  assert (Heid : nonempty eid = true).
  { apply (has_prefix_in_nonempty (type_hint_of (Some comp_id) (Log.xml_id r))).
    rewrite <- Hprefixes.
    assert (Hin : In eid (List.filter
      (fun id => bool_decide (id ∈ all_valid_ids E) && has_prefix_in prefixes id)
      (map snd
         (List.filter (fun row => String.eqb row.1 "black iron armor")
            (Compendium.name_index c))))).
    { apply head_In. exact Hhead. }
    apply filter_In in Hin. destruct Hin as [_ Hb].
    apply andb_true_iff in Hb. apply Hb. }
  rewrite (log_entry_fallback E _ _ _ cnt Hx) in Hrow.
  - rewrite Hname in Hrow. cbn [truthy nonempty] in Hrow.
    rewrite Hsearch in Hrow. cbn [truthy] in Hrow. rewrite Heid in Hrow.
    repeat split; rewrite Hrow; reflexivity.
  - rewrite HE. rewrite (direct_hit_loaded c db csv _ _ _ Hx).
    apply bool_decide_eq_false. exact Hnot.
  - rewrite Hman. reflexivity.
Qed.

Lemma black_iron_armor_plus_variant_witness :
  Log.resolved_compendium_id (Sample.row_magic_item "armor7") = Some "armor7"
  /\ Log.status (Sample.row_magic_item "armor7") = "matched_name_search"
  /\ Log.resolution_method (Sample.row_magic_item "armor7")
     = Some "name_search".
Proof.
  apply (black_iron_armor_plus_variant Sample.compendium Sample.rule_graph
           Sample.override_lines (Sample.row_magic_item "armor7")
           "item77" "items" "armor7").
  - apply list_elem_of_In; vm_compute; auto 10.
  - vm_compute; reflexivity.
  - intros Hin; apply list_elem_of_In in Hin; vm_compute in Hin;
      intuition discriminate.
  - vm_compute; reflexivity.
  - vm_compute; reflexivity.
  - intros id Hin; apply list_elem_of_In in Hin; vm_compute in Hin;
      intuition discriminate.
  - vm_compute; reflexivity.
  - vm_compute; reflexivity.
Defined.

(** C3 as the specification states it fails.  The store below has no index
    row for "black iron armor +2" and lists "armor7", an acceptable id that
    is in the store, under "black iron armor"; the derived id "item77" is
    not in the store.  The first variant, the raw name, is not in the index,
    so the tables are searched for it, and the item of that very name is
    taken: the reference resolves to "item99", not to "armor7". *)
Lemma black_iron_armor_plus_table_hit :
  let c := Sample.compendium_plus in
  let E := load_env c Sample.rule_graph None in
  let r := Sample.row_magic_item "item99" in
  (r ∈ GrantsDb.id_resolution_log (main c Sample.rule_graph None).1)
  /\ xml_to_compendium_id (Some (Log.xml_id r))
     = (Some "item77", Some "items", None)
  /\ ("item77" ∉ (Compendium.id <$> table_rows c "items"))
  /\ xml_id_to_name E !! Log.xml_id r = Some "Black Iron Armor +2"
  /\ (forall id, ("black iron armor +2", id) ∉ Compendium.name_index c)
  /\ (("black iron armor", "armor7") ∈ Compendium.name_index c)
  /\ ("armor7" ∈ all_valid_ids E)
  /\ has_prefix_in
       (prefixes_of_hint (type_hint_of (Some "item77") (Log.xml_id r)))
       "armor7" = true
  /\ Log.resolved_compendium_id r = Some "item99"
  /\ Log.resolved_compendium_id r <> Some "armor7".
Proof.
  cbv zeta. repeat apply conj.
  - apply list_elem_of_In; vm_compute; auto 10.
  - vm_compute; reflexivity.
  - intros Hin; apply list_elem_of_In in Hin; vm_compute in Hin;
      intuition discriminate.
  - vm_compute; reflexivity.
  - intros id Hin; apply list_elem_of_In in Hin; vm_compute in Hin;
      intuition discriminate.
  - apply list_elem_of_In; vm_compute; auto.
  - vm_compute; reflexivity.
  - vm_compute; reflexivity.
  - reflexivity.
  - discriminate.
Qed.

(** With an override for the reference the status is [matched_manual]: the
    overrides come before name search. *)
Lemma black_iron_armor_plus_override :
  let r := Sample.log_row "ID_FMP_MAGIC_ITEM_77" (Some "item77")
             (Some "feat1") None "matched_manual" (Some "manual") None 1 0 in
  r ∈ GrantsDb.id_resolution_log
        (main Sample.compendium Sample.rule_graph Sample.override_item).1.
Proof. apply list_elem_of_In; vm_compute; auto 10. Qed.

End NameSearchClaims.

Section UpdatePhase.
Import PyStr Resolve.

Lemma update_where_id_frame {R : Type} (frame : R -> R) (id_of : R -> nat)
    (f : R -> R) (row_id : nat) (table : list R) :
  (forall r, frame (f r) = frame r) ->
  map frame (update_where_id id_of f row_id table) = map frame table.
Proof.
  intros Hf. unfold update_where_id. rewrite map_map. apply map_ext.
  intros r. destruct (Nat.eqb (id_of r) row_id); [apply Hf | reflexivity].
Qed.

Lemma update_grants_frame (E : env) (snapshot table : list Grant.row)
    (ch : cache) (n : nat * nat) :
  map grant_frame
    (fold_left
       (fun '(table, resolution_cache, (granter_updated, granted_updated)) r =>
          let '(granter_comp, resolution_cache) :=
            resolve E resolution_cache (Some (Grant.granter_xml_id r)) in
          let '(granted_comp, resolution_cache) :=
            resolve E resolution_cache (Some (Grant.granted_xml_id r)) in
          if is_some granter_comp || is_some granted_comp then
            (update_where_id Grant.id (set_grant_ids granter_comp granted_comp)
               (Grant.id r) table,
             resolution_cache,
             (if truthy granter_comp then granter_updated + 1
              else granter_updated,
              if truthy granted_comp then granted_updated + 1
              else granted_updated))
          else (table, resolution_cache, (granter_updated, granted_updated)))
       snapshot (table, ch, n)).1.1
  = map grant_frame table.
Proof.
  revert table ch n. induction snapshot as [| r snapshot IH];
    intros table ch [n1 n2]; [reflexivity |].
  cbn [fold_left].
  destruct (resolve E ch (Some (Grant.granter_xml_id r))) as [a ch1].
  destruct (resolve E ch1 (Some (Grant.granted_xml_id r))) as [b ch2].
  destruct (is_some a || is_some b); rewrite IH; [| reflexivity].
  apply update_where_id_frame. intros []; reflexivity.
Qed.

Lemma update_stat_additions_frame (E : env)
    (snapshot table : list StatAdd.row) (ch : cache) (n : nat) :
  map statadd_frame
    (fold_left
       (fun '(table, resolution_cache, stat_updated) r =>
          let '(granter_comp, resolution_cache) :=
            resolve E resolution_cache (Some (StatAdd.granter_xml_id r)) in
          if is_some granter_comp then
            (update_where_id StatAdd.id (set_statadd_id granter_comp)
               (StatAdd.id r) table,
             resolution_cache, stat_updated + 1)
          else (table, resolution_cache, stat_updated))
       snapshot (table, ch, n)).1.1
  = map statadd_frame table.
Proof.
  revert table ch n. induction snapshot as [| r snapshot IH];
    intros table ch n; [reflexivity |].
  cbn [fold_left].
  destruct (resolve E ch (Some (StatAdd.granter_xml_id r))) as [a ch1].
  destruct (is_some a); rewrite IH; [| reflexivity].
  apply update_where_id_frame. intros []; reflexivity.
Qed.

Lemma update_modifies_frame (E : env) (snapshot table : list Modify.row)
    (ch : cache) (n : nat) :
  map modify_frame
    (fold_left
       (fun '(table, resolution_cache, mod_updated) r =>
          let '(granter_comp, resolution_cache) :=
            resolve E resolution_cache (Some (Modify.granter_xml_id r)) in
          if is_some granter_comp then
            (update_where_id Modify.id (set_modify_id granter_comp)
               (Modify.id r) table,
             resolution_cache, mod_updated + 1)
          else (table, resolution_cache, mod_updated))
       snapshot (table, ch, n)).1.1
  = map modify_frame table.
Proof.
  revert table ch n. induction snapshot as [| r snapshot IH];
    intros table ch n; [reflexivity |].
  cbn [fold_left].
  destruct (resolve E ch (Some (Modify.granter_xml_id r))) as [a ch1].
  destruct (is_some a); rewrite IH; [| reflexivity].
  apply update_where_id_frame. intros []; reflexivity.
Qed.

(** C5.  The update phase changes no column of [grants], [stat_additions]
    and [modifies] other than the resolved ids: once the resolved ids are
    set aside, the rows after the run are the rows before it, in the same
    order.  In particular the external references of every row are what
    they were, whatever their resolution gave. *)
Theorem resolution_only_sets_resolved_ids (c : Compendium.t)
    (db : GrantsDb.t) (csv : option (list string)) :
  let db' := (main c db csv).1 in
  map grant_frame (GrantsDb.grants db') = map grant_frame (GrantsDb.grants db)
  /\ map statadd_frame (GrantsDb.stat_additions db')
     = map statadd_frame (GrantsDb.stat_additions db)
  /\ map modify_frame (GrantsDb.modifies db')
     = map modify_frame (GrantsDb.modifies db)
  /\ map Grant.granter_xml_id (GrantsDb.grants db')
     = map Grant.granter_xml_id (GrantsDb.grants db)
  /\ map Grant.granted_xml_id (GrantsDb.grants db')
     = map Grant.granted_xml_id (GrantsDb.grants db)
  /\ map StatAdd.granter_xml_id (GrantsDb.stat_additions db')
     = map StatAdd.granter_xml_id (GrantsDb.stat_additions db)
  /\ map Modify.granter_xml_id (GrantsDb.modifies db')
     = map Modify.granter_xml_id (GrantsDb.modifies db).
Proof.
  cbv zeta.
  assert (Hframes :
    map grant_frame (GrantsDb.grants (main c db csv).1)
    = map grant_frame (GrantsDb.grants db)
    /\ map statadd_frame (GrantsDb.stat_additions (main c db csv).1)
       = map statadd_frame (GrantsDb.stat_additions db)
    /\ map modify_frame (GrantsDb.modifies (main c db csv).1)
       = map modify_frame (GrantsDb.modifies db)).
  { unfold main.
    destruct (resolve_all _ _) as [log_rows ch].
    pose proof (update_grants_frame (load_env c db csv) (GrantsDb.grants db)
                  (GrantsDb.grants db) ch (0, 0)) as Hg.
    fold (update_grants (load_env c db csv) (GrantsDb.grants db) ch) in Hg.
    destruct (update_grants _ _ _) as [[g ch1] n1].
    pose proof (update_stat_additions_frame (load_env c db csv)
                  (GrantsDb.stat_additions db) (GrantsDb.stat_additions db)
                  ch1 0) as Hs.
    fold (update_stat_additions (load_env c db csv)
            (GrantsDb.stat_additions db) ch1) in Hs.
    destruct (update_stat_additions _ _ _) as [[sa ch2] n2].
    pose proof (update_modifies_frame (load_env c db csv)
                  (GrantsDb.modifies db) (GrantsDb.modifies db) ch2 0) as Hm.
    fold (update_modifies (load_env c db csv) (GrantsDb.modifies db) ch2) in Hm.
    destruct (update_modifies _ _ _) as [[md ch3] n3].
    exact (conj Hg (conj Hs Hm)). }
  destruct Hframes as (Hg & Hs & Hm).
  repeat apply conj; try assumption.
  - apply (f_equal (map Grant.granter_xml_id)) in Hg.
    rewrite !map_map in Hg. exact Hg.
  - apply (f_equal (map Grant.granted_xml_id)) in Hg.
    rewrite !map_map in Hg. exact Hg.
  - apply (f_equal (map StatAdd.granter_xml_id)) in Hs.
    rewrite !map_map in Hs. exact Hs.
  - apply (f_equal (map Modify.granter_xml_id)) in Hm.
    rewrite !map_map in Hm. exact Hm.
Qed.

End UpdatePhase.

Section ExtractClaims.
Import PyStr Extract.

(** A directive that lacks a required attribute changes nothing: no row, no
    count, and the ordinal of the next directive stays. *)
Lemma process_child_skips (granter_xml_id granter_type : string)
    (granter_name : option string) (id_to_name : gmap string string)
    (p : progress) (child : element) :
  missing_required child = true ->
  process_child granter_xml_id granter_type granter_name id_to_name p child = p.
Proof.
  unfold missing_required, process_child.
  destruct (String.eqb (lower (tag child)) "grant").
  { destruct (safe_str (get child "name")), (safe_str (get child "type"));
      simpl; intros H; try discriminate H; reflexivity. }
  destruct (String.eqb (lower (tag child)) "statadd").
  { destruct (safe_str (get child "name")), (safe_str (get child "value"));
      simpl; intros H; try discriminate H; reflexivity. }
  destruct (String.eqb (lower (tag child)) "modify").
  { destruct (safe_str (get child "name")),
      (safe_str (or_else (get child "Field") (get child "field")));
      simpl; intros H; try discriminate H; reflexivity. }
  discriminate.
Qed.

(** Replacing an element of a list by one that passes or fails a test like
    it: what is computed from the first element that passes stays, once it
    is the same for the two. *)
Lemma find_replace {A B : Type} (p : A -> bool) (g : option A -> B)
    (l1 l2 : list A) (x x' : A) :
  p x = p x' ->
  g (Some x) = g (Some x') ->
  g (List.find p (l1 ++ x :: l2)) = g (List.find p (l1 ++ x' :: l2)).
Proof.
  intros Hp Hg. induction l1 as [| a l1 IH]; cbn [app List.find].
  - rewrite <- Hp. destruct (p x); [exact Hg | reflexivity].
  - destruct (p a); [reflexivity | exact IH].
Qed.

Lemma fold_filter_replace {A S : Type} (p : A -> bool) (step : S -> A -> S)
    (l1 l2 : list A) (x x' : A) (acc : S) :
  p x = p x' ->
  (forall s, step s x = step s x') ->
  fold_left step (List.filter p (l1 ++ x :: l2)) acc
  = fold_left step (List.filter p (l1 ++ x' :: l2)) acc.
Proof.
  intros Hp Hstep. rewrite !List.filter_app, !fold_left_app.
  cbn [List.filter]. rewrite <- Hp.
  destruct (p x); [| reflexivity]. cbn [fold_left]. rewrite Hstep.
  reflexivity.
Qed.

(** The element with the directive and the element without it give the same
    rows and the same counts. *)
Lemma process_rules_element_skips (et ct : string)
    (ea ca : gmap string string) (cs1 cs2 ds1 ds2 : list element)
    (bad : element) (id_to_name : gmap string string) (d : GrantsDb.t) :
  missing_required bad = true ->
  process_rules_element
    (Element et ea (cs1 ++ Element ct ca (ds1 ++ bad :: ds2) :: cs2))
    id_to_name d
  = process_rules_element
      (Element et ea (cs1 ++ Element ct ca (ds1 ++ ds2) :: cs2))
      id_to_name d.
Proof.
  intros Hbad. unfold process_rules_element. cbn [get].
  destruct (safe_str (ea !! "internal-id")) as [granter_xml_id |];
    [| reflexivity].
  destruct (safe_str (ea !! "type")) as [granter_type |]; [| reflexivity].
  unfold find_child. cbn [children].
  apply (find_replace (fun c => String.eqb (tag c) "rules")
           (fun o =>
              match o with
              | Some rules =>
                  let p :=
                    fold_left
                      (process_child granter_xml_id granter_type
                         (safe_str (ea !! "name")) id_to_name)
                      (children rules)
                      {| db := d; grant_count := 0; statadd_count := 0;
                         modify_count := 0; ordinal := 0 |} in
                  (db p, (grant_count p, statadd_count p, modify_count p))
              | None => (d, (0, 0, 0))
              end)).
  - reflexivity.
  - cbn [children]. rewrite !fold_left_app. cbn [fold_left].
    rewrite (process_child_skips _ _ _ _ _ bad Hbad). reflexivity.
Qed.

(** C9, amended.  A directive that lacks a required attribute is skipped and
    the others are processed as if it were not there: the run on the export
    with the directive gives the store and the report (counts, number of
    elements processed, error list) of the run on the export without it.
    Nothing records the skipped directive. *)
Theorem incomplete_directive_is_skipped (now : string)
    (old : option GrantsDb.t) (rt et ct : string)
    (ra ea ca : gmap string string)
    (es1 es2 cs1 cs2 ds1 ds2 : list element) (bad : element) :
  missing_required bad = true ->
  main now
    (Element rt ra
       (es1 ++
        Element et ea (cs1 ++ Element ct ca (ds1 ++ bad :: ds2) :: cs2)
        :: es2)) old
  = main now
      (Element rt ra
         (es1 ++
          Element et ea (cs1 ++ Element ct ca (ds1 ++ ds2) :: cs2)
          :: es2)) old.
Proof.
  intros Hbad. unfold main.
  assert (Hnames :
    build_id_to_name
      (Element rt ra
         (es1 ++
          Element et ea (cs1 ++ Element ct ca (ds1 ++ bad :: ds2) :: cs2)
          :: es2))
    = build_id_to_name
        (Element rt ra
           (es1 ++
            Element et ea (cs1 ++ Element ct ca (ds1 ++ ds2) :: cs2)
            :: es2))).
  { unfold build_id_to_name, findall. cbn [children].
    apply fold_filter_replace; reflexivity. }
  rewrite Hnames. unfold findall. cbn [children].
  rewrite (fold_filter_replace
             (fun c => String.eqb (tag c) "RulesElement") _ es1 es2
             (Element et ea
                (cs1 ++ Element ct ca (ds1 ++ bad :: ds2) :: cs2))
             (Element et ea (cs1 ++ Element ct ca (ds1 ++ ds2) :: cs2)));
    [reflexivity | reflexivity |].
  intros [[d [[tg ts] tm]] n].
  rewrite (process_rules_element_skips et ct ea ca cs1 cs2 ds1 ds2 bad _ d Hbad).
  reflexivity.
Qed.

Lemma incomplete_directive_is_skipped_witness :
  main "2026-11-04 12:00:00"
    (Sample.export_of
       [Sample.good_grant; Sample.grant_without_type; Sample.good_statadd])
    None
  = main "2026-11-04 12:00:00"
      (Sample.export_of [Sample.good_grant; Sample.good_statadd]) None.
Proof.
  exact (incomplete_directive_is_skipped "2026-11-04 12:00:00" None
           "D20Rules" "RulesElement" "rules" _ _ _ [] _ [] []
           [Sample.good_grant] [Sample.good_statadd]
           Sample.grant_without_type eq_refl).
Defined.

(** C9 as the specification states it fails on the logging: the run on an
    export with a grant that has no target type reports no error, and its
    store and report are those of the run on the export without the grant,
    so they hold no trace of it. *)
Lemma skipped_directive_is_not_logged :
  missing_required Sample.grant_without_type = true
  /\ errors
       (main "2026-11-04 12:00:00"
          (Sample.export_of
             [Sample.good_grant; Sample.grant_without_type;
              Sample.good_statadd]) None).2 = []
  /\ main "2026-11-04 12:00:00"
       (Sample.export_of
          [Sample.good_grant; Sample.grant_without_type; Sample.good_statadd])
       None
     = main "2026-11-04 12:00:00"
         (Sample.export_of [Sample.good_grant; Sample.good_statadd]) None.
Proof. repeat apply conj; vm_compute; reflexivity. Qed.

End ExtractClaims.

Section DecoderClaims.
Import PyStr Json Build.

(** A unit that strict parsing accepts is returned as parsed; nothing is
    raised on any text. *)
Lemma safe_json_loads_strict (s : string) (v : value) :
  loads s = Some v -> safe_json_loads s = v.
Proof. intros H. unfold safe_json_loads. rewrite H. reflexivity. Qed.

(** A unit that is still unparseable after the repair gives [None]. *)
Lemma safe_json_loads_no_data (s : string) :
  loads s = None -> loads (clean_json_string s) = None ->
  safe_json_loads s = JNull.
Proof. intros H1 H2. unfold safe_json_loads. rewrite H1, H2. reflexivity. Qed.

(** The repaired unit is what the decoder reads when strict parsing fails. *)
Lemma safe_json_loads_repaired (s : string) (v : value) :
  loads s = None -> loads (clean_json_string s) = Some v ->
  safe_json_loads s = v.
Proof. intros H1 H2. unfold safe_json_loads. rewrite H1, H2. reflexivity. Qed.

(** A unit with one trailing comma and one invalid escape, the scenario of
    the specification: here the repair gives the tree of the unit fixed by
    hand.  ([q] writes double quotes as apostrophes.) *)
Example repair_scenario :
  loads (q "{'a': 'x\y', 'b': [1, 2, ], }") = None
  /\ safe_json_loads (q "{'a': 'x\y', 'b': [1, 2, ], }")
     = JDict [("a", JStr "x\y"); ("b", JList [JInt 1; JInt 2])]
  /\ loads (q "{'a': 'x\\y', 'b': [1, 2 ] }")
     = Some (JDict [("a", JStr "x\y"); ("b", JList [JInt 1; JInt 2])]).
Proof. repeat apply conj; vm_compute; reflexivity. Qed.

(** C6: the code at inputs on which it breaks the claim.  The first unit
    fails strict parsing only by its trailing comma; fixed by hand it
    decodes to a list with the text [C:\Users].  The repair reads the second
    backslash of the valid escape as the start of an invalid one and
    doubles it, the result is unparseable, and the decoder returns [None].
    The second unit holds a comma and a closing bracket inside a text: the
    repair removes that comma too and the text comes out changed. *)
Theorem repair_corrupts_valid_text :
  (loads (q "['C:\\Users',]") = None
   /\ loads (q "['C:\\Users']") = Some (JList [JStr "C:\Users"])
   /\ clean_json_string (q "['C:\\Users',]") = q "['C:\\\Users']"
   /\ safe_json_loads (q "['C:\\Users',]") = JNull)
  /\ (loads (q "['a,]',]") = None
      /\ loads (q "['a,]']") = Some (JList [JStr "a,]"])
      /\ safe_json_loads (q "['a,]',]") = JList [JStr "a]"]).
Proof. repeat apply conj; vm_compute; reflexivity. Qed.

(** C8: the code at an input on which it breaks the claim.  The entry has
    no markup body and its search text holds "vs. AC": the extractor reads
    the empty text and returns [(None, None)], while the text the sibling
    [extract_conditions] reads from the same entry is the search text, in
    which the pattern occurs.  With a markup body that is not empty the
    defense is found. *)
Theorem defense_lost_without_markup_body (rt : runtime) :
  extract_defense_targeted rt (JStr "") (JStr "Attack: Strength vs. AC")
  = Done (None, None)
  /\ extract_defense_targeted rt JNull (JStr "Attack: Strength vs. AC")
     = Done (None, None)
  /\ search_or_markup rt (JStr "") (JStr "Attack: Strength vs. AC")
     = Done "Attack: Strength vs. AC"
  /\ Re.group 1 <$> Re.search vs_defense "Attack: Strength vs. AC" = Some "AC"
  /\ extract_defense_targeted rt (JStr "<p>Attack</p>")
       (JStr "Attack: Strength vs. AC")
     = Done (Some "AC", Some "high").
Proof. repeat apply conj; vm_compute; reflexivity. Qed.

(** With a markup body, the defense named after the first "vs" of the
    search text is returned in its normal case. *)
Example defense_normal_case (rt : runtime) :
  extract_defense_targeted rt (JStr "<p>x</p>") (JStr "dex VS  fortitude")
  = Done (Some "Fortitude", Some "high")
  /\ extract_defense_targeted rt (JStr "<p>x</p>") (JStr "Int vs ac, vs. Will")
     = Done (Some "AC", Some "high")
  /\ extract_defense_targeted rt (JStr "<p>x</p>") (JStr "no attack")
     = Done (None, None).
Proof. repeat apply conj; vm_compute; reflexivity. Qed.

End DecoderClaims.

Section ListingClaims.
Import PyStr Json Build.

Lemma append_cons (x : ascii) (a b : string) :
  String x a ++ b = String x (a ++ b).
Proof. reflexivity. Qed.

Lemma append_nil (b : string) : EmptyString ++ b = b.
Proof. reflexivity. Qed.

Lemma append_assoc (a b c : string) : (a ++ b) ++ c = a ++ (b ++ c).
Proof.
  induction a as [| x a IH]; [reflexivity |].
  rewrite !append_cons, IH. reflexivity.
Qed.

Lemma length_append (a b : string) :
  String.length (a ++ b) = String.length a + String.length b.
Proof.
  induction a as [| x a IH]; [reflexivity |].
  rewrite append_cons. cbn [String.length]. rewrite IH. reflexivity.
Qed.

Lemma drop_append (a b : string) : drop (String.length a) (a ++ b) = b.
Proof.
  induction a as [| x a IH]; [destruct b; reflexivity |].
  rewrite append_cons. exact IH.
Qed.

Lemma take_append (a b : string) : take (String.length a) (a ++ b) = a.
Proof.
  induction a as [| x a IH]; [destruct b; reflexivity |].
  rewrite append_cons. cbn [String.length take]. rewrite IH. reflexivity.
Qed.

(** The first occurrence of a character that is not in [a] and heads [b]. *)
Lemma find_char_append (c : ascii) (a b : string) :
  find_char c a = None ->
  find_char c (a ++ String c b) = Some (String.length a).
Proof.
  induction a as [| x a IH].
  - intros _. rewrite append_nil. cbn [find_char].
    rewrite Ascii.eqb_refl. reflexivity.
  - rewrite append_cons. cbn [find_char String.length].
    destruct (Ascii.eqb c x); [discriminate |].
    destruct (find_char c a); [discriminate |].
    intros _. rewrite IH; reflexivity.
Qed.

(** The last occurrence of a character that ends the text. *)
Lemma rfind_char_last (c : ascii) (a : string) :
  rfind_char c (a ++ String c EmptyString) = Some (String.length a).
Proof.
  induction a as [| x a IH].
  - rewrite append_nil. cbn [rfind_char]. rewrite Ascii.eqb_refl. reflexivity.
  - rewrite append_cons. cbn [rfind_char String.length]. rewrite IH.
    reflexivity.
Qed.

Lemma rstrip_last (a : string) (c : ascii) :
  is_space c = false ->
  rstrip (a ++ String c EmptyString) = a ++ String c EmptyString.
Proof.
  intros Hc. induction a as [| x a IH].
  - rewrite append_nil. cbn [rstrip]. rewrite Hc. reflexivity.
  - rewrite append_cons. cbn [rstrip]. rewrite IH.
    destruct a; reflexivity.
Qed.

Lemma lstrip_not_blank (s : string) :
  match s with String c _ => is_space c | EmptyString => false end = false ->
  lstrip s = s.
Proof. destruct s as [| c s]; simpl; [reflexivity |]. intros ->. reflexivity. Qed.

(** A callback name, an opening parenthesis, the arguments and a closing
    parenthesis: the payload is the arguments. *)
Lemma extract_jsonp_payload_call (cb args : string) :
  find_char "(" cb = None ->
  match cb with String c _ => is_space c | EmptyString => false end = false ->
  startswith BOM cb = false ->
  extract_jsonp_payload (cb ++ "(" ++ args ++ ")") = Some args.
Proof.
  intros Hcb Hblank Hbom. unfold extract_jsonp_payload, strip.
  assert (E1 : cb ++ "(" ++ args ++ ")" = (cb ++ "(" ++ args) ++ ")")
    by (rewrite !append_assoc; reflexivity).
  assert (E2 : cb ++ "(" ++ args ++ ")" = (cb ++ "(") ++ (args ++ ")"))
    by (rewrite !append_assoc; reflexivity).
  assert (Hl : lstrip (cb ++ "(" ++ args ++ ")") = cb ++ "(" ++ args ++ ")").
  { apply lstrip_not_blank. destruct cb; [reflexivity | exact Hblank]. }
  rewrite Hl.
  assert (Hr : rstrip (cb ++ "(" ++ args ++ ")") = cb ++ "(" ++ args ++ ")").
  { rewrite E1. apply rstrip_last. reflexivity. }
  rewrite Hr.
  assert (Hb : startswith BOM (cb ++ "(" ++ args ++ ")") = false).
  { revert Hbom. clear. unfold startswith, BOM.
    destruct cb as [| c1 [| c2 [| c3 cb]]];
      rewrite ?append_cons, ?append_nil; cbn [String.prefix];
      repeat match goal with
             | |- context [Ascii.ascii_dec ?a ?b] =>
                 destruct (Ascii.ascii_dec a b)
             end;
      intros; try reflexivity; try discriminate;
      match goal with
      | H : String.prefix EmptyString ?s = false |- _ =>
          exfalso; revert H; clear; destruct s; discriminate
      end. }
  rewrite Hb.
  assert (Hf : find_char "(" (cb ++ "(" ++ args ++ ")")
               = Some (String.length cb)).
  { apply (find_char_append "(" cb (args ++ ")") Hcb). }
  rewrite Hf.
  assert (Hrf : rfind_char ")" (cb ++ "(" ++ args ++ ")")
                = Some (String.length (cb ++ "(" ++ args))).
  { rewrite E1. apply rfind_char_last. }
  rewrite Hrf. f_equal.
  replace (String.length cb + 1) with (String.length (cb ++ "("))
    by (rewrite length_append; reflexivity).
  rewrite E2 at 1. rewrite drop_append.
  replace (String.length (cb ++ "(" ++ args) - String.length (cb ++ "("))
    with (String.length args)
    by (rewrite !length_append; cbn [String.length]; lia).
  apply take_append.
Qed.

(** The depth counter comes back to zero at the bracket that closes a
    balanced text, wherever it stands. *)
Lemma columns_end_from_balanced (body rest : string) (depth i : nat) :
  balanced_from depth body = true ->
  columns_end_from (Z.of_nat depth + 1) i (body ++ "]" ++ rest)
  = Some (i + String.length body).
Proof.
  revert depth i. induction body as [| c body IH]; intros depth i Hbal.
  - rewrite append_nil. cbn [balanced_from] in Hbal.
    apply Nat.eqb_eq in Hbal. subst depth.
    change ("]" ++ rest) with (String "]" rest). cbn [columns_end_from].
    replace (Ascii.eqb "]" "[") with false by reflexivity.
    rewrite Ascii.eqb_refl. cbn. f_equal. cbn [String.length]. lia.
  - rewrite append_cons. cbn [columns_end_from String.length].
    cbn [balanced_from] in Hbal.
    destruct (Ascii.eqb c "[").
    + replace (Z.of_nat depth + 1 + 1)%Z with (Z.of_nat (S depth) + 1)%Z
        by lia.
      rewrite (IH (S depth) (S i) Hbal). f_equal. lia.
    + destruct (Ascii.eqb c "]").
      * destruct depth as [| d]; [discriminate |].
        replace (Z.of_nat (S d) + 1 - 1 =? 0)%Z with false
          by (symmetry; apply Z.eqb_neq; lia).
        replace (Z.of_nat (S d) + 1 - 1)%Z with (Z.of_nat d + 1)%Z by lia.
        rewrite (IH d (S i) Hbal). f_equal. lia.
      * rewrite (IH depth (S i) Hbal). f_equal. lia.
Qed.

(** The two texts the decoder is given are the column list and the row
    list, when the brackets inside the column list are balanced. *)
Lemma split_listing_balanced (pre body mid rows : string) :
  find_char "[" pre = None ->
  balanced body = true ->
  find_char "[" mid = None ->
  startswith "[" rows = true ->
  rstrip_char ")" rows = rows ->
  split_listing (pre ++ ("[" ++ body ++ "]") ++ mid ++ rows)
  = Some ("[" ++ body ++ "]", rows).
Proof.
  intros Hpre Hbal Hmid Hrows Hend. unfold split_listing.
  change (("[" ++ body ++ "]") ++ mid ++ rows)
    with (String "[" ((body ++ "]") ++ mid ++ rows)).
  rewrite (find_char_append "[" pre _ Hpre), drop_append.
  cbn [columns_end_from]. rewrite Ascii.eqb_refl.
  rewrite append_assoc.
  change (0 + 1)%Z with (Z.of_nat 0 + 1)%Z.
  rewrite (columns_end_from_balanced body (mid ++ rows) 0 1 Hbal).
  replace (1 + String.length body + 1)
    with (String.length ("[" ++ body ++ "]"))
    by (rewrite !length_append; cbn [String.length]; lia).
  change (String "[" (body ++ "]" ++ mid ++ rows))
    with ("[" ++ body ++ "]" ++ mid ++ rows).
  replace ("[" ++ body ++ "]" ++ mid ++ rows)
    with (("[" ++ body ++ "]") ++ mid ++ rows)
    by (rewrite !append_assoc; reflexivity).
  rewrite take_append, drop_append.
  destruct rows as [| r0 rows]; [discriminate |].
  assert (Hr0 : r0 = "["%char).
  { unfold startswith in Hrows. cbn [String.prefix] in Hrows.
    destruct (Ascii.ascii_dec "[" r0); [congruence | discriminate]. }
  subst r0.
  rewrite (find_char_append "[" mid rows Hmid), drop_append.
  rewrite Hend. reflexivity.
Qed.




End ListingClaims.

Section NormalizeClaims.
Import PyStr Json Build.

Lemma normalize_value_not_list (rt : runtime) (v : value) :
  is_list (normalize_value rt v) = false.
Proof. destruct v as [| | | | | [| first rest] |]; reflexivity. Qed.

(** Every value [insert_generic] takes from the listing went through
    [normalize_value]: none is a list. *)
Lemma mapped_values_not_list (rt : runtime) (col_map : list value)
    (col_mapping : list (string * string)) (row : value)
    (values : list (string * value)) :
  mapped_values rt col_map col_mapping row = Done values ->
  Forall (fun kv => is_list kv.2 = false) values
  /\ map fst values = map fst col_mapping.
Proof.
  revert values. induction col_mapping as [| [table_col listing_col] rest IH];
    intros values; cbn [mapped_values].
  - intros [= <-]. split; [constructor | reflexivity].
  - destruct (col_get col_map listing_col) as [idx |].
    + destruct (py_len row) as [n |]; [| discriminate]. cbn [and_then].
      destruct (Nat.ltb idx n).
      * destruct (py_item row idx) as [cell |]; [| discriminate].
        cbn [and_then].
        destruct (mapped_values rt col_map rest row) as [vs |];
          [| discriminate].
        cbn [and_then]. intros [= <-].
        destruct (IH vs eq_refl) as [Hall Hkeys]. split.
        -- constructor; [apply normalize_value_not_list | exact Hall].
        -- cbn [map fst]. rewrite Hkeys. reflexivity.
      * cbn [and_then].
        destruct (mapped_values rt col_map rest row) as [vs |];
          [| discriminate].
        cbn [and_then]. intros [= <-].
        destruct (IH vs eq_refl) as [Hall Hkeys]. split.
        -- constructor; [reflexivity | exact Hall].
        -- cbn [map fst]. rewrite Hkeys. reflexivity.
    + cbn [and_then].
      destruct (mapped_values rt col_map rest row) as [vs |];
        [| discriminate].
      cbn [and_then]. intros [= <-].
      destruct (IH vs eq_refl) as [Hall Hkeys]. split.
      * constructor; [reflexivity | exact Hall].
      * cbn [map fst]. rewrite Hkeys. reflexivity.
Qed.

(** What can be bound is no list. *)
Lemma bind_all_not_list (rt : runtime) (params : list (string * value))
    (r : srow) :
  bind_all rt params = Done r ->
  Forall (fun kv => is_list kv.2 = false) params.
Proof.
  revert r. induction params as [| [c v] ps IH]; intros r; cbn [bind_all].
  - intros _. constructor.
  - destruct (bind_text rt v) as [b |] eqn:Hb; [| discriminate].
    cbn [and_then]. destruct (bind_all rt ps) as [r' |]; [| discriminate].
    intros _. constructor; [| exact (IH r' eq_refl)].
    destruct v; try reflexivity. discriminate Hb.
Qed.

(** A row that changes the store had all its parameters bound. *)
Lemma insert_generic_row_bound (rt : runtime) (table_name : string)
    (col_map : list value) (col_mapping : list (string * string))
    (html_bodies search_texts : value) (s : store) (row : value) :
  insert_generic_row rt table_name col_map col_mapping html_bodies
    search_texts s row <> s ->
  exists values level r,
    generic_values rt col_map col_mapping html_bodies search_texts row
    = Done (values, level)
    /\ bind_all rt values = Done r.
Proof.
  unfold insert_generic_row.
  destruct (generic_values rt col_map col_mapping html_bodies search_texts row)
    as [[values level] |]; cbn [and_then].
  - destruct (bind_all rt values) as [r |] eqn:Hbound; cbn [and_then].
    + intros _. exists values, level, r. split; [reflexivity | exact Hbound].
    + intros H. exfalso. apply H. reflexivity.
  - intros H. exfalso. apply H. reflexivity.
Qed.

(** C10.  [normalize_value] is a function of every decoded value (it cannot
    raise): [None] gives [None], the empty list gives [None], a list that is
    not empty gives the text of its first element, anything else is
    returned as it is, and the result is never a list.  In [insert_generic]
    every value taken from the listing is such a result, and a row that is
    written had all its parameters bound, none of which is a list. *)
Theorem normalize_value_never_stores_a_list (rt : runtime) :
  normalize_value rt JNull = JNull
  /\ normalize_value rt (JList []) = JNull
  /\ (forall first rest,
        normalize_value rt (JList (first :: rest)) = JStr (py_str rt first))
  /\ (forall v, v <> JNull -> is_list v = false -> normalize_value rt v = v)
  /\ (forall v, is_list (normalize_value rt v) = false)
  /\ (forall col_map col_mapping row values,
        mapped_values rt col_map col_mapping row = Done values ->
        Forall (fun kv => is_list kv.2 = false) values)
  /\ (forall table_name col_map col_mapping html_bodies search_texts s row,
        insert_generic_row rt table_name col_map col_mapping html_bodies
          search_texts s row <> s ->
        exists values level,
          generic_values rt col_map col_mapping html_bodies search_texts row
          = Done (values, level)
          /\ Forall (fun kv => is_list kv.2 = false) values).
Proof.
  repeat apply conj; try reflexivity.
  - intros v Hnull Hlist. destruct v; try reflexivity. discriminate Hlist.
  - apply normalize_value_not_list.
  - intros col_map col_mapping row values H.
    apply (mapped_values_not_list rt col_map col_mapping row values H).
  - intros table_name col_map col_mapping html_bodies search_texts s row H.
    destruct (insert_generic_row_bound _ _ _ _ _ _ _ _ H)
      as (values & level & r & Hv & Hb).
    exists values, level. split; [exact Hv |].
    exact (bind_all_not_list rt values r Hb).
Qed.

Lemma normalize_value_never_stores_a_list_witness :
  let rt := Sample.runtime_at "2024-01-01T00:00:00" in
  normalize_value rt (JStr "Toughness") = JStr "Toughness"
  /\ Forall (fun kv => is_list kv.2 = false)
       [ ("id", JStr "feat2"); ("name", JStr "Toughness"); ("tier", JNull);
         ("prerequisite", JNull); ("source_book", JNull) ]
  /\ exists values level,
       generic_values rt Sample.feat_columns Sample.feat_mapping
         (JDict []) (JDict []) Sample.feat_row
       = Done (values, level)
       /\ Forall (fun kv => is_list kv.2 = false) values.
Proof.
  intros rt.
  destruct (normalize_value_never_stores_a_list rt)
    as (_ & _ & _ & Hsame & _ & Hmapped & Hrow).
  split; [apply Hsame; [discriminate | reflexivity] |].
  split.
  - apply (Hmapped Sample.feat_columns Sample.feat_mapping Sample.feat_row).
    vm_compute. reflexivity.
  - apply (Hrow "feats" Sample.feat_columns Sample.feat_mapping
             (JDict []) (JDict []) create_schema Sample.feat_row).
    intros Hsame_store.
    apply (f_equal (fun st => tables st !! "feats")) in Hsame_store.
    vm_compute in Hsame_store. discriminate Hsame_store.
Defined.

End NormalizeClaims.

Section ClockFacts.
Import PyStr Json Build.

Variable rt : runtime.
Variable now' : string.
Variable ts : nat -> string.

Local Abbreviation rt' := (with_clock now' ts rt).
Local Abbreviation retimed o := (and_then o (fun s' => Done (retime ts s'))).

Lemma log_insert_retime (e : sqlval) (f : string) (v so c : sqlval)
    (s : store) :
  log_insert rt' e f v so c (retime ts s)
  = retimed (log_insert rt e f v so c s).
Proof.
  destruct e; try reflexivity.
  unfold log_insert, retime. cbn. rewrite List.map_app, List.length_map.
  reflexivity.
Qed.

Lemma log_sources_retime (e : sqlval) (f : string)
    (l : list (string * string * string)) (s : store) :
  log_sources rt' e f l (retime ts s)
  = (retime ts (log_sources rt e f l s).1, (log_sources rt e f l s).2).
Proof.
  revert s. induction l as [| [[so v] c] rest IH]; intros s; [reflexivity |].
  cbn [log_sources]. rewrite log_insert_retime.
  destruct (log_insert rt e f (SText v) (SText so) (SText c) s) as [s' |];
    cbn [and_then]; [apply IH | reflexivity].
Qed.

Lemma insert_or_replace_retime (table : string) (r : srow) (s : store) :
  insert_or_replace table r (retime ts s)
  = retimed (insert_or_replace table r s).
Proof.
  unfold insert_or_replace. destruct (is_null (column "name" r)); reflexivity.
Qed.

Lemma index_insert_retime (name_lower entry_id : string) (s : store) :
  index_insert name_lower entry_id (retime ts s)
  = retime ts (index_insert name_lower entry_id s).
Proof.
  unfold index_insert. cbn [name_index retime].
  destruct (existsb _ (name_index s)); reflexivity.
Qed.

Lemma fold_left_retime {A : Type} (f f' : store -> A -> store) :
  (forall s a, f' (retime ts s) a = retime ts (f s a)) ->
  forall l s, fold_left f' l (retime ts s) = retime ts (fold_left f l s).
Proof.
  intros H l. induction l as [| a l IH]; intros s; [reflexivity |].
  cbn [fold_left]. rewrite H. apply IH.
Qed.

Ltac same_but_clock :=
  change (py_truthy (with_clock now' ts rt)) with (py_truthy rt);
  change (py_str (with_clock now' ts rt)) with (py_str rt);
  change (set_iter (with_clock now' ts rt)) with (set_iter rt);
  change (extract_damage_types (with_clock now' ts rt))
    with (extract_damage_types rt);
  change (extract_conditions (with_clock now' ts rt))
    with (extract_conditions rt);
  change (power_record (with_clock now' ts rt)) with (power_record rt);
  change (generic_values (with_clock now' ts rt)) with (generic_values rt);
  change (bind_all (with_clock now' ts rt)) with (bind_all rt).

(** The store handed to the next statement is the one the other clock led
    to, written at the other times. *)
Ltac align_store :=
  match goal with
  | |- context [log_sources rt ?e ?f ?l ?s1] =>
      match goal with
      | |- context [log_sources (with_clock now' ts rt) e f l ?st] =>
          change st with (retime ts s1)
      end
  end.

Lemma power_tags_retime (p : power_row) (s : store) :
  power_tags rt' p (retime ts s) = retime ts (power_tags rt p s).
Proof.
  unfold power_tags. same_but_clock.
  destruct (if py_truthy rt (p_keywords_raw p)
            then as_text (p_keywords_raw p) else Done EmptyString)
    as [kw_text |]; [| reflexivity].
  destruct (extract_damage_types rt (p_keywords_raw p))
    as [[damage_types dt_sources] |]; [| reflexivity].
  align_store. rewrite log_sources_retime.
  destruct (log_sources rt (p_id p) "damage_type" dt_sources _)
    as [s1 [|]]; cbn [fst snd]; [| reflexivity].
  destruct (extract_conditions rt (p_html_body p) (p_search_text p))
    as [[conditions cond_sources] |]; [| reflexivity].
  align_store. rewrite log_sources_retime.
  destruct (log_sources rt (p_id p) "condition" cond_sources _)
    as [s2 [|]]; cbn [fst snd]; [| reflexivity].
  destruct (p_defense p) as [defense |]; [| reflexivity].
  destruct (nonempty defense); [| reflexivity].
  rewrite log_insert_retime.
  destruct (log_insert rt (p_id p) "defense_targeted" _ _ _ s2);
    reflexivity.
Qed.

Lemma insert_powers_row_retime (col_map : list value)
    (html_bodies search_texts : value) (s : store) (row : value) :
  insert_powers_row rt' col_map html_bodies search_texts (retime ts s) row
  = retime ts (insert_powers_row rt col_map html_bodies search_texts s row).
Proof.
  unfold insert_powers_row. same_but_clock.
  destruct (power_record rt col_map html_bodies search_texts row) as [p |];
    [| reflexivity].
  rewrite insert_or_replace_retime.
  destruct (insert_or_replace "powers" (p_params p) s) as [s' |];
    cbn [and_then]; [apply power_tags_retime | reflexivity].
Qed.

Lemma insert_powers_retime (columns rows html_bodies search_texts : value)
    (s : store) :
  insert_powers rt' columns rows html_bodies search_texts (retime ts s)
  = retimed (insert_powers rt columns rows html_bodies search_texts s).
Proof.
  unfold insert_powers.
  destruct (make_col_map columns) as [col_map |]; [| reflexivity].
  destruct (py_iter rows) as [items |]; [| reflexivity].
  cbn [and_then]. f_equal. apply fold_left_retime. intros s0 row.
  apply insert_powers_row_retime.
Qed.

Lemma insert_generic_row_retime (table_name : string) (col_map : list value)
    (col_mapping : list (string * string)) (html_bodies search_texts : value)
    (s : store) (row : value) :
  insert_generic_row rt' table_name col_map col_mapping html_bodies
    search_texts (retime ts s) row
  = retime ts
      (insert_generic_row rt table_name col_map col_mapping html_bodies
         search_texts s row).
Proof.
  unfold insert_generic_row. same_but_clock.
  destruct (generic_values rt col_map col_mapping html_bodies search_texts row)
    as [[values level] |]; [| reflexivity].
  cbn [and_then]. destruct (bind_all rt values) as [r |]; [| reflexivity].
  cbn [and_then]. destruct level as [l |].
  - destruct (bind_int l) as [b |]; [| reflexivity]. cbn [and_then].
    rewrite insert_or_replace_retime.
    destruct (insert_or_replace table_name _ s); reflexivity.
  - rewrite insert_or_replace_retime.
    destruct (insert_or_replace table_name r s); reflexivity.
Qed.

Lemma insert_generic_retime (table_name : string) (columns rows : value)
    (html_bodies search_texts : value) (col_mapping : list (string * string))
    (s : store) :
  insert_generic rt' table_name columns rows html_bodies search_texts
    col_mapping (retime ts s)
  = retimed
      (insert_generic rt table_name columns rows html_bodies search_texts
         col_mapping s).
Proof.
  unfold insert_generic.
  destruct (make_col_map columns) as [col_map |]; [| reflexivity].
  destruct (py_iter rows) as [items |]; [| reflexivity].
  cbn [and_then]. f_equal. apply fold_left_retime. intros s0 row.
  apply insert_generic_row_retime.
Qed.

Lemma build_name_index_retime (entries : list (string * value)) (s : store) :
  build_name_index rt' entries (retime ts s)
  = retime ts (build_name_index rt entries s).
Proof.
  unfold build_name_index. same_but_clock. apply fold_left_retime.
  intros s0 [name_lower entry_id].
  destruct entry_id; try apply index_insert_retime.
  apply fold_left_retime. intros s1 eid. apply index_insert_retime.
Qed.

Local Abbreviation retimed_acc o :=
  (and_then o (fun '(s', n) => Done (retime ts s', n))).

Lemma build_category_retime (src : sources) (acc : outcome (store * nat))
    (entry : string * string) :
  build_category rt' src (retimed_acc acc) entry
  = retimed_acc (build_category rt src acc entry).
Proof.
  destruct acc as [[s total_entries] |]; [| reflexivity].
  destruct entry as [category table_name].
  unfold build_category. cbn [and_then]. same_but_clock.
  destruct (category_dirs src !! category) as [files |]; [| reflexivity].
  destruct (load_category_data files)
    as [[[columns rows] html_bodies] search_texts].
  destruct (negb (py_truthy rt rows)); [reflexivity |].
  destruct (String.eqb category "power").
  - rewrite insert_powers_retime.
    destruct (insert_powers rt columns rows html_bodies search_texts s)
      as [s' |]; [| reflexivity].
    cbn [and_then]. destruct (py_len rows); reflexivity.
  - destruct (assoc table_name generic_mappings) as [[| m mapping] |].
    + cbn [and_then]. destruct (py_len rows); reflexivity.
    + rewrite insert_generic_retime.
      destruct (insert_generic rt table_name columns rows html_bodies
                  search_texts (m :: mapping) s) as [s' |]; [| reflexivity].
      cbn [and_then]. destruct (py_len rows); reflexivity.
    + cbn [and_then]. destruct (py_len rows); reflexivity.
Qed.

Lemma build_categories_retime (src : sources) (l : list (string * string))
    (acc : outcome (store * nat)) :
  fold_left (build_category rt' src) l (retimed_acc acc)
  = retimed_acc (fold_left (build_category rt src) l acc).
Proof.
  revert acc. induction l as [| entry l IH]; intros acc; [reflexivity |].
  cbn [fold_left]. rewrite build_category_retime. apply IH.
Qed.

Lemma timeless_retime (s : store) : timeless (retime ts s) = timeless s.
Proof.
  unfold timeless, retime. cbn. rewrite List.map_map. reflexivity.
Qed.

Lemma timeless_build_date (d total : string) (s : store) :
  timeless
    (with_meta
       (meta_put "version" "1.0"
          (meta_put "total_entries" total (meta_put "build_date" d (meta s))))
       s)
  = timeless
      (with_meta
         (meta_put "version" "1.0"
            (meta_put "total_entries" total
               (List.filter (fun kv => negb (String.eqb kv.1 "build_date"))
                  (meta s))))
         s).
Proof.
  unfold timeless, with_meta, meta_put. cbn. f_equal.
  rewrite !List.filter_app. cbn. rewrite !app_nil_r. reflexivity.
Qed.

(** Two runs that differ in the clock they read leave the same store apart
    from what the clock wrote. *)
Lemma build_database_retime (src : sources) (e1 e2 : option store) :
  and_then (build_database rt' src e1) (fun s => Done (timeless s))
  = and_then (build_database rt src e2) (fun s => Done (timeless s)).
Proof.
  unfold build_database.
  change (Done (create_schema, 0))
    with (retimed_acc (@Done (store * nat) (create_schema, 0))) at 1.
  rewrite build_categories_retime.
  destruct (fold_left (build_category rt src) category_table_map
              (Done (create_schema, 0))) as [[s total_entries] |];
    [| reflexivity].
  cbn [and_then]. f_equal.
  destruct (name_index_js src) as [content |].
  - rewrite build_name_index_retime.
    set (s1 := build_name_index rt (dict_items (parse_object content)) s).
    change (with_meta ?m (retime ts s1)) with (retime ts (with_meta m s1)).
    rewrite timeless_retime. cbn [meta retime].
    rewrite !timeless_build_date. reflexivity.
  - change (with_meta ?m (retime ts s)) with (retime ts (with_meta m s)).
    rewrite timeless_retime. cbn [meta retime].
    rewrite !timeless_build_date. reflexivity.
Qed.

End ClockFacts.

Section RebuildClaims.
Import PyStr Json Build.

(** Two processes that print and iterate alike differ in their clocks
    only. *)
Lemma same_process_with_clock (rt1 rt2 : runtime) :
  markup_text rt1 = markup_text rt2 ->
  float_str rt1 = float_str rt2 ->
  float_zero rt1 = float_zero rt2 ->
  container_str rt1 = container_str rt2 ->
  real_text rt1 = real_text rt2 ->
  set_iter rt1 = set_iter rt2 ->
  rt2 = with_clock (now rt2) (timestamp_at rt2) rt1.
Proof.
  destruct rt1, rt2. unfold with_clock. cbn. intros -> -> -> -> -> ->.
  reflexivity.
Qed.

(** The counts the resolver prints do not look at [_meta] nor at an older
    log. *)
Lemma resolve_report_frame (c : Compendium.t) (grants : list Grant.row)
    (stat_additions : list StatAdd.row) (modifies : list Modify.row)
    (meta1 meta2 : list (string * string)) (log1 log2 : list Log.row)
    (csv : option (list string)) :
  (Resolve.main c
     {| GrantsDb.grants := grants;
        GrantsDb.stat_additions := stat_additions;
        GrantsDb.modifies := modifies;
        GrantsDb.meta := meta1;
        GrantsDb.id_resolution_log := log1 |} csv).2
  = (Resolve.main c
       {| GrantsDb.grants := grants;
          GrantsDb.stat_additions := stat_additions;
          GrantsDb.modifies := modifies;
          GrantsDb.meta := meta2;
          GrantsDb.id_resolution_log := log2 |} csv).2.
Proof.
  unfold Resolve.main.
  set (db1 := {| GrantsDb.grants := grants; GrantsDb.meta := meta1 |}).
  set (db2 := {| GrantsDb.grants := grants; GrantsDb.meta := meta2 |}).
  change (Resolve.load_env c db2 csv) with (Resolve.load_env c db1 csv).
  change (Resolve.collect_id_info db2) with (Resolve.collect_id_info db1).
  change (GrantsDb.grants db2) with (GrantsDb.grants db1).
  change (GrantsDb.stat_additions db2) with (GrantsDb.stat_additions db1).
  change (GrantsDb.modifies db2) with (GrantsDb.modifies db1).
  destruct (Resolve.resolve_all _ _) as [log_rows cache0].
  destruct (Resolve.update_grants _ _ _) as [[grants' cache1] n1].
  destruct (Resolve.update_stat_additions _ _ _) as [[stats' cache2] n2].
  destruct (Resolve.update_modifies _ _ _) as [[mods' cache3] n3].
  reflexivity.
Qed.

(** The extractor starts from an empty file whatever was there, and the
    time it records goes to [_meta] only. *)
Lemma extract_main_frame (t1 t2 : string) (root : Extract.element)
    (old1 old2 : option GrantsDb.t) :
  exists grants stat_additions modifies meta1 meta2 log,
    (Extract.main t1 root old1).1
    = {| GrantsDb.grants := grants;
         GrantsDb.stat_additions := stat_additions;
         GrantsDb.modifies := modifies;
         GrantsDb.meta := meta1;
         GrantsDb.id_resolution_log := log |}
    /\ (Extract.main t2 root old2).1
       = {| GrantsDb.grants := grants;
            GrantsDb.stat_additions := stat_additions;
            GrantsDb.modifies := modifies;
            GrantsDb.meta := meta2;
            GrantsDb.id_resolution_log := log |}.
Proof.
  unfold Extract.main.
  destruct (fold_left _ (Extract.findall "RulesElement" root) _)
    as [[d [[g s] m]] n].
  cbn [fst]. do 6 eexists. split; reflexivity.
Qed.




End RebuildClaims.

(* ===================================================================== *)
(** * More on the identity resolver *)
(* ===================================================================== *)

Section DerivationFacts.
Import PyStr Resolve.

Lemma digits_no_char (c : ascii) (num : string) :
  is_digit c = false -> all_chars is_digit num = true ->
  rfind_char c num = None.
Proof.
  intros Hc. induction num as [| d num IH]; [reflexivity |].
  cbn [all_chars rfind_char]. intros H. apply andb_true_iff in H.
  destruct H as [Hd Hnum]. rewrite (IH Hnum).
  destruct (Ascii.eqb_spec c d) as [-> | _]; [congruence | reflexivity].
Qed.

(** The last occurrence of a character that is not in [b]. *)
Lemma rfind_char_append (c : ascii) (a b : string) :
  rfind_char c b = None ->
  rfind_char c (a ++ String c b) = Some (String.length a).
Proof.
  intros Hb. induction a as [| x a IH].
  - rewrite append_nil. cbn [rfind_char]. rewrite Hb, Ascii.eqb_refl.
    reflexivity.
  - rewrite append_cons. cbn [rfind_char String.length]. rewrite IH.
    reflexivity.
Qed.

Lemma rsplit1_append (c : ascii) (a b : string) :
  rfind_char c b = None ->
  rsplit1 c (a ++ String c b) = [a; b].
Proof.
  intros Hb. unfold rsplit1. rewrite (rfind_char_append c a b Hb).
  rewrite take_append.
  change (S (String.length a)) with (String.length (String c a)).
  replace (String.length (String c a))
    with (String.length (a ++ String c EmptyString))
    by (rewrite length_append; cbn [String.length]; lia).
  replace (a ++ String c b) with ((a ++ String c EmptyString) ++ b)
    by (rewrite append_assoc; reflexivity).
  rewrite drop_append. reflexivity.
Qed.

Lemma startswith_append (p r : string) : startswith p (p ++ r) = true.
Proof.
  unfold startswith. induction p as [| a p IH]; [destruct r; reflexivity |].
  rewrite append_cons. cbn [String.prefix].
  destruct (Ascii.ascii_dec a a); [exact IH | congruence].
Qed.

Lemma contains_prefix (p r : string) : contains p (p ++ r) = true.
Proof.
  unfold contains.
  assert (H : find p (p ++ r) = Some 0).
  { destruct (p ++ r) eqn:E; cbn [find]; rewrite <- E, startswith_append;
      reflexivity. }
  rewrite H. reflexivity.
Qed.

Lemma replace_first_prefix (old new r : string) :
  replace_first old new (old ++ r) = new ++ r.
Proof.
  destruct (old ++ r) eqn:E; cbn [replace_first]; rewrite <- E,
    startswith_append, drop_append; reflexivity.
Qed.

(** X1.  [xml_to_compendium_id] gives either a candidate id with its table
    and no reason, or no id, no table and a reason that is not empty, never
    a mix.  A candidate id is the prefix [TYPE_MAP] holds for the type tag
    (what stands between the first [ID_FMP_] and the last underscore)
    followed by the digits after that underscore, and the table is the one
    [TYPE_MAP] holds for the tag. *)
Theorem derived_id_shape (x : option string) :
  (exists s tag num table prefix,
     x = Some s
     /\ contains "ID_FMP_" s = true
     /\ rsplit1 "_" (replace_first "ID_FMP_" "" s) = [tag; num]
     /\ isdigit num = true
     /\ assoc tag TYPE_MAP = Some (Some (table, prefix))
     /\ xml_to_compendium_id x = (Some (prefix ++ num), Some table, None))
  \/ (exists reason,
        xml_to_compendium_id x = (None, None, Some reason)
        /\ nonempty reason = true).
Proof.
  unfold xml_to_compendium_id.
  destruct x as [x |]; [| right; eexists; split; reflexivity].
  destruct (negb (nonempty x)); [right; eexists; split; reflexivity |].
  destruct (contains "ID_FMP_" x) eqn:Hfmp; cbn [negb];
    [| right; eexists; split; reflexivity].
  destruct (rsplit1 "_" _) as [| type_part [| num_part [| ? ?]]] eqn:Hsplit;
    try (right; eexists; split; reflexivity).
  destruct (isdigit num_part) eqn:Hnum; cbn [negb];
    [| right; eexists; split; reflexivity].
  destruct (assoc type_part TYPE_MAP) as [[[tb pf] |] |] eqn:Hentry;
    try (right; eexists; split; reflexivity).
  left. exists x, type_part, num_part, tb, pf. repeat split; auto.
Qed.

(** X2.  A reference [ID_FMP_<tag>_<digits>] whose tag has a table in
    [TYPE_MAP] derives the id made of the tag's prefix and the digits, for
    the tag's table; the tag may itself hold underscores.  With a tag that
    [TYPE_MAP] lacks, or lists without a table, the reference is unmappable
    with the reason naming the tag. *)
Theorem well_formed_reference_derives (tag num : string) :
  isdigit num = true ->
  xml_to_compendium_id (Some ("ID_FMP_" ++ tag ++ "_" ++ num))
  = match assoc tag TYPE_MAP with
    | Some (Some (table, prefix)) => (Some (prefix ++ num), Some table, None)
    | _ => (None, None, Some ("unknown type (" ++ tag ++ ")"))
    end.
Proof.
  intros Hnum. unfold xml_to_compendium_id.
  change (nonempty ("ID_FMP_" ++ tag ++ "_" ++ num)) with true.
  rewrite contains_prefix, replace_first_prefix. cbn [negb].
  rewrite append_nil.
  change (tag ++ "_" ++ num) with (tag ++ String "_" num).
  rewrite rsplit1_append.
  - rewrite Hnum. cbn [negb]. reflexivity.
  - apply digits_no_char; [reflexivity |].
    destruct num; [discriminate | exact Hnum].
Qed.

Lemma well_formed_reference_derives_witness :
  xml_to_compendium_id (Some ("ID_FMP_" ++ "MAGIC_ITEM" ++ "_" ++ "77"))
  = match assoc "MAGIC_ITEM" TYPE_MAP with
    | Some (Some (table, prefix)) => (Some (prefix ++ "77"), Some table, None)
    | _ => (None, None, Some ("unknown type (" ++ "MAGIC_ITEM" ++ ")"))
    end.
Proof. exact (well_formed_reference_derives "MAGIC_ITEM" "77" eq_refl). Defined.

End DerivationFacts.

Section IdInfoFacts.
Import PyStr Resolve.

Lemma assoc_bump (f : counts -> counts) (k : string)
    (d : list (string * counts)) (x : string) :
  assoc x (bump f k d)
  = if String.eqb x k then Some (f (default (0, 0, 0, 0) (assoc k d)))
    else assoc x d.
Proof.
  induction d as [| [k' c] d IH]; cbn [bump assoc default].
  - destruct (String.eqb x k); reflexivity.
  - destruct (String.eqb_spec k k') as [<- | Hkk']; cbn [assoc default].
    + destruct (String.eqb x k); reflexivity.
    + rewrite IH. destruct (String.eqb_spec x k') as [-> | Hxk'].
      * destruct (String.eqb_spec k' k) as [-> | _]; [congruence | reflexivity].
      * reflexivity.
Qed.

Lemma keys_bump (f : counts -> counts) (k : string)
    (d : list (string * counts)) :
  map fst (bump f k d)
  = if existsb (String.eqb k) (map fst d) then map fst d
    else app (map fst d) [k].
Proof.
  induction d as [| [k' c] d IH]; cbn [bump map fst existsb]; [reflexivity |].
  destruct (String.eqb k k'); cbn [orb map fst]; [reflexivity |].
  rewrite IH. destruct (existsb (String.eqb k) (map fst d)); reflexivity.
Qed.

Lemma existsb_eqb_In (k : string) (l : list string) :
  existsb (String.eqb k) l = true <-> In k l.
Proof.
  rewrite existsb_exists. split.
  - intros (y & Hy & E). apply String.eqb_eq in E. subst. exact Hy.
  - intros H. exists k. split; [exact H | apply String.eqb_refl].
Qed.

Lemma NoDup_keys_bump (f : counts -> counts) (k : string)
    (d : list (string * counts)) :
  NoDup (map fst d) -> NoDup (map fst (bump f k d)).
Proof.
  intros Hd. rewrite keys_bump.
  destruct (existsb (String.eqb k) (map fst d)) eqn:E; [exact Hd |].
  apply NoDup_app. split; [exact Hd |]. split; [| apply NoDup_singleton].
  intros x Hx Hk. apply list_elem_of_In in Hx, Hk. destruct Hk as [<- | []].
  apply existsb_eqb_In in Hx. congruence.
Qed.

Lemma total_zero (c : counts) : total c = 0 -> c = (0, 0, 0, 0).
Proof.
  destruct c as [[[g a] s] m]. cbn [total]. intros H.
  assert (g = 0 /\ a = 0 /\ s = 0 /\ m = 0) as (-> & -> & -> & ->) by lia.
  reflexivity.
Qed.

(** One [id_info[k] = f(id_info[k])], seen from a reference [x]: its entry is
    there exactly when it was counted. *)
Lemma bump_if_entry (f : counts -> counts) (k : string)
    (d : list (string * counts)) (x : string) (c : counts) :
  nonempty x = true ->
  (forall c', total (f c') = S (total c')) ->
  assoc x d = match total c with 0 => None | S _ => Some c end ->
  assoc x (bump_if f k d)
  = match total (if String.eqb x k then f c else c) with
    | 0 => None
    | S _ => Some (if String.eqb x k then f c else c)
    end.
Proof.
  intros Hx Hf Hd. unfold bump_if. destruct (nonempty k) eqn:Hk.
  - rewrite assoc_bump. destruct (String.eqb_spec x k) as [-> | Hxk].
    + rewrite Hf, Hd. f_equal. f_equal.
      destruct (total c) eqn:Hc; [| reflexivity].
      cbn [default]. symmetry. apply total_zero. exact Hc.
    + exact Hd.
  - destruct (String.eqb_spec x k) as [-> | Hxk]; [congruence | exact Hd].
Qed.

Lemma id_info_grants (x : string) (l : list Grant.row)
    (d : list (string * counts)) (g a s m : nat) :
  nonempty x = true ->
  assoc x d = match total (g, a, s, m) with
              | 0 => None | S _ => Some (g, a, s, m) end ->
  assoc x
    (fold_left
       (fun d r =>
          bump_if (fun '(g, a, s, m) => (g, a + 1, s, m))
            (Grant.granted_xml_id r)
            (bump_if (fun '(g, a, s, m) => (g + 1, a, s, m))
               (Grant.granter_xml_id r) d)) l d)
  = match
      total
        (g + length (List.filter
                       (fun r => String.eqb (Grant.granter_xml_id r) x) l),
         a + length (List.filter
                       (fun r => String.eqb (Grant.granted_xml_id r) x) l),
         s, m)
    with
    | 0 => None
    | S _ =>
        Some
          (g + length (List.filter
                         (fun r => String.eqb (Grant.granter_xml_id r) x) l),
           a + length (List.filter
                         (fun r => String.eqb (Grant.granted_xml_id r) x) l),
           s, m)
    end.
Proof.
  intros Hx. revert d g a.
  induction l as [| r l IH]; intros d g a Hd.
  - cbn [fold_left List.filter length]. rewrite !Nat.add_0_r. exact Hd.
  - cbn [fold_left List.filter].
    pose proof (bump_if_entry (fun '(g, a, s, m) => (g + 1, a, s, m))
                  (Grant.granter_xml_id r) d x (g, a, s, m) Hx) as H1.
    specialize (H1 ltac:(intros [[[? ?] ?] ?]; cbn [total]; lia) Hd).
    rewrite (String.eqb_sym (Grant.granter_xml_id r) x).
    rewrite (String.eqb_sym (Grant.granted_xml_id r) x).
    destruct (String.eqb x (Grant.granter_xml_id r)).
    + pose proof (bump_if_entry (fun '(g, a, s, m) => (g, a + 1, s, m))
                    (Grant.granted_xml_id r)
                    (bump_if (fun '(g, a, s, m) => (g + 1, a, s, m))
                       (Grant.granter_xml_id r) d)
                    x (g + 1, a, s, m) Hx) as H2.
      specialize (H2 ltac:(intros [[[? ?] ?] ?]; cbn [total]; lia) H1).
      destruct (String.eqb x (Grant.granted_xml_id r)).
      * rewrite (IH _ (g + 1) (a + 1) H2). cbn [length].
        rewrite <- !Nat.add_assoc. reflexivity.
      * rewrite (IH _ (g + 1) a H2). cbn [length].
        rewrite <- !Nat.add_assoc. reflexivity.
    + pose proof (bump_if_entry (fun '(g, a, s, m) => (g, a + 1, s, m))
                    (Grant.granted_xml_id r)
                    (bump_if (fun '(g, a, s, m) => (g + 1, a, s, m))
                       (Grant.granter_xml_id r) d)
                    x (g, a, s, m) Hx) as H2.
      specialize (H2 ltac:(intros [[[? ?] ?] ?]; cbn [total]; lia) H1).
      destruct (String.eqb x (Grant.granted_xml_id r)).
      * rewrite (IH _ g (a + 1) H2). cbn [length].
        rewrite <- !Nat.add_assoc. reflexivity.
      * rewrite (IH _ g a H2). reflexivity.
Qed.

Lemma id_info_stat_additions (x : string) (l : list StatAdd.row)
    (d : list (string * counts)) (g a s m : nat) :
  nonempty x = true ->
  assoc x d = match total (g, a, s, m) with
              | 0 => None | S _ => Some (g, a, s, m) end ->
  assoc x
    (fold_left
       (fun d r =>
          bump_if (fun '(g, a, s, m) => (g, a, s + 1, m))
            (StatAdd.granter_xml_id r) d) l d)
  = match
      total
        (g, a,
         s + length (List.filter
                       (fun r => String.eqb (StatAdd.granter_xml_id r) x) l),
         m)
    with
    | 0 => None
    | S _ =>
        Some
          (g, a,
           s + length (List.filter
                         (fun r => String.eqb (StatAdd.granter_xml_id r) x) l),
           m)
    end.
Proof.
  intros Hx. revert d s.
  induction l as [| r l IH]; intros d s Hd.
  - cbn [fold_left List.filter length]. rewrite !Nat.add_0_r. exact Hd.
  - cbn [fold_left List.filter].
    pose proof (bump_if_entry (fun '(g, a, s, m) => (g, a, s + 1, m))
                  (StatAdd.granter_xml_id r) d x (g, a, s, m) Hx) as H1.
    specialize (H1 ltac:(intros [[[? ?] ?] ?]; cbn [total]; lia) Hd).
    rewrite (String.eqb_sym (StatAdd.granter_xml_id r) x).
    destruct (String.eqb x (StatAdd.granter_xml_id r)).
    + rewrite (IH _ (s + 1) H1). cbn [length].
      rewrite <- !Nat.add_assoc. reflexivity.
    + rewrite (IH _ s H1). reflexivity.
Qed.

Lemma id_info_modifies (x : string) (l : list Modify.row)
    (d : list (string * counts)) (g a s m : nat) :
  nonempty x = true ->
  assoc x d = match total (g, a, s, m) with
              | 0 => None | S _ => Some (g, a, s, m) end ->
  assoc x
    (fold_left
       (fun d r =>
          bump_if (fun '(g, a, s, m) => (g, a, s, m + 1))
            (Modify.granter_xml_id r) d) l d)
  = match
      total
        (g, a, s,
         m + length (List.filter
                       (fun r => String.eqb (Modify.granter_xml_id r) x) l))
    with
    | 0 => None
    | S _ =>
        Some
          (g, a, s,
           m + length (List.filter
                         (fun r => String.eqb (Modify.granter_xml_id r) x) l))
    end.
Proof.
  intros Hx. revert d m.
  induction l as [| r l IH]; intros d m Hd.
  - cbn [fold_left List.filter length]. rewrite !Nat.add_0_r. exact Hd.
  - cbn [fold_left List.filter].
    pose proof (bump_if_entry (fun '(g, a, s, m) => (g, a, s, m + 1))
                  (Modify.granter_xml_id r) d x (g, a, s, m) Hx) as H1.
    specialize (H1 ltac:(intros [[[? ?] ?] ?]; cbn [total]; lia) Hd).
    rewrite (String.eqb_sym (Modify.granter_xml_id r) x).
    destruct (String.eqb x (Modify.granter_xml_id r)).
    + rewrite (IH _ (m + 1) H1). cbn [length].
      rewrite <- !Nat.add_assoc. reflexivity.
    + rewrite (IH _ m H1). reflexivity.
Qed.

(** [id_info] holds, for a reference that is not empty, its occurrences,
    and no entry when the tables never name it. *)
Lemma collect_id_info_entry (db : GrantsDb.t) (x : string) :
  nonempty x = true ->
  assoc x (collect_id_info db)
  = match total (occurrences db x) with
    | 0 => None
    | S _ => Some (occurrences db x)
    end.
Proof.
  intros Hx. unfold collect_id_info, occurrences.
  rewrite (id_info_modifies x _ _
             (0 + length (List.filter
                            (fun r => String.eqb (Grant.granter_xml_id r) x)
                            (GrantsDb.grants db)))
             (0 + length (List.filter
                            (fun r => String.eqb (Grant.granted_xml_id r) x)
                            (GrantsDb.grants db)))
             (0 + length (List.filter
                            (fun r => String.eqb (StatAdd.granter_xml_id r) x)
                            (GrantsDb.stat_additions db)))
             0 Hx).
  - reflexivity.
  - apply (id_info_stat_additions x _ _ _ _ 0 0 Hx).
    apply (id_info_grants x _ [] 0 0 0 0 Hx). reflexivity.
Qed.

Lemma fold_left_keeps {A B : Type} (P : A -> Prop) (f : A -> B -> A) :
  (forall a b, P a -> P (f a b)) ->
  forall l a, P a -> P (fold_left f l a).
Proof.
  intros Hf l. induction l as [| b l IH]; intros a Ha; [exact Ha |].
  cbn [fold_left]. apply IH, Hf, Ha.
Qed.

(** The keys of [id_info] are distinct and none is empty. *)
Lemma bump_if_keys (f : counts -> counts) (k : string)
    (d : list (string * counts)) :
  NoDup (map fst d) /\ Forall (fun x => nonempty x = true) (map fst d) ->
  NoDup (map fst (bump_if f k d))
  /\ Forall (fun x => nonempty x = true) (map fst (bump_if f k d)).
Proof.
  intros [Hn Hf]. unfold bump_if. destruct (nonempty k) eqn:Hk; [| auto].
  split; [apply NoDup_keys_bump, Hn |].
  rewrite keys_bump. destruct (existsb _ _); [exact Hf |].
  apply Forall_app. split; [exact Hf | repeat constructor; exact Hk].
Qed.

Lemma collect_id_info_keys (db : GrantsDb.t) :
  NoDup (map fst (collect_id_info db))
  /\ Forall (fun x => nonempty x = true) (map fst (collect_id_info db)).
Proof.
  unfold collect_id_info.
  apply (fold_left_keeps
           (fun d => NoDup (map fst d)
                     /\ Forall (fun x => nonempty x = true) (map fst d))).
  { intros d r. apply bump_if_keys. }
  apply (fold_left_keeps
           (fun d => NoDup (map fst d)
                     /\ Forall (fun x => nonempty x = true) (map fst d))).
  { intros d r. apply bump_if_keys. }
  apply (fold_left_keeps
           (fun d => NoDup (map fst d)
                     /\ Forall (fun x => nonempty x = true) (map fst d))).
  { intros d r H. apply bump_if_keys, bump_if_keys, H. }
  split; constructor.
Qed.

Lemma assoc_None {V : Type} (x : string) (d : list (string * V)) :
  assoc x d = None <-> ~ In x (map fst d).
Proof.
  induction d as [| [k v] d IH]; cbn [assoc map fst In]; [tauto |].
  destruct (String.eqb_spec x k) as [-> | Hxk].
  - split; [discriminate | tauto].
  - rewrite IH. split; [intros H [E | Hin]; [congruence | tauto] | tauto].
Qed.

Lemma assoc_In {V : Type} (x : string) (v : V) (d : list (string * V)) :
  NoDup (map fst d) -> In (x, v) d -> assoc x d = Some v.
Proof.
  induction d as [| [k w] d IH]; cbn [assoc map fst In]; [tauto |].
  intros Hn. apply NoDup_cons in Hn. destruct Hn as [Hk Hn].
  intros [[= -> ->] | Hin].
  - rewrite String.eqb_refl. reflexivity.
  - destruct (String.eqb_spec x k) as [-> | _]; [| auto].
    exfalso. apply Hk. apply list_elem_of_In.
    apply (in_map fst) in Hin. exact Hin.
Qed.

(** The counts a row of the log shows are those of its entry of
    [id_info]. *)
Lemma log_entry_counts (E : env) (k : string) (g a s m : nat) :
  Log.as_granter_in_grants (log_entry E k (g, a, s, m)).1 = g
  /\ Log.as_granted_in_grants (log_entry E k (g, a, s, m)).1 = a
  /\ Log.in_statadd_count (log_entry E k (g, a, s, m)).1 = s
  /\ Log.in_modify_count (log_entry E k (g, a, s, m)).1 = m
  /\ Log.occurrence_count (log_entry E k (g, a, s, m)).1 = g + a + s + m.
Proof.
  unfold log_entry.
  destruct (xml_to_compendium_id _) as [[comp_id table] reason].
  repeat case_match; repeat split; reflexivity.
Qed.

Lemma main_log_keys (c : Compendium.t) (db : GrantsDb.t)
    (csv : option (list string)) :
  map Log.xml_id (GrantsDb.id_resolution_log (main c db csv).1)
  = map fst (collect_id_info db).
Proof.
  rewrite main_log, map_map. apply map_ext. intros [k cnt].
  apply log_entry_xml_id.
Qed.


(** X4.  The counts of every row of the log are the numbers of rows that
    name its reference: as granter and as granted in [grants], as granter in
    [stat_additions] and in [modifies]; [occurrence_count] is their sum and
    is never zero. *)
Theorem log_counts_are_occurrences (c : Compendium.t) (db : GrantsDb.t)
    (csv : option (list string)) :
  Forall
    (fun r =>
       (Log.as_granter_in_grants r, Log.as_granted_in_grants r,
        Log.in_statadd_count r, Log.in_modify_count r)
       = occurrences db (Log.xml_id r)
       /\ Log.occurrence_count r = total (occurrences db (Log.xml_id r))
       /\ 0 < Log.occurrence_count r)
    (GrantsDb.id_resolution_log (main c db csv).1).
Proof.
  rewrite main_log. apply Forall_forall. intros r Hr.
  apply list_elem_of_In, in_map_iff in Hr.
  destruct Hr as ([k [[[g a] s] m]] & <- & Hin). cbn [fst snd].
  destruct (collect_id_info_keys db) as [Hn Hf].
  assert (Hk : nonempty k = true).
  { rewrite Forall_forall in Hf. apply Hf, list_elem_of_In.
    apply (in_map fst) in Hin. exact Hin. }
  pose proof (assoc_In k _ _ Hn Hin) as Ha.
  rewrite (collect_id_info_entry db k Hk) in Ha.
  destruct (log_entry_counts (load_env c db csv) k g a s m)
    as (-> & -> & -> & -> & ->).
  rewrite log_entry_xml_id.
  destruct (total (occurrences db k)) eqn:Ht; [discriminate |].
  assert (Ho : occurrences db k = (g, a, s, m)) by congruence.
  rewrite Ho in Ht |- *. cbn [total] in Ht |- *.
  repeat split; lia.
Qed.

End IdInfoFacts.

Section LogShapeFacts.
Import PyStr Resolve.

(** What the loop body writes, case by case. *)
Lemma log_entry_shape (E : env) (k : string) (cnt : counts) :
  let r := (log_entry E k cnt).1 in
  (Log.status r = "unmappable"
   /\ Log.attempted_compendium_id r = None
   /\ Log.resolved_compendium_id r = None
   /\ Log.compendium_table r = None
   /\ Log.resolution_method r = None
   /\ exists reason,
        Log.unmappable_reason r = Some reason /\ nonempty reason = true)
  \/ (exists id table,
        Log.status r = "matched"
        /\ Log.attempted_compendium_id r = Some id
        /\ Log.resolved_compendium_id r = Some id
        /\ Log.compendium_table r = Some table
        /\ Log.resolution_method r = Some "id"
        /\ Log.unmappable_reason r = None)
  \/ (exists attempted id,
        Log.status r = "matched_manual"
        /\ Log.attempted_compendium_id r = Some attempted
        /\ Log.resolved_compendium_id r = Some id
        /\ nonempty id = true
        /\ Log.compendium_table r = None
        /\ Log.resolution_method r = Some "manual"
        /\ Log.unmappable_reason r = None)
  \/ (exists attempted id,
        Log.status r = "matched_name_search"
        /\ Log.attempted_compendium_id r = Some attempted
        /\ Log.resolved_compendium_id r = Some id
        /\ nonempty id = true
        /\ Log.compendium_table r = None
        /\ Log.resolution_method r = Some "name_search"
        /\ Log.unmappable_reason r = None)
  \/ (exists attempted table,
        Log.status r = "not_found"
        /\ Log.attempted_compendium_id r = Some attempted
        /\ Log.resolved_compendium_id r = None
        /\ Log.compendium_table r = Some table
        /\ Log.resolution_method r = None
        /\ Log.unmappable_reason r = None).
Proof.
  cbv zeta. unfold log_entry. destruct cnt as [[[g a] s] m].
  destruct (xml_to_compendium_id_cases (Some k))
    as [(comp_id & table & Hx) | (reason & Hx & Hreason)].
  - pose proof (xml_to_compendium_id_mapped _ _ _ Hx) as (_ & Htable & _).
    rewrite Hx. cbn [truthy].
    destruct (direct_hit E (Some comp_id) (Some table)).
    { right; left. exists comp_id, table. repeat split; reflexivity. }
    destruct (manual_mappings E !! k) as [manual_id |] eqn:Hmanual.
    + cbn [truthy]. destruct (nonempty manual_id) eqn:Hm.
      { right; right; left. exists comp_id, manual_id.
        repeat split; auto. }
      cbn [truthy].
      destruct (if truthy (xml_id_to_name E !! k) then _ else None)
        as [found |] eqn:Hfound; cbn [truthy].
      * destruct (nonempty found) eqn:Hf.
        { right; right; right; left. exists comp_id, found.
          repeat split; auto. }
        right; right; right; right. exists comp_id, table. rewrite Htable.
        repeat split; reflexivity.
      * right; right; right; right. exists comp_id, table. rewrite Htable.
        repeat split; reflexivity.
    + cbn [truthy].
      destruct (if truthy (xml_id_to_name E !! k) then _ else None)
        as [found |] eqn:Hfound; cbn [truthy].
      * destruct (nonempty found) eqn:Hf.
        { right; right; right; left. exists comp_id, found.
          repeat split; auto. }
        right; right; right; right. exists comp_id, table. rewrite Htable.
        repeat split; reflexivity.
      * right; right; right; right. exists comp_id, table. rewrite Htable.
        repeat split; reflexivity.
  - rewrite Hx. cbn [truthy]. rewrite Hreason.
    left. repeat split; try reflexivity. exists reason. split; auto.
Qed.

(** X5.  Every row of the log has one of five shapes.  An [unmappable] row
    has a reason and neither attempted id, table, method nor resolved id.  A
    [matched] row has the attempted id as its resolved id, the table, and
    method [id].  A [matched_manual] or [matched_name_search] row has an
    attempted id, a resolved id that is not empty, the method of its status,
    and no table.  A [not_found] row has an attempted id and a table, and
    neither resolved id nor method.  Only [unmappable] rows carry a
    reason. *)
Theorem log_rows_have_one_of_five_shapes (c : Compendium.t) (db : GrantsDb.t)
    (csv : option (list string)) :
  Forall
    (fun r =>
       (Log.status r = "unmappable"
        /\ Log.attempted_compendium_id r = None
        /\ Log.resolved_compendium_id r = None
        /\ Log.compendium_table r = None
        /\ Log.resolution_method r = None
        /\ exists reason,
             Log.unmappable_reason r = Some reason /\ nonempty reason = true)
       \/ (exists id table,
             Log.status r = "matched"
             /\ Log.attempted_compendium_id r = Some id
             /\ Log.resolved_compendium_id r = Some id
             /\ Log.compendium_table r = Some table
             /\ Log.resolution_method r = Some "id"
             /\ Log.unmappable_reason r = None)
       \/ (exists attempted id,
             Log.status r = "matched_manual"
             /\ Log.attempted_compendium_id r = Some attempted
             /\ Log.resolved_compendium_id r = Some id
             /\ nonempty id = true
             /\ Log.compendium_table r = None
             /\ Log.resolution_method r = Some "manual"
             /\ Log.unmappable_reason r = None)
       \/ (exists attempted id,
             Log.status r = "matched_name_search"
             /\ Log.attempted_compendium_id r = Some attempted
             /\ Log.resolved_compendium_id r = Some id
             /\ nonempty id = true
             /\ Log.compendium_table r = None
             /\ Log.resolution_method r = Some "name_search"
             /\ Log.unmappable_reason r = None)
       \/ (exists attempted table,
             Log.status r = "not_found"
             /\ Log.attempted_compendium_id r = Some attempted
             /\ Log.resolved_compendium_id r = None
             /\ Log.compendium_table r = Some table
             /\ Log.resolution_method r = None
             /\ Log.unmappable_reason r = None))
    (GrantsDb.id_resolution_log (main c db csv).1).
Proof.
  rewrite main_log. apply Forall_forall. intros r Hr.
  apply list_elem_of_In, in_map_iff in Hr.
  destruct Hr as ([k cnt] & <- & _). cbn [fst snd].
  exact (log_entry_shape (load_env c db csv) k cnt).
Qed.

Lemma log_entry_status (E : env) (k : string) (cnt : counts) :
  In (Log.status (log_entry E k cnt).1)
    ["matched"; "matched_name_search"; "matched_manual"; "not_found";
     "unmappable"].
Proof.
  destruct (log_entry_shape E k cnt)
    as [(H & _) | [(? & ? & H & _) | [(? & ? & H & _)
        | [(? & ? & H & _) | (? & ? & H & _)]]]];
    rewrite H; cbn [In]; tauto.
Qed.

Lemma count_status_partition (l : list Log.row) :
  Forall
    (fun r =>
       In (Log.status r)
         ["matched"; "matched_name_search"; "matched_manual"; "not_found";
          "unmappable"]) l ->
  count_status "matched" l + count_status "matched_name_search" l
  + count_status "matched_manual" l + count_status "not_found" l
  + count_status "unmappable" l = length l.
Proof.
  unfold count_status. induction 1 as [| r l Hr _ IH]; [reflexivity |].
  cbn [List.filter length In] in *.
  destruct Hr as [<- | [<- | [<- | [<- | [<- | []]]]]];
    cbn [String.eqb Ascii.eqb Bool.eqb length]; lia.
Qed.

Lemma main_report (c : Compendium.t) (db : GrantsDb.t)
    (csv : option (list string)) :
  let log := GrantsDb.id_resolution_log (main c db csv).1 in
  let report := (main c db csv).2 in
  matched report = count_status "matched" log
  /\ matched_name report = count_status "matched_name_search" log
  /\ matched_manual report = count_status "matched_manual" log
  /\ not_found report = count_status "not_found" log
  /\ unmappable report = count_status "unmappable" log
  /\ total_grants report = length (GrantsDb.grants db).
Proof.
  cbv zeta. unfold main.
  destruct (resolve_all _ _) as [log_rows ch].
  destruct (update_grants _ _ _) as [[g ch1] n1].
  destruct (update_stat_additions _ _ _) as [[sa ch2] n2].
  destruct (update_modifies _ _ _) as [[md ch3] n3].
  repeat split; reflexivity.
Qed.


End LogShapeFacts.

Section ResolvedIdFacts.
Import PyStr Resolve.

Lemma elem_of_union_fold (f : string -> gset string) (l : list string)
    (a : gset string) (x : string) :
  x ∈ fold_left (fun acc t => acc ∪ f t) l a
  <-> x ∈ a \/ exists t, In t l /\ x ∈ f t.
Proof.
  revert a. induction l as [| t l IH]; intros a; cbn [fold_left In].
  - split; [auto | intros [H | (t & [] & _)]; exact H].
  - rewrite IH, elem_of_union. split.
    + intros [[H | H] | (t' & Hin & H)]; eauto 6.
    + intros [H | (t' & [<- | Hin] & H)]; eauto 6.
Qed.

(** An id [main] counts as valid is the id of a row of one of the tables it
    reads. *)
Lemma all_valid_ids_rows (c : Compendium.t) (db : GrantsDb.t)
    (csv : option (list string)) (x : string) :
  x ∈ all_valid_ids (load_env c db csv)
  <-> exists t e,
        In t id_tables /\ In e (table_rows c t) /\ Compendium.id e = x.
Proof.
  change (all_valid_ids (load_env c db csv))
    with (load_all_valid_ids (load_valid_ids c)).
  unfold load_all_valid_ids. rewrite elem_of_union_fold. split.
  - intros [H | (t & Hin & H)]; [apply elem_of_empty in H; destruct H |].
    rewrite (ids_of_loaded c t Hin) in H. unfold get_valid_ids in H.
    apply elem_of_list_to_set, list_elem_of_In, in_map_iff in H.
    destruct H as (e & He & Hin'). exists t, e. auto.
  - intros (t & e & Hin & He & <-). right. exists t. split; [exact Hin |].
    rewrite (ids_of_loaded c t Hin). unfold get_valid_ids.
    apply elem_of_list_to_set, list_elem_of_In, in_map. exact He.
Qed.

(** The override table only holds targets that are valid ids. *)
Lemma load_manual_mappings_valid (a : gset string) (csv : option (list string))
    (x v : string) :
  load_manual_mappings a csv !! x = Some v -> v ∈ a.
Proof.
  unfold load_manual_mappings.
  assert (H : forall l (m : gmap string string),
            (forall x v, m !! x = Some v -> v ∈ a) ->
            forall x v,
              fold_left
                (fun m line =>
                   let line := strip line in
                   if negb (nonempty line) || startswith "xml_id" line then m
                   else match split_comma1 line with
                        | [a0; b] =>
                            let xml_id := strip a0 in
                            let comp_id := strip b in
                            if nonempty xml_id && nonempty comp_id
                               && bool_decide (comp_id ∈ a)
                            then <[xml_id := comp_id]> m
                            else m
                        | _ => m
                        end) l m !! x = Some v -> v ∈ a).
  { intros l. induction l as [| line l IH]; intros m Hm; [exact Hm |].
    cbn [fold_left]. apply IH. cbv zeta.
    destruct (negb (nonempty (strip line)) || startswith "xml_id" (strip line));
      [exact Hm |].
    destruct (split_comma1 (strip line)) as [| p1 [| p2 [| ? ?]]];
      try exact Hm.
    destruct (nonempty (strip p1) && nonempty (strip p2)) ; cbn [andb];
      [| exact Hm].
    destruct (bool_decide (strip p2 ∈ a)) eqn:Hb; [| exact Hm].
    apply bool_decide_eq_true in Hb.
    intros x' v'. rewrite lookup_insert. case_decide.
    - intros [= <-]. exact Hb.
    - apply Hm. }
  apply H. intros x' v'. rewrite lookup_empty. discriminate.
Qed.

Lemma first_some_In {A B : Type} (f : A -> option B) (l : list A) (y : B) :
  first_some f l = Some y -> exists x, In x l /\ f x = Some y.
Proof.
  induction l as [| x l IH]; cbn [first_some]; [discriminate |].
  destruct (f x) as [y' |] eqn:E.
  - intros [= <-]. exists x. split; [left; reflexivity | exact E].
  - intros H. destruct (IH H) as (x' & Hin & Hx'). exists x'. split;
      [right; exact Hin | exact Hx'].
Qed.

(** What the direct table search returns is a valid id with a prefix the
    type allows. *)
Lemma search_tables_by_name_sound (E : env) (name_key : string)
    (acceptable_prefixes : list string) (eid : string) :
  search_tables_by_name E name_key acceptable_prefixes = Some eid ->
  eid ∈ all_valid_ids E /\ has_prefix_in acceptable_prefixes eid = true.
Proof.
  unfold search_tables_by_name.
  destruct acceptable_prefixes as [| p ps]; [discriminate |].
  destruct (negb (nonempty name_key)); [discriminate |].
  revert eid.
  apply (fold_left_keeps
           (fun found : option string =>
              forall eid, found = Some eid ->
                eid ∈ all_valid_ids E /\ has_prefix_in (p :: ps) eid = true)).
  - intros found [prefix table] Hfound.
    destruct found as [eid' |]; [exact Hfound |].
    destruct (negb (mem prefix (p :: ps) || mem (prefix ++ "s") (p :: ps)));
      [discriminate |].
    destruct (negb (bool_decide (is_Some (valid_ids E !! table))));
      [discriminate |].
    intros eid Hfind. apply find_some in Hfind. destruct Hfind as [_ Hp].
    apply andb_true_iff in Hp. destruct Hp as [Hv Hpre].
    apply bool_decide_eq_true in Hv. auto.
  - discriminate.
Qed.

Lemma search_key_sound (E : env) (acceptable_prefixes : list string)
    (key eid : string) :
  search_key E acceptable_prefixes key = Some eid ->
  eid ∈ all_valid_ids E
  /\ (acceptable_prefixes <> [] ->
      has_prefix_in acceptable_prefixes eid = true).
Proof.
  unfold search_key.
  set (valid := List.filter (fun eid => bool_decide (eid ∈ all_valid_ids E))
                  (default [] (name_to_ids E !! key))).
  assert (Hvalid : forall x, In x valid -> x ∈ all_valid_ids E).
  { intros x Hx. apply filter_In in Hx. destruct Hx as [_ Hx].
    apply bool_decide_eq_true in Hx. exact Hx. }
  destruct valid as [| first rest] eqn:Ev.
  - destruct acceptable_prefixes as [| p ps]; [discriminate |].
    destruct (search_tables_by_name E key (p :: ps)) as [direct |] eqn:Hd;
      [| discriminate].
    destruct (nonempty direct); [| discriminate]. intros [= <-].
    destruct (search_tables_by_name_sound _ _ _ _ Hd). auto.
  - destruct acceptable_prefixes as [| p ps].
    + intros [= <-]. split; [apply Hvalid; left; reflexivity | congruence].
    + destruct (head (List.filter (has_prefix_in (p :: ps)) (first :: rest)))
        as [eid' |] eqn:Hh.
      * intros [= <-]. apply head_In in Hh. apply filter_In in Hh.
        destruct Hh as [Hin Hpre]. split; [apply Hvalid, Hin | auto].
      * destruct (search_tables_by_name E key (p :: ps)) as [direct |] eqn:Hd;
          [| discriminate].
        destruct (nonempty direct); [| discriminate]. intros [= <-].
        destruct (search_tables_by_name_sound _ _ _ _ Hd). auto.
Qed.

Lemma search_by_name_sound (E : env) (name type_hint : option string)
    (eid : string) :
  search_by_name E name type_hint = Some eid ->
  eid ∈ all_valid_ids E
  /\ (prefixes_of_hint type_hint <> [] ->
      has_prefix_in (prefixes_of_hint type_hint) eid = true).
Proof.
  unfold search_by_name. destruct name as [n |]; [| discriminate].
  destruct (negb (nonempty n) || negb (nonempty (strip n))); [discriminate |].
  intros H. apply first_some_In in H. destruct H as (key & _ & H).
  exact (search_key_sound _ _ _ _ H).
Qed.

(** Where the resolved id of a row comes from. *)
Lemma log_entry_resolved_origin (E : env) (k : string) (cnt : counts)
    (id : string) :
  Log.resolved_compendium_id (log_entry E k cnt).1 = Some id ->
  (exists table,
     xml_to_compendium_id (Some k) = (Some id, Some table, None)
     /\ direct_hit E (Some id) (Some table) = true
     /\ Log.status (log_entry E k cnt).1 = "matched"
     /\ Log.compendium_table (log_entry E k cnt).1 = Some table)
  \/ (manual_mappings E !! k = Some id
      /\ Log.status (log_entry E k cnt).1 = "matched_manual")
  \/ (exists comp_id table,
        xml_to_compendium_id (Some k) = (Some comp_id, Some table, None)
        /\ search_by_name E (xml_id_to_name E !! k)
             (type_hint_of (Some comp_id) k) = Some id
        /\ Log.status (log_entry E k cnt).1 = "matched_name_search").
Proof.
  unfold log_entry. destruct cnt as [[[g a] s] m].
  destruct (xml_to_compendium_id_cases (Some k))
    as [(comp_id & table & Hx) | (reason & Hx & Hreason)].
  - rewrite Hx. cbn [truthy].
    destruct (direct_hit E (Some comp_id) (Some table)) eqn:Hd.
    { cbn [fst Log.resolved_compendium_id]. intros [= <-]. left.
      exists table. repeat split; auto. }
    destruct (manual_mappings E !! k) as [manual_id |] eqn:Hmanual;
      cbn [truthy].
    + destruct (nonempty manual_id) eqn:Hm.
      { cbn [fst Log.resolved_compendium_id]. intros [= <-]. right; left.
        split; reflexivity. }
      destruct (truthy (xml_id_to_name E !! k));
        [| cbn [truthy fst Log.resolved_compendium_id]; discriminate].
      destruct (search_by_name E _ _) as [found |] eqn:Hfound; cbn [truthy];
        [| cbn [fst Log.resolved_compendium_id]; discriminate].
      destruct (nonempty found);
        cbn [fst Log.resolved_compendium_id]; [| discriminate].
      intros [= <-]. right; right. exists comp_id, table.
      repeat split; auto.
    + destruct (truthy (xml_id_to_name E !! k));
        [| cbn [truthy fst Log.resolved_compendium_id]; discriminate].
      destruct (search_by_name E _ _) as [found |] eqn:Hfound; cbn [truthy];
        [| cbn [fst Log.resolved_compendium_id]; discriminate].
      destruct (nonempty found);
        cbn [fst Log.resolved_compendium_id]; [| discriminate].
      intros [= <-]. right; right. exists comp_id, table.
      repeat split; auto.
  - rewrite Hx. cbn [truthy]. rewrite Hreason.
    cbn [fst Log.resolved_compendium_id]. discriminate.
Qed.

Lemma direct_hit_rows (c : Compendium.t) (db : GrantsDb.t)
    (csv : option (list string)) (k id table : string) :
  xml_to_compendium_id (Some k) = (Some id, Some table, None) ->
  direct_hit (load_env c db csv) (Some id) (Some table) = true ->
  In table id_tables
  /\ exists e, In e (table_rows c table) /\ Compendium.id e = id.
Proof.
  intros Hx Hd. rewrite (direct_hit_loaded c db csv k id table Hx) in Hd.
  apply bool_decide_eq_true, list_elem_of_In, in_map_iff in Hd.
  destruct Hd as (e & He & Hin).
  destruct (xml_to_compendium_id_mapped _ _ _ Hx) as (_ & _ & Ht).
  split; [exact Ht |]. exists e. auto.
Qed.

(** X7.  Every id the log gives as resolved is the id of a row of one of
    the category tables the resolver reads from the canonical store,
    whichever way it was found (derived id, override table, name search);
    the id of a [matched] row is in the very table the row names. *)
Theorem resolved_ids_are_in_the_store (c : Compendium.t) (db : GrantsDb.t)
    (csv : option (list string)) :
  Forall
    (fun r =>
       forall id, Log.resolved_compendium_id r = Some id ->
         (exists t e,
            In t id_tables /\ In e (table_rows c t) /\ Compendium.id e = id)
         /\ (Log.status r = "matched" ->
             exists t e,
               Log.compendium_table r = Some t
               /\ In e (table_rows c t) /\ Compendium.id e = id))
    (GrantsDb.id_resolution_log (main c db csv).1).
Proof.
  rewrite main_log. apply Forall_forall. intros r Hr.
  apply list_elem_of_In, in_map_iff in Hr.
  destruct Hr as ([k cnt] & <- & _). cbn [fst snd]. intros id Hid.
  destruct (log_entry_resolved_origin _ _ _ _ Hid)
    as [(table & Hx & Hd & Hs & Ht) | [(Hm & Hs)
        | (comp_id & table & Hx & Hn & Hs)]].
  - destruct (direct_hit_rows c db csv k id table Hx Hd) as (Hin & e & He & Hi).
    split; [exists table, e; auto |].
    intros _. exists table, e. auto.
  - split.
    + apply (all_valid_ids_rows c db csv).
      apply (load_manual_mappings_valid _ csv k). exact Hm.
    + rewrite Hs. discriminate.
  - split.
    + apply (all_valid_ids_rows c db csv).
      apply (search_by_name_sound _ _ _ _ Hn).
    + rewrite Hs. discriminate.
Qed.

(** X8.  An id found by name search has one of the prefixes the type tag of
    the reference allows, whenever the tag allows any: the prefixes
    [TYPE_GROUP_PREFIXES] lists for the tag, else the one prefix of the tag
    in [TYPE_MAP]. *)
Theorem name_search_respects_the_type (c : Compendium.t) (db : GrantsDb.t)
    (csv : option (list string)) :
  Forall
    (fun r =>
       forall id,
         Log.status r = "matched_name_search" ->
         Log.resolved_compendium_id r = Some id ->
         prefixes_of_hint (type_tag (Log.xml_id r)) <> [] /\
         has_prefix_in (prefixes_of_hint (type_tag (Log.xml_id r))) id = true)
    (GrantsDb.id_resolution_log (main c db csv).1).
Proof.
  rewrite main_log. apply Forall_forall. intros r Hr.
  apply list_elem_of_In, in_map_iff in Hr.
  destruct Hr as ([k cnt] & <- & _). cbn [fst snd]. intros id Hstatus Hid.
  rewrite log_entry_xml_id.
  destruct (log_entry_resolved_origin _ _ _ _ Hid)
    as [(table & Hx & Hd & Hs & Ht) | [(Hm & Hs)
        | (comp_id & table & Hx & Hn & Hs)]];
    try (rewrite Hs in Hstatus; discriminate Hstatus).
  destruct (xml_to_compendium_id_mapped _ _ _ Hx) as (Hc & _ & _).
  destruct (xml_to_compendium_id_tag _ _ _ Hx)
    as (Hfmp & type_part & entry & Htag & Hentry).
  assert (Hhint : type_hint_of (Some comp_id) k = type_tag k).
  { unfold type_hint_of. cbn [truthy]. rewrite Hc, Hfmp. reflexivity. }
  rewrite Hhint in Hn.
  assert (Hne : prefixes_of_hint (type_tag k) <> []).
  { rewrite <- Hhint. exact (mapped_prefixes k comp_id table Hx). }
  split; [exact Hne |].
  apply (search_by_name_sound _ _ _ _ Hn). exact Hne.
Qed.

End ResolvedIdFacts.

(* ===================================================================== *)
(** * The update phase of the resolver *)
(* ===================================================================== *)

Section CacheFacts.
Import PyStr Resolve.

Variable E : env.

(** What the loop over [id_info] resolves a reference to, and what
    [resolve] computes for a reference the cache lacks. *)
Local Abbreviation answer x :=
  (Log.resolved_compendium_id (log_entry E x (0, 0, 0, 0)).1).
Local Abbreviation miss x :=
  (let '(comp_id, table, unmappable) := xml_to_compendium_id (Some x) in
   if truthy unmappable then None
   else if direct_hit E comp_id table then comp_id else None).

Lemma log_entry_count_free (k : string) (cnt : counts) :
  Log.resolved_compendium_id (log_entry E k cnt).1 = answer k
  /\ (log_entry E k cnt).2 = (log_entry E k (0, 0, 0, 0)).2.
Proof.
  unfold log_entry. destruct cnt as [[[g a] s] m].
  destruct (xml_to_compendium_id (Some k)) as [[comp_id table] reason].
  repeat case_match; split; reflexivity.
Qed.

(** The loop assigns to the cache what it logs as resolved, except for an
    unmappable reference, which it leaves out and which [resolve] answers
    with nothing. *)
Lemma log_entry_assigned (k : string) (cnt : counts) :
  ((log_entry E k cnt).2 = None /\ miss k = None /\ answer k = None)
  \/ (log_entry E k cnt).2 = Some (answer k).
Proof.
  rewrite (proj2 (log_entry_count_free k cnt)).
  unfold log_entry.
  destruct (xml_to_compendium_id (Some k)) as [[comp_id table] reason].
  destruct (truthy reason); [left; repeat split; reflexivity |].
  right. repeat case_match; reflexivity.
Qed.

Lemma resolve_hit (ch : cache) (x : string) (v : option string) :
  ch !! x = Some v -> resolve E ch (Some x) = (v, ch).
Proof. intros H. unfold resolve. rewrite H. reflexivity. Qed.

Lemma resolve_miss (ch : cache) (x : string) :
  ch !! x = None -> resolve E ch (Some x) = (miss x, <[x := miss x]> ch).
Proof.
  intros H. unfold resolve. rewrite H.
  destruct (xml_to_compendium_id (Some x)) as [[comp_id table] reason].
  destruct (truthy reason); [reflexivity |].
  destruct (direct_hit E comp_id table); reflexivity.
Qed.

(** A cache that agrees with the loop, and lacks a reference of [keys] or
    the empty reference only when [resolve] computes what the loop
    logged. *)
Local Abbreviation good keys ch :=
  ((forall x v, (ch : cache) !! x = Some v -> v = answer x)
   /\ (forall x, In x keys \/ x = EmptyString ->
         (ch : cache) !! x = None -> miss x = answer x)).

Lemma resolve_good (keys : list string) (ch : cache) (x : string) :
  good keys ch -> In x keys \/ x = EmptyString ->
  (resolve E ch (Some x)).1 = answer x
  /\ good keys (resolve E ch (Some x)).2.
Proof.
  intros [Hsound Hcover] Hx. unfold cache in *.
  destruct (ch !! x) as [v |] eqn:Hch.
  - rewrite (resolve_hit ch x v Hch). cbn [fst snd].
    split; [apply Hsound, Hch | split; assumption].
  - rewrite (resolve_miss ch x Hch). cbn [fst snd]. unfold cache.
    pose proof (Hcover x Hx Hch) as Hm. split; [exact Hm |]. split.
    + intros y v. rewrite lookup_insert. case_decide.
      * subst y. intros [= <-]. exact Hm.
      * apply Hsound.
    + intros y Hy. rewrite lookup_insert. case_decide; [discriminate |].
      apply Hcover, Hy.
Qed.

(** The cache the loop over [id_info] leaves. *)
Lemma resolve_all_cache (info : list (string * counts)) (rows : list Log.row)
    (ch : cache) :
  (forall x v, ch !! x = Some v -> v = answer x) ->
  let ch' :=
    (fold_left
       (fun '(log_rows, resolution_cache) '(xml_id, c) =>
          let '(row, assigned) := log_entry E xml_id c in
          (app log_rows [row],
           match assigned with
           | Some v => <[xml_id := v]> resolution_cache
           | None => resolution_cache
           end)) info (rows, ch)).2 in
  (forall x v, ch' !! x = Some v -> v = answer x)
  /\ (forall x, In x (map fst info) -> ch' !! x = None -> miss x = answer x)
  /\ (forall x, ch' !! x = None -> ch !! x = None).
Proof.
  unfold cache in *.
  revert rows ch. induction info as [| [k cnt] info IH]; intros rows ch Hch;
    cbn [fold_left map fst In].
  - cbv zeta. cbn [snd]. split; [exact Hch |]. split; [tauto | auto].
  - destruct (log_entry E k cnt) as [row assigned] eqn:Hentry.
    pose proof (log_entry_assigned k cnt) as Hassigned.
    rewrite Hentry in Hassigned. cbn [snd] in Hassigned.
    destruct Hassigned as [(-> & Hmiss & Hanswer) | ->].
    + specialize (IH (app rows [row]) ch Hch). cbv zeta in IH |- *.
      destruct IH as (H1 & H2 & H3). split; [exact H1 |]. split; [| exact H3].
      intros x [<- | Hin]; [intros _; congruence | apply H2, Hin].
    + assert (Hch' : forall x v,
                <[k := answer k]> ch !! x = Some v -> v = answer x).
      { intros x v. rewrite lookup_insert. case_decide.
        - subst x. intros [= <-]. reflexivity.
        - apply Hch. }
      specialize (IH (app rows [row]) (<[k := answer k]> ch) Hch').
      cbv zeta in IH |- *. destruct IH as (H1 & H2 & H3).
      split; [exact H1 |]. split.
      * intros x [<- | Hin]; [| apply H2, Hin].
        intros Hnone. apply H3 in Hnone. rewrite lookup_insert_eq in Hnone.
        discriminate.
      * intros x Hnone. apply H3 in Hnone. revert Hnone.
        rewrite lookup_insert. case_decide; [discriminate | auto].
Qed.

Lemma empty_reference_unresolved :
  miss EmptyString = None /\ answer EmptyString = None.
Proof. split; reflexivity. Qed.

Lemma resolve_all_good (info : list (string * counts)) :
  good (map fst info) (resolve_all E info).2.
Proof.
  unfold resolve_all.
  destruct (resolve_all_cache info [] ∅) as (H1 & H2 & _).
  { unfold cache. intros x v. rewrite lookup_empty. discriminate. }
  cbv zeta in H1, H2. split; [exact H1 |].
  intros x [Hin | ->]; [apply H2, Hin |].
  intros _. destruct empty_reference_unresolved as [-> ->]. reflexivity.
Qed.

(** [UPDATE ... WHERE id = ?] row after row, on a table whose ids are
    distinct: every row is rewritten by its own turn of the loop. *)
Lemma update_where_id_fold {R : Type} (id_of : R -> nat) (cond : R -> bool)
    (f : R -> R -> R) (l T : list R) :
  NoDup (map id_of l) ->
  (forall r x, id_of (f r x) = id_of x) ->
  fold_left
    (fun T r =>
       if cond r then update_where_id id_of (f r) (id_of r) T else T) l T
  = map
      (fun x =>
         match List.find (fun r => Nat.eqb (id_of r) (id_of x)) l with
         | Some r => if cond r then f r x else x
         | None => x
         end) T.
Proof.
  intros Hn Hf. revert T.
  induction l as [| r l IH]; intros T; cbn [fold_left List.find].
  - symmetry. apply map_id.
  - cbn [map] in Hn. apply NoDup_cons in Hn. destruct Hn as [Hr Hn].
    rewrite (IH Hn).
    assert (Hstep :
      (if cond r then update_where_id id_of (f r) (id_of r) T else T)
      = map (fun x => if Nat.eqb (id_of x) (id_of r)
                      then (if cond r then f r x else x) else x) T).
    { unfold update_where_id. destruct (cond r).
      - reflexivity.
      - symmetry. rewrite <- (map_id T) at 2. apply map_ext.
        intros x. destruct (Nat.eqb _ _); reflexivity. }
    rewrite Hstep, map_map. apply map_ext. intros x.
    rewrite (Nat.eqb_sym (id_of r) (id_of x)).
    destruct (Nat.eqb_spec (id_of x) (id_of r)) as [Heq | Hne];
      [| reflexivity].
    assert (Hnone : forall y, id_of y = id_of r ->
              List.find (fun r' => Nat.eqb (id_of r') (id_of y)) l = None).
    { intros y Hy. destruct (List.find _ l) as [r' |] eqn:Hfind;
        [| reflexivity].
      apply find_some in Hfind. destruct Hfind as [Hin Hid].
      apply Nat.eqb_eq in Hid. exfalso. apply Hr.
      apply list_elem_of_In, in_map_iff. exists r'. split; [lia | exact Hin]. }
    rewrite Hnone; [reflexivity |].
    destruct (cond r); [rewrite Hf |]; exact Heq.
Qed.

Lemma find_own_id {R : Type} (id_of : R -> nat) (T : list R) (x : R) :
  NoDup (map id_of T) -> In x T ->
  List.find (fun r => Nat.eqb (id_of r) (id_of x)) T = Some x.
Proof.
  induction T as [| a T IH]; cbn [map In List.find]; [tauto |].
  intros Hn. apply NoDup_cons in Hn. destruct Hn as [Ha Hn].
  intros [-> | Hin].
  - rewrite Nat.eqb_refl. reflexivity.
  - destruct (Nat.eqb_spec (id_of a) (id_of x)) as [Heq | _]; [| auto].
    exfalso. apply Ha. apply list_elem_of_In, in_map_iff.
    exists x. split; [lia | exact Hin].
Qed.

Lemma update_where_id_table {R : Type} (id_of : R -> nat) (cond : R -> bool)
    (f : R -> R -> R) (T : list R) :
  NoDup (map id_of T) ->
  (forall r x, id_of (f r x) = id_of x) ->
  fold_left
    (fun T r =>
       if cond r then update_where_id id_of (f r) (id_of r) T else T) T T
  = map (fun x => if cond x then f x x else x) T.
Proof.
  intros Hn Hf. rewrite (update_where_id_fold id_of cond f T T Hn Hf).
  apply map_ext_in. intros x Hx. rewrite (find_own_id id_of T x Hn Hx).
  reflexivity.
Qed.

Lemma update_grants_answer (keys : list string) (l T : list Grant.row)
    (ch : cache) (n : nat * nat) :
  good keys ch ->
  (forall r, In r l ->
     (In (Grant.granter_xml_id r) keys \/ Grant.granter_xml_id r = EmptyString)
     /\ (In (Grant.granted_xml_id r) keys
         \/ Grant.granted_xml_id r = EmptyString)) ->
  (fold_left
     (fun '(table, resolution_cache, (granter_updated, granted_updated)) r =>
        let '(granter_comp, resolution_cache) :=
          resolve E resolution_cache (Some (Grant.granter_xml_id r)) in
        let '(granted_comp, resolution_cache) :=
          resolve E resolution_cache (Some (Grant.granted_xml_id r)) in
        if is_some granter_comp || is_some granted_comp then
          (update_where_id Grant.id (set_grant_ids granter_comp granted_comp)
             (Grant.id r) table,
           resolution_cache,
           (if truthy granter_comp then granter_updated + 1
            else granter_updated,
            if truthy granted_comp then granted_updated + 1
            else granted_updated))
        else (table, resolution_cache, (granter_updated, granted_updated)))
     l (T, ch, n)).1.1
  = fold_left
      (fun T r =>
         if is_some (answer (Grant.granter_xml_id r))
            || is_some (answer (Grant.granted_xml_id r))
         then update_where_id Grant.id
                (set_grant_ids (answer (Grant.granter_xml_id r))
                   (answer (Grant.granted_xml_id r)))
                (Grant.id r) T
         else T) l T
  /\ good keys
       (fold_left
          (fun '(table, resolution_cache, (granter_updated, granted_updated))
               r =>
             let '(granter_comp, resolution_cache) :=
               resolve E resolution_cache (Some (Grant.granter_xml_id r)) in
             let '(granted_comp, resolution_cache) :=
               resolve E resolution_cache (Some (Grant.granted_xml_id r)) in
             if is_some granter_comp || is_some granted_comp then
               (update_where_id Grant.id
                  (set_grant_ids granter_comp granted_comp)
                  (Grant.id r) table,
                resolution_cache,
                (if truthy granter_comp then granter_updated + 1
                 else granter_updated,
                 if truthy granted_comp then granted_updated + 1
                 else granted_updated))
             else (table, resolution_cache,
                   (granter_updated, granted_updated)))
          l (T, ch, n)).1.2.
Proof.
  revert T ch n. induction l as [| r l IH]; intros T ch [n1 n2] Hgood Hq.
  - cbn [fold_left fst snd]. split; [reflexivity | exact Hgood].
  - cbn [fold_left].
    destruct (Hq r (or_introl eq_refl)) as [Hq1 Hq2].
    destruct (resolve_good keys ch (Grant.granter_xml_id r) Hgood Hq1)
      as [Ha Hg1].
    destruct (resolve E ch (Some (Grant.granter_xml_id r))) as [a ch1].
    cbn [fst snd] in Ha, Hg1. subst a.
    destruct (resolve_good keys ch1 (Grant.granted_xml_id r) Hg1 Hq2)
      as [Hb Hg2].
    destruct (resolve E ch1 (Some (Grant.granted_xml_id r))) as [b ch2].
    cbn [fst snd] in Hb, Hg2. subst b.
    destruct (is_some _ || is_some _);
      apply IH; auto; intros r' Hr'; apply Hq; right; exact Hr'.
Qed.

Lemma update_stat_additions_answer (keys : list string)
    (l T : list StatAdd.row) (ch : cache) (n : nat) :
  good keys ch ->
  (forall r, In r l ->
     In (StatAdd.granter_xml_id r) keys
     \/ StatAdd.granter_xml_id r = EmptyString) ->
  (fold_left
     (fun '(table, resolution_cache, stat_updated) r =>
        let '(granter_comp, resolution_cache) :=
          resolve E resolution_cache (Some (StatAdd.granter_xml_id r)) in
        if is_some granter_comp then
          (update_where_id StatAdd.id (set_statadd_id granter_comp)
             (StatAdd.id r) table,
           resolution_cache, stat_updated + 1)
        else (table, resolution_cache, stat_updated))
     l (T, ch, n)).1.1
  = fold_left
      (fun T r =>
         if is_some (answer (StatAdd.granter_xml_id r))
         then update_where_id StatAdd.id
                (set_statadd_id (answer (StatAdd.granter_xml_id r)))
                (StatAdd.id r) T
         else T) l T
  /\ good keys
       (fold_left
          (fun '(table, resolution_cache, stat_updated) r =>
             let '(granter_comp, resolution_cache) :=
               resolve E resolution_cache (Some (StatAdd.granter_xml_id r)) in
             if is_some granter_comp then
               (update_where_id StatAdd.id (set_statadd_id granter_comp)
                  (StatAdd.id r) table,
                resolution_cache, stat_updated + 1)
             else (table, resolution_cache, stat_updated))
          l (T, ch, n)).1.2
  /\ (fold_left
        (fun '(table, resolution_cache, stat_updated) r =>
           let '(granter_comp, resolution_cache) :=
             resolve E resolution_cache (Some (StatAdd.granter_xml_id r)) in
           if is_some granter_comp then
             (update_where_id StatAdd.id (set_statadd_id granter_comp)
                (StatAdd.id r) table,
              resolution_cache, stat_updated + 1)
           else (table, resolution_cache, stat_updated))
        l (T, ch, n)).2
     = n + length (List.filter
                     (fun r => is_some (answer (StatAdd.granter_xml_id r))) l).
Proof.
  revert T ch n. induction l as [| r l IH]; intros T ch n Hgood Hq.
  - cbn [fold_left fst snd List.filter length].
    split; [reflexivity |]. split; [exact Hgood | lia].
  - cbn [fold_left List.filter].
    pose proof (Hq r (or_introl eq_refl)) as Hq1.
    destruct (resolve_good keys ch (StatAdd.granter_xml_id r) Hgood Hq1)
      as [Ha Hg1].
    destruct (resolve E ch (Some (StatAdd.granter_xml_id r))) as [a ch1].
    cbn [fst snd] in Ha, Hg1. subst a.
    destruct (is_some _).
    + destruct (IH (update_where_id StatAdd.id
                      (set_statadd_id (answer (StatAdd.granter_xml_id r)))
                      (StatAdd.id r) T) ch1 (n + 1) Hg1) as (H1 & H2 & H3).
      { intros r' Hr'. apply Hq. right. exact Hr'. }
      split; [exact H1 |]. split; [exact H2 |]. rewrite H3. cbn [length]. lia.
    + destruct (IH T ch1 n Hg1) as (H1 & H2 & H3).
      { intros r' Hr'. apply Hq. right. exact Hr'. }
      split; [exact H1 |]. split; [exact H2 |]. exact H3.
Qed.

Lemma update_modifies_answer (keys : list string)
    (l T : list Modify.row) (ch : cache) (n : nat) :
  good keys ch ->
  (forall r, In r l ->
     In (Modify.granter_xml_id r) keys
     \/ Modify.granter_xml_id r = EmptyString) ->
  (fold_left
     (fun '(table, resolution_cache, mod_updated) r =>
        let '(granter_comp, resolution_cache) :=
          resolve E resolution_cache (Some (Modify.granter_xml_id r)) in
        if is_some granter_comp then
          (update_where_id Modify.id (set_modify_id granter_comp)
             (Modify.id r) table,
           resolution_cache, mod_updated + 1)
        else (table, resolution_cache, mod_updated))
     l (T, ch, n)).1.1
  = fold_left
      (fun T r =>
         if is_some (answer (Modify.granter_xml_id r))
         then update_where_id Modify.id
                (set_modify_id (answer (Modify.granter_xml_id r)))
                (Modify.id r) T
         else T) l T
  /\ (fold_left
        (fun '(table, resolution_cache, mod_updated) r =>
           let '(granter_comp, resolution_cache) :=
             resolve E resolution_cache (Some (Modify.granter_xml_id r)) in
           if is_some granter_comp then
             (update_where_id Modify.id (set_modify_id granter_comp)
                (Modify.id r) table,
              resolution_cache, mod_updated + 1)
           else (table, resolution_cache, mod_updated))
        l (T, ch, n)).2
     = n + length (List.filter
                     (fun r => is_some (answer (Modify.granter_xml_id r))) l).
Proof.
  revert T ch n. induction l as [| r l IH]; intros T ch n Hgood Hq.
  - cbn [fold_left fst snd List.filter length]. split; [reflexivity | lia].
  - cbn [fold_left List.filter].
    pose proof (Hq r (or_introl eq_refl)) as Hq1.
    destruct (resolve_good keys ch (Modify.granter_xml_id r) Hgood Hq1)
      as [Ha Hg1].
    destruct (resolve E ch (Some (Modify.granter_xml_id r))) as [a ch1].
    cbn [fst snd] in Ha, Hg1. subst a.
    destruct (is_some _).
    + destruct (IH (update_where_id Modify.id
                      (set_modify_id (answer (Modify.granter_xml_id r)))
                      (Modify.id r) T) ch1 (n + 1) Hg1) as (H1 & H3).
      { intros r' Hr'. apply Hq. right. exact Hr'. }
      split; [exact H1 |]. rewrite H3. cbn [length]. lia.
    + destruct (IH T ch1 n Hg1) as (H1 & H3).
      { intros r' Hr'. apply Hq. right. exact Hr'. }
      split; [exact H1 | exact H3].
Qed.

(** What the log holds for a reference is what the loop resolved it to. *)
Lemma logged_answer (info : list (string * counts)) (x : string) :
  In x (map fst info) \/ x = EmptyString ->
  logged (map (fun kc => (log_entry E kc.1 kc.2).1) info) x = answer x.
Proof.
  unfold logged. intros Hx.
  induction info as [| [k cnt] info IH]; cbn [map fst snd List.find In] in *.
  - destruct Hx as [[] | ->]. symmetry.
    exact (proj2 empty_reference_unresolved).
  - rewrite log_entry_xml_id.
    destruct (String.eqb_spec k x) as [-> | Hkx].
    + apply log_entry_count_free.
    + apply IH. destruct Hx as [[Hk | Hin] | ->]; auto. congruence.
Qed.

Lemma update_grants_table (keys : list string) (T : list Grant.row)
    (ch : cache) :
  good keys ch ->
  (forall r, In r T ->
     (In (Grant.granter_xml_id r) keys \/ Grant.granter_xml_id r = EmptyString)
     /\ (In (Grant.granted_xml_id r) keys
         \/ Grant.granted_xml_id r = EmptyString)) ->
  NoDup (map Grant.id T) ->
  (update_grants E T ch).1.1
  = map
      (fun r =>
         if is_some (answer (Grant.granter_xml_id r))
            || is_some (answer (Grant.granted_xml_id r))
         then set_grant_ids (answer (Grant.granter_xml_id r))
                (answer (Grant.granted_xml_id r)) r
         else r) T
  /\ good keys (update_grants E T ch).1.2.
Proof.
  intros Hgood Hq Hn. unfold update_grants.
  destruct (update_grants_answer keys T T ch (0, 0) Hgood Hq) as [H1 H2].
  rewrite H1. split; [| exact H2].
  apply (update_where_id_table Grant.id
           (fun r => is_some (answer (Grant.granter_xml_id r))
                     || is_some (answer (Grant.granted_xml_id r)))
           (fun r => set_grant_ids (answer (Grant.granter_xml_id r))
                       (answer (Grant.granted_xml_id r))) T Hn).
  reflexivity.
Qed.

Lemma update_stat_additions_table (keys : list string) (T : list StatAdd.row)
    (ch : cache) :
  good keys ch ->
  (forall r, In r T ->
     In (StatAdd.granter_xml_id r) keys
     \/ StatAdd.granter_xml_id r = EmptyString) ->
  NoDup (map StatAdd.id T) ->
  (update_stat_additions E T ch).1.1
  = map
      (fun r =>
         if is_some (answer (StatAdd.granter_xml_id r))
         then set_statadd_id (answer (StatAdd.granter_xml_id r)) r
         else r) T
  /\ good keys (update_stat_additions E T ch).1.2
  /\ (update_stat_additions E T ch).2
     = length (List.filter
                 (fun r => is_some (answer (StatAdd.granter_xml_id r))) T).
Proof.
  intros Hgood Hq Hn. unfold update_stat_additions.
  destruct (update_stat_additions_answer keys T T ch 0 Hgood Hq)
    as (H1 & H2 & H3).
  rewrite H1, H3. split; [| split; [exact H2 | reflexivity]].
  apply (update_where_id_table StatAdd.id
           (fun r => is_some (answer (StatAdd.granter_xml_id r)))
           (fun r => set_statadd_id (answer (StatAdd.granter_xml_id r)))
           T Hn).
  reflexivity.
Qed.

Lemma update_modifies_table (keys : list string) (T : list Modify.row)
    (ch : cache) :
  good keys ch ->
  (forall r, In r T ->
     In (Modify.granter_xml_id r) keys
     \/ Modify.granter_xml_id r = EmptyString) ->
  NoDup (map Modify.id T) ->
  (update_modifies E T ch).1.1
  = map
      (fun r =>
         if is_some (answer (Modify.granter_xml_id r))
         then set_modify_id (answer (Modify.granter_xml_id r)) r
         else r) T
  /\ (update_modifies E T ch).2
     = length (List.filter
                 (fun r => is_some (answer (Modify.granter_xml_id r))) T).
Proof.
  intros Hgood Hq Hn. unfold update_modifies.
  destruct (update_modifies_answer keys T T ch 0 Hgood Hq) as (H1 & H3).
  rewrite H1, H3. split; [| reflexivity].
  apply (update_where_id_table Modify.id
           (fun r => is_some (answer (Modify.granter_xml_id r)))
           (fun r => set_modify_id (answer (Modify.granter_xml_id r)))
           T Hn).
  reflexivity.
Qed.

End CacheFacts.

Section EdgeClaims.
Import PyStr Resolve.

Lemma filter_length_pos {A : Type} (f : A -> bool) (l : list A) (x : A) :
  In x l -> f x = true -> length (List.filter f l) <> 0.
Proof.
  intros Hin Hf. assert (H : In x (List.filter f l)) by (apply filter_In; auto).
  destruct (List.filter f l); [destruct H | discriminate].
Qed.

Lemma reference_in_id_info (db : GrantsDb.t) (x : string) :
  nonempty x = true -> total (occurrences db x) <> 0 ->
  In x (map fst (collect_id_info db)).
Proof.
  intros Hx Hz. pose proof (collect_id_info_entry db x Hx) as He.
  destruct (in_dec String.string_dec x (map fst (collect_id_info db)))
    as [Hin | Hout]; [exact Hin |].
  apply assoc_None in Hout. rewrite Hout in He.
  destruct (total (occurrences db x)); congruence.
Qed.

Lemma known_or_empty (db : GrantsDb.t) (x : string) :
  total (occurrences db x) <> 0 ->
  In x (map fst (collect_id_info db)) \/ x = EmptyString.
Proof.
  intros Hz. destruct x as [| ch x]; [right; reflexivity | left].
  apply reference_in_id_info; [reflexivity | exact Hz].
Qed.

Lemma grant_references_known (db : GrantsDb.t) (r : Grant.row) :
  In r (GrantsDb.grants db) ->
  (In (Grant.granter_xml_id r) (map fst (collect_id_info db))
   \/ Grant.granter_xml_id r = EmptyString)
  /\ (In (Grant.granted_xml_id r) (map fst (collect_id_info db))
      \/ Grant.granted_xml_id r = EmptyString).
Proof.
  intros Hr. split; apply known_or_empty; unfold occurrences; cbn [total].
  - pose proof (filter_length_pos
                  (fun r0 => String.eqb (Grant.granter_xml_id r0)
                               (Grant.granter_xml_id r))
                  _ r Hr (String.eqb_refl _)). lia.
  - pose proof (filter_length_pos
                  (fun r0 => String.eqb (Grant.granted_xml_id r0)
                               (Grant.granted_xml_id r))
                  _ r Hr (String.eqb_refl _)). lia.
Qed.

Lemma stat_addition_reference_known (db : GrantsDb.t) (r : StatAdd.row) :
  In r (GrantsDb.stat_additions db) ->
  In (StatAdd.granter_xml_id r) (map fst (collect_id_info db))
  \/ StatAdd.granter_xml_id r = EmptyString.
Proof.
  intros Hr. apply known_or_empty; unfold occurrences; cbn [total].
  pose proof (filter_length_pos
                (fun r0 => String.eqb (StatAdd.granter_xml_id r0)
                             (StatAdd.granter_xml_id r))
                _ r Hr (String.eqb_refl _)). lia.
Qed.

Lemma modify_reference_known (db : GrantsDb.t) (r : Modify.row) :
  In r (GrantsDb.modifies db) ->
  In (Modify.granter_xml_id r) (map fst (collect_id_info db))
  \/ Modify.granter_xml_id r = EmptyString.
Proof.
  intros Hr. apply known_or_empty; unfold occurrences; cbn [total].
  pose proof (filter_length_pos
                (fun r0 => String.eqb (Modify.granter_xml_id r0)
                             (Modify.granter_xml_id r))
                _ r Hr (String.eqb_refl _)). lia.
Qed.

(** X9.  On tables whose row ids are distinct, the update phase writes into
    the edges what the log holds for their references: a row of [grants]
    gets, when the log resolves its granter or its granted reference, both
    resolved ids as the log has them (nothing for the one that is not
    resolved), and is left as it was otherwise; a row of [stat_additions]
    or [modifies] gets the logged id of its granter when there is one.  So
    ids found by override or by name search reach the edges as well, and
    [stat_updated] and [mod_updated] count the rows whose granter the log
    resolves. *)
Theorem edges_follow_the_log (c : Compendium.t) (db : GrantsDb.t)
    (csv : option (list string)) :
  NoDup (map Grant.id (GrantsDb.grants db)) ->
  NoDup (map StatAdd.id (GrantsDb.stat_additions db)) ->
  NoDup (map Modify.id (GrantsDb.modifies db)) ->
  GrantsDb.grants (main c db csv).1
  = map
      (fun r =>
         if is_some
              (logged (GrantsDb.id_resolution_log (main c db csv).1)
                 (Grant.granter_xml_id r))
            || is_some
                 (logged (GrantsDb.id_resolution_log (main c db csv).1)
                    (Grant.granted_xml_id r))
         then
           set_grant_ids
             (logged (GrantsDb.id_resolution_log (main c db csv).1)
                (Grant.granter_xml_id r))
             (logged (GrantsDb.id_resolution_log (main c db csv).1)
                (Grant.granted_xml_id r)) r
         else r) (GrantsDb.grants db)
  /\ GrantsDb.stat_additions (main c db csv).1
     = map
         (fun r =>
            if is_some
                 (logged (GrantsDb.id_resolution_log (main c db csv).1)
                    (StatAdd.granter_xml_id r))
            then
              set_statadd_id
                (logged (GrantsDb.id_resolution_log (main c db csv).1)
                   (StatAdd.granter_xml_id r)) r
            else r) (GrantsDb.stat_additions db)
  /\ GrantsDb.modifies (main c db csv).1
     = map
         (fun r =>
            if is_some
                 (logged (GrantsDb.id_resolution_log (main c db csv).1)
                    (Modify.granter_xml_id r))
            then
              set_modify_id
                (logged (GrantsDb.id_resolution_log (main c db csv).1)
                   (Modify.granter_xml_id r)) r
            else r) (GrantsDb.modifies db)
  /\ stat_updated (main c db csv).2
     = length
         (List.filter
            (fun r =>
               is_some
                 (logged (GrantsDb.id_resolution_log (main c db csv).1)
                    (StatAdd.granter_xml_id r)))
            (GrantsDb.stat_additions db))
  /\ mod_updated (main c db csv).2
     = length
         (List.filter
            (fun r =>
               is_some
                 (logged (GrantsDb.id_resolution_log (main c db csv).1)
                    (Modify.granter_xml_id r)))
            (GrantsDb.modifies db)).
Proof.
  intros Hgn Hsn Hmn. rewrite main_log.
  set (E := load_env c db csv).
  set (info := collect_id_info db).
  set (log := map (fun kc => (log_entry E kc.1 kc.2).1) info).
  pose proof (resolve_all_good E info) as Hgood0.
  unfold main. fold E. fold info.
  destruct (resolve_all E info) as [log_rows ch0]. cbn [snd] in Hgood0.
  destruct (update_grants_table E (map fst info) (GrantsDb.grants db) ch0
              Hgood0 (grant_references_known db) Hgn) as [Hg Hgood1].
  destruct (update_grants E (GrantsDb.grants db) ch0) as [[g ch1] n1].
  cbn [fst snd] in Hg, Hgood1.
  destruct (update_stat_additions_table E (map fst info)
              (GrantsDb.stat_additions db) ch1 Hgood1
              (stat_addition_reference_known db) Hsn) as (Hs & Hgood2 & Hsc).
  destruct (update_stat_additions E (GrantsDb.stat_additions db) ch1)
    as [[sa ch2] n2].
  cbn [fst snd] in Hs, Hgood2, Hsc.
  destruct (update_modifies_table E (map fst info)
              (GrantsDb.modifies db) ch2 Hgood2
              (modify_reference_known db) Hmn) as (Hm & Hmc).
  destruct (update_modifies E (GrantsDb.modifies db) ch2) as [[md ch3] n3].
  cbn [fst snd] in Hm, Hmc.
  cbn [fst snd GrantsDb.grants GrantsDb.stat_additions GrantsDb.modifies
       stat_updated mod_updated].
  subst g sa md n2 n3.
  repeat apply conj.
  - apply map_ext_in. intros r Hr.
    destruct (grant_references_known db r Hr) as [H1 H2].
    unfold log. rewrite !(logged_answer E info _ H1),
      !(logged_answer E info _ H2). reflexivity.
  - apply map_ext_in. intros r Hr.
    pose proof (stat_addition_reference_known db r Hr) as H1.
    unfold log. rewrite !(logged_answer E info _ H1). reflexivity.
  - apply map_ext_in. intros r Hr.
    pose proof (modify_reference_known db r Hr) as H1.
    unfold log. rewrite !(logged_answer E info _ H1). reflexivity.
  - f_equal. apply filter_ext_in. intros r Hr.
    pose proof (stat_addition_reference_known db r Hr) as H1.
    unfold log. rewrite !(logged_answer E info _ H1). reflexivity.
  - f_equal. apply filter_ext_in. intros r Hr.
    pose proof (modify_reference_known db r Hr) as H1.
    unfold log. rewrite !(logged_answer E info _ H1). reflexivity.
Qed.

End EdgeClaims.

Section EdgeWitness.
Import PyStr Resolve.

Lemma edges_follow_the_log_witness :
  GrantsDb.grants
    (main Sample.compendium Sample.rule_graph Sample.override_lines).1
  = map
      (fun r =>
         if is_some
              (logged
                 (GrantsDb.id_resolution_log
                    (main Sample.compendium Sample.rule_graph
                       Sample.override_lines).1)
                 (Grant.granter_xml_id r))
            || is_some
                 (logged
                    (GrantsDb.id_resolution_log
                       (main Sample.compendium Sample.rule_graph
                          Sample.override_lines).1)
                    (Grant.granted_xml_id r))
         then
           set_grant_ids
             (logged
                (GrantsDb.id_resolution_log
                   (main Sample.compendium Sample.rule_graph
                      Sample.override_lines).1)
                (Grant.granter_xml_id r))
             (logged
                (GrantsDb.id_resolution_log
                   (main Sample.compendium Sample.rule_graph
                      Sample.override_lines).1)
                (Grant.granted_xml_id r)) r
         else r) (GrantsDb.grants Sample.rule_graph).
Proof.
  refine (proj1 (edges_follow_the_log Sample.compendium Sample.rule_graph
                   Sample.override_lines _ _ _)).
  - refine (bool_decide_unpack _ _). vm_compute. exact I.
  - refine (bool_decide_unpack _ _). vm_compute. exact I.
  - refine (bool_decide_unpack _ _). vm_compute. exact I.
Defined.

End EdgeWitness.

(* ===================================================================== *)
(** * Overrides and name variants *)
(* ===================================================================== *)

Section OverrideFacts.
Import PyStr Resolve.

(** X10.  A line of the override file whose target is not the id of a row
    of the tables the resolver reads is ignored: the run is the run on the
    file without that line (store, log and report). *)
Theorem override_to_missing_id_is_ignored (c : Compendium.t)
    (db : GrantsDb.t) (before after : list string) (line a b : string) :
  split_comma1 (strip line) = [a; b] ->
  (forall t e, In t id_tables -> In e (table_rows c t) ->
     Compendium.id e <> strip b) ->
  main c db (Some (app before (line :: after)))
  = main c db (Some (app before after)).
Proof.
  intros Hsplit Hmissing.
  assert (Hmap :
    load_manual_mappings (load_all_valid_ids (load_valid_ids c))
      (Some (app before (line :: after)))
    = load_manual_mappings (load_all_valid_ids (load_valid_ids c))
        (Some (app before after))).
  { unfold load_manual_mappings.
    cbn [default from_option id]. rewrite !fold_left_app. cbn [fold_left].
    match goal with
    | |- fold_left ?f after ?m1 = fold_left ?f after ?m2 =>
        assert (Hstep : m1 = m2); [| rewrite Hstep; reflexivity]
    end.
    cbv zeta.
    destruct (negb (nonempty (strip line)) || startswith "xml_id" (strip line));
      [reflexivity |].
    rewrite Hsplit.
    destruct (nonempty (strip a) && nonempty (strip b)); cbn [andb];
      [| reflexivity].
    rewrite bool_decide_eq_false_2; [reflexivity |].
    intros Hin.
    destruct (proj1 (all_valid_ids_rows c db None (strip b)) Hin)
      as (t & e & Ht & He & Hid).
    exact (Hmissing t e Ht He Hid). }
  assert (Henv : load_env c db (Some (app before (line :: after)))
                 = load_env c db (Some (app before after))).
  { unfold load_env. cbv zeta. rewrite Hmap. reflexivity. }
  unfold main. rewrite Henv. reflexivity.
Qed.

Lemma override_to_missing_id_is_ignored_witness :
  main Sample.compendium Sample.rule_graph
    (Some (app ["xml_id,compendium_id"]
             ("ID_FMP_POWER_999, power999" :: ["ID_FMP_POWER_435,feat1"])))
  = main Sample.compendium Sample.rule_graph
      (Some (app ["xml_id,compendium_id"] ["ID_FMP_POWER_435,feat1"])).
Proof.
  apply (override_to_missing_id_is_ignored Sample.compendium
           Sample.rule_graph ["xml_id,compendium_id"]
           ["ID_FMP_POWER_435,feat1"] "ID_FMP_POWER_999, power999"
           "ID_FMP_POWER_999" " power999").
  - vm_compute. reflexivity.
  - intros t e Ht He. vm_compute in Ht.
    repeat (destruct Ht as [<- | Ht];
            [vm_compute in He; intuition (subst; discriminate) |]).
    destruct Ht.
Defined.

End OverrideFacts.

Section VariantFacts.
Import PyStr Resolve.

Variable s : string.

(** The variants built so far: the name itself first, no variant twice,
    none empty. *)
Local Abbreviation tidy vs :=
  (head vs = Some s /\ NoDup vs /\ Forall (fun v => nonempty v = true) vs).

Lemma tidy_add (v : string) (vs : list string) : tidy vs -> tidy (add v vs).
Proof.
  intros (Hh & Hn & Hf). unfold add.
  destruct (nonempty (strip (Re.sub blanks " " v))) eqn:Hv; cbn [andb];
    [| auto].
  destruct (existsb _ vs) eqn:He; cbn [negb]; [auto |].
  repeat split.
  - destruct vs; [discriminate | exact Hh].
  - apply NoDup_app. split; [exact Hn |]. split; [| apply NoDup_singleton].
    intros x Hx Hk. apply list_elem_of_In in Hx, Hk. destruct Hk as [<- | []].
    assert (Ht : existsb (String.eqb (strip (Re.sub blanks " " v))) vs = true).
    { apply existsb_exists. exists (strip (Re.sub blanks " " v)).
      split; [exact Hx | apply String.eqb_refl]. }
    congruence.
  - apply Forall_app. split; [exact Hf | repeat constructor; exact Hv].
Qed.

Lemma tidy_if (c : bool) (f : list string -> list string)
    (vs : list string) :
  (forall vs', tidy vs' -> tidy (f vs')) ->
  tidy vs -> tidy (if c then f vs else vs).
Proof. intros Hf Hvs. destruct c; auto. Qed.

Lemma tidy_fold {A : Type} (f : list string -> A -> list string)
    (l : list A) (vs : list string) :
  (forall vs' a, tidy vs' -> tidy (f vs' a)) ->
  tidy vs -> tidy (fold_left f l vs).
Proof.
  intros Hf. revert vs. induction l as [| a l IH]; intros vs Hvs;
    [exact Hvs |].
  cbn [fold_left]. apply IH, Hf, Hvs.
Qed.

Lemma tidy_compound_split (sub t : string) (vs : list string) :
  tidy vs -> tidy (compound_split sub t vs).
Proof.
  intros H. unfold compound_split.
  destruct (_ && _); [| exact H].
  destruct (find sub t) as [[| i] |]; try exact H. apply tidy_add, H.
Qed.

Lemma tidy_strip_word_both (w t : string) (vs : list string) :
  tidy vs -> tidy (strip_word_both w t vs).
Proof. intros H. unfold strip_word_both. cbv zeta. apply tidy_add, tidy_add, H. Qed.

End VariantFacts.

Section VariantClaims.
Import PyStr Resolve.

(** X11.  [name_search_variants] gives no variant for a name that is blank.
    For any other name the first variant is the name itself, stripped and in
    lower case, so the exact name is tried before any normalized form; no
    variant occurs twice and none is empty. *)
Theorem name_search_variants_are_tidy (name : string) :
  match name_search_variants name with
  | [] => nonempty (strip name) = false
  | first :: rest =>
      first = lower (strip name)
      /\ NoDup (first :: rest)
      /\ Forall (fun v => nonempty v = true) (first :: rest)
  end.
Proof.
  assert (H : nonempty (lower (strip name)) = false
              /\ name_search_variants name = []
              \/ head (name_search_variants name) = Some (lower (strip name))
                 /\ NoDup (name_search_variants name)
                 /\ Forall (fun v => nonempty v = true)
                      (name_search_variants name)).
  { unfold name_search_variants. cbv zeta.
    destruct (nonempty (lower (strip name))) eqn:Hs; cbn [negb];
      [right | left; auto].
    repeat first
      [ apply tidy_add
      | apply tidy_fold;
        [ intros vs' a' Hvs';
          first [ apply tidy_add, Hvs'
                | apply tidy_compound_split, Hvs'
                | apply tidy_strip_word_both, Hvs' ] | ]
      | apply (tidy_if (lower (strip name)) _ (fun vs => add _ (add _ vs)));
        [ intros vs' Hvs'; apply tidy_add, tidy_add, Hvs' | ]
      | apply (tidy_if (lower (strip name)) _ (fun vs => add _ vs));
        [ intros vs' Hvs'; apply tidy_add, Hvs' | ]
      | apply (tidy_if (lower (strip name)) _
                 (fun vs => fold_left _ _ vs));
        [ intros vs' Hvs'; apply tidy_fold;
          [ intros vs'' a' Hvs''; apply tidy_add, Hvs'' | exact Hvs' ] | ] ].
    repeat split.
    - apply NoDup_singleton.
    - repeat constructor. exact Hs. }
  destruct H as [[Hs Hv] | (Hh & Hn & Hf)].
  - rewrite Hv. destruct (strip name); [reflexivity | discriminate Hs].
  - destruct (name_search_variants name) as [| first rest];
      [discriminate Hh |].
    injection Hh as ->. auto.
Qed.

End VariantClaims.

(* ===================================================================== *)
(** * More on the extractor *)
(* ===================================================================== *)

Section SafeStrFacts.
Import PyStr Extract.

Lemma lstrip_head (x : string) :
  match lstrip x with
  | String c _ => is_space c = false
  | EmptyString => True
  end.
Proof.
  induction x as [| c x IH]; cbn [lstrip]; [exact I |].
  destruct (is_space c) eqn:Hc; [exact IH | exact Hc].
Qed.

Lemma rstrip_idem (x : string) : rstrip (rstrip x) = rstrip x.
Proof.
  induction x as [| c x IH]; cbn [rstrip]; [reflexivity |].
  destruct (rstrip x) as [| d r] eqn:Hr.
  - destruct (is_space c) eqn:Hc; [reflexivity |].
    cbn [rstrip]. rewrite Hc. reflexivity.
  - cbn [rstrip] in IH |- *. rewrite IH. reflexivity.
Qed.

Lemma rstrip_keeps_head (c : ascii) (x : string) :
  is_space c = false ->
  exists r, rstrip (String c x) = String c r.
Proof.
  intros Hc. cbn [rstrip]. destruct (rstrip x) as [| d r].
  - rewrite Hc. eauto.
  - eauto.
Qed.

(** A stripped text is its own strip. *)
Lemma strip_idem (x : string) : strip (strip x) = strip x.
Proof.
  unfold strip. pose proof (lstrip_head x) as Hh.
  destruct (lstrip x) as [| c y] eqn:Hl; [reflexivity |].
  destruct (rstrip_keeps_head c y Hh) as [r Hr]. rewrite Hr.
  cbn [lstrip]. rewrite Hh, <- Hr. apply rstrip_idem.
Qed.

Lemma safe_str_Some (v : option string) (s : string) :
  safe_str v = Some s -> nonempty s = true /\ strip s = s.
Proof.
  unfold safe_str. destruct v as [v |]; [| discriminate].
  destruct (nonempty (strip v)) eqn:Hn; [| discriminate].
  intros [= <-]. split; [exact Hn | apply strip_idem].
Qed.


End SafeStrFacts.

Section ExtractInvariants.
Import PyStr Extract.

Lemma max_seq (a n : nat) :
  fold_right Nat.max 0 (seq (S a) n) = match n with 0 => 0 | S _ => a + n end.
Proof.
  revert a. induction n as [| n IH]; intros a; [reflexivity |].
  cbn [seq fold_right]. rewrite IH. destruct n; lia.
Qed.

Lemma next_id_seq (n : nat) : next_id (seq 1 n) = S n.
Proof. unfold next_id. rewrite max_seq. destruct n; reflexivity. Qed.

(** Appending a row with the next id keeps the ids 1, 2, ... *)
Lemma ids_app {R : Type} (id_of : R -> nat) (rows : list R) (r : R) :
  id_of <$> rows = seq 1 (length rows) ->
  id_of r = next_id (id_of <$> rows) ->
  id_of <$> app rows [r] = seq 1 (length (app rows [r])).
Proof.
  intros Hrows Hr. rewrite fmap_app, length_app. cbn [length fmap list_fmap].
  rewrite Hr, Hrows, next_id_seq, Nat.add_1_r, seq_S. reflexivity.
Qed.

(** A complete row of each table: the columns declared [NOT NULL] hold
    texts that are not empty, and no id is resolved yet. *)
Local Abbreviation grant_ok r :=
  (nonempty (Grant.granter_xml_id r) = true
   /\ strip (Grant.granter_xml_id r) = Grant.granter_xml_id r
   /\ nonempty (Grant.granter_type r) = true
   /\ nonempty (Grant.granted_xml_id r) = true
   /\ strip (Grant.granted_xml_id r) = Grant.granted_xml_id r
   /\ nonempty (Grant.granted_type r) = true
   /\ Grant.granter_compendium_id r = None
   /\ Grant.granted_compendium_id r = None).
Local Abbreviation statadd_ok r :=
  (nonempty (StatAdd.granter_xml_id r) = true
   /\ strip (StatAdd.granter_xml_id r) = StatAdd.granter_xml_id r
   /\ nonempty (StatAdd.granter_type r) = true
   /\ nonempty (StatAdd.stat_name r) = true
   /\ nonempty (StatAdd.value r) = true
   /\ StatAdd.granter_compendium_id r = None).
Local Abbreviation modify_ok r :=
  (nonempty (Modify.granter_xml_id r) = true
   /\ strip (Modify.granter_xml_id r) = Modify.granter_xml_id r
   /\ nonempty (Modify.granter_type r) = true
   /\ nonempty (Modify.target_name r) = true
   /\ nonempty (Modify.field r) = true
   /\ Modify.granter_compendium_id r = None).

(** What every step of the extraction keeps, for a store [d] and counters
    [(g, s, m)] that started at a store with [g0], [s0], [m0] rows. *)
Local Abbreviation kept d g s m g0 s0 m0 :=
  ((Grant.id <$> GrantsDb.grants d = seq 1 (length (GrantsDb.grants d))
    /\ StatAdd.id <$> GrantsDb.stat_additions d
       = seq 1 (length (GrantsDb.stat_additions d))
    /\ Modify.id <$> GrantsDb.modifies d
       = seq 1 (length (GrantsDb.modifies d)))
   /\ (length (GrantsDb.grants d) = g0 + g
       /\ length (GrantsDb.stat_additions d) = s0 + s
       /\ length (GrantsDb.modifies d) = m0 + m)
   /\ (Forall (fun r => grant_ok r) (GrantsDb.grants d)
       /\ Forall (fun r => statadd_ok r) (GrantsDb.stat_additions d)
       /\ Forall (fun r => modify_ok r) (GrantsDb.modifies d))).

Lemma process_child_kept (granter_xml_id granter_type : string)
    (granter_name : option string) (id_to_name : gmap string string)
    (p : progress) (child : element) (g0 s0 m0 : nat) :
  nonempty granter_xml_id = true -> strip granter_xml_id = granter_xml_id ->
  nonempty granter_type = true ->
  kept (db p) (grant_count p) (statadd_count p) (modify_count p) g0 s0 m0 ->
  kept
    (db (process_child granter_xml_id granter_type granter_name id_to_name
           p child))
    (grant_count (process_child granter_xml_id granter_type granter_name
                    id_to_name p child))
    (statadd_count (process_child granter_xml_id granter_type granter_name
                      id_to_name p child))
    (modify_count (process_child granter_xml_id granter_type granter_name
                     id_to_name p child))
    g0 s0 m0.
Proof.
  intros Hx Hxs Ht ((Jg & Js & Jm) & (Cg & Cs & Cm) & (Rg & Rs & Rm)).
  unfold process_child.
  destruct (String.eqb (lower (tag child)) "grant").
  { destruct (safe_str (get child "name")) as [a |] eqn:Ha;
      [| repeat split; assumption].
    destruct (safe_str (get child "type")) as [b |] eqn:Hb;
      [| repeat split; assumption].
    destruct (safe_str_Some _ _ Ha) as [Ha1 Ha2].
    destruct (safe_str_Some _ _ Hb) as [Hb1 _].
    cbn [db grant_count statadd_count modify_count insert_grant
         GrantsDb.grants GrantsDb.stat_additions GrantsDb.modifies].
    split; [split; [| split; assumption] | split; [split; [| split] |]].
    - apply ids_app; [exact Jg | reflexivity].
    - rewrite length_app. cbn [length]. lia.
    - exact Cs.
    - exact Cm.
    - split; [| split; assumption]. apply Forall_app. split; [exact Rg |].
      repeat constructor; assumption. }
  destruct (String.eqb (lower (tag child)) "statadd").
  { destruct (safe_str (get child "name")) as [a |] eqn:Ha;
      [| repeat split; assumption].
    destruct (safe_str (get child "value")) as [b |] eqn:Hb;
      [| repeat split; assumption].
    destruct (safe_str_Some _ _ Ha) as [Ha1 _].
    destruct (safe_str_Some _ _ Hb) as [Hb1 _].
    cbn [db grant_count statadd_count modify_count insert_statadd
         GrantsDb.grants GrantsDb.stat_additions GrantsDb.modifies].
    split; [split; [| split] | split; [split; [| split] |]]; try assumption.
    - apply ids_app; [exact Js | reflexivity].
    - rewrite length_app. cbn [length]. lia.
    - split; [exact Rg |]. split; [| exact Rm].
      apply Forall_app. split; [exact Rs |].
      repeat constructor; assumption. }
  destruct (String.eqb (lower (tag child)) "modify");
    [| repeat split; assumption].
  destruct (safe_str (get child "name")) as [a |] eqn:Ha;
    [| repeat split; assumption].
  destruct (safe_str (or_else (get child "Field") (get child "field")))
    as [b |] eqn:Hb; [| repeat split; assumption].
  destruct (safe_str_Some _ _ Ha) as [Ha1 _].
  destruct (safe_str_Some _ _ Hb) as [Hb1 _].
  cbn [db grant_count statadd_count modify_count insert_modify
       GrantsDb.grants GrantsDb.stat_additions GrantsDb.modifies].
  split; [split; [| split] | split; [split; [| split] |]]; try assumption.
  - apply ids_app; [exact Jm | reflexivity].
  - rewrite length_app. cbn [length]. lia.
  - split; [exact Rg |]. split; [exact Rs |].
    apply Forall_app. split; [exact Rm |].
    repeat constructor; assumption.
Qed.

Lemma process_children_kept (granter_xml_id granter_type : string)
    (granter_name : option string) (id_to_name : gmap string string)
    (cs : list element) (p : progress) (g0 s0 m0 : nat) :
  nonempty granter_xml_id = true -> strip granter_xml_id = granter_xml_id ->
  nonempty granter_type = true ->
  kept (db p) (grant_count p) (statadd_count p) (modify_count p) g0 s0 m0 ->
  kept
    (db (fold_left
           (process_child granter_xml_id granter_type granter_name id_to_name)
           cs p))
    (grant_count
       (fold_left
          (process_child granter_xml_id granter_type granter_name id_to_name)
          cs p))
    (statadd_count
       (fold_left
          (process_child granter_xml_id granter_type granter_name id_to_name)
          cs p))
    (modify_count
       (fold_left
          (process_child granter_xml_id granter_type granter_name id_to_name)
          cs p))
    g0 s0 m0.
Proof.
  intros Hx Hxs Ht. revert p.
  induction cs as [| child cs IH]; intros p Hp; [exact Hp |].
  cbn [fold_left]. apply IH.
  apply process_child_kept; assumption.
Qed.

Lemma process_rules_element_kept (elem : element)
    (id_to_name : gmap string string) (d : GrantsDb.t) (g0 s0 m0 : nat) :
  kept d 0 0 0 g0 s0 m0 ->
  kept (process_rules_element elem id_to_name d).1
    (process_rules_element elem id_to_name d).2.1.1
    (process_rules_element elem id_to_name d).2.1.2
    (process_rules_element elem id_to_name d).2.2
    g0 s0 m0.
Proof.
  intros Hd. unfold process_rules_element.
  destruct (safe_str (get elem "internal-id")) as [x |] eqn:Hx;
    [| exact Hd].
  destruct (safe_str (get elem "type")) as [t |] eqn:Ht; [| exact Hd].
  destruct (find_child "rules" elem) as [rules |]; [| exact Hd].
  destruct (safe_str_Some _ _ Hx) as [Hx1 Hx2].
  destruct (safe_str_Some _ _ Ht) as [Ht1 _].
  cbn [fst snd].
  apply (process_children_kept x t (safe_str (get elem "name")) id_to_name
           (children rules)
           {| db := d; grant_count := 0; statadd_count := 0;
              modify_count := 0; ordinal := 0 |} g0 s0 m0 Hx1 Hx2 Ht1).
  exact Hd.
Qed.

Lemma main_fold_kept (id_to_name : gmap string string) (elems : list element)
    (d : GrantsDb.t) (tg ts tm n : nat) :
  kept d tg ts tm 0 0 0 ->
  kept
    (fold_left
       (fun '(d, (tg, ts, tm), n) elem =>
          let '(d', (g, s, m)) := process_rules_element elem id_to_name d in
          (d', (tg + g, ts + s, tm + m), n + 1))
       elems (d, (tg, ts, tm), n)).1.1
    (fold_left
       (fun '(d, (tg, ts, tm), n) elem =>
          let '(d', (g, s, m)) := process_rules_element elem id_to_name d in
          (d', (tg + g, ts + s, tm + m), n + 1))
       elems (d, (tg, ts, tm), n)).1.2.1.1
    (fold_left
       (fun '(d, (tg, ts, tm), n) elem =>
          let '(d', (g, s, m)) := process_rules_element elem id_to_name d in
          (d', (tg + g, ts + s, tm + m), n + 1))
       elems (d, (tg, ts, tm), n)).1.2.1.2
    (fold_left
       (fun '(d, (tg, ts, tm), n) elem =>
          let '(d', (g, s, m)) := process_rules_element elem id_to_name d in
          (d', (tg + g, ts + s, tm + m), n + 1))
       elems (d, (tg, ts, tm), n)).1.2.2
    0 0 0
  /\ (fold_left
        (fun '(d, (tg, ts, tm), n) elem =>
           let '(d', (g, s, m)) := process_rules_element elem id_to_name d in
           (d', (tg + g, ts + s, tm + m), n + 1))
        elems (d, (tg, ts, tm), n)).2 = n + length elems.
Proof.
  revert d tg ts tm n.
  induction elems as [| elem elems IH]; intros d tg ts tm n Hd.
  - cbn [fold_left fst snd length]. split; [exact Hd | lia].
  - cbn [fold_left length].
    destruct Hd as (J & (Cg & Cs & Cm) & R).
    pose proof (process_rules_element_kept elem id_to_name d
                  (length (GrantsDb.grants d))
                  (length (GrantsDb.stat_additions d))
                  (length (GrantsDb.modifies d))) as Hstep.
    destruct (process_rules_element elem id_to_name d) as [d' [[g s] m]].
    cbn [fst snd] in Hstep.
    destruct Hstep as (J' & (Cg' & Cs' & Cm') & R').
    { split; [exact J |]. split; [| exact R]. repeat split; lia. }
    destruct (IH d' (tg + g) (ts + s) (tm + m) (n + 1)) as [Hk Hn].
    { split; [exact J' |]. split; [| exact R']. repeat split; lia. }
    split; [exact Hk | rewrite Hn; lia].
Qed.

(** X13.  The extractor numbers the rows of each table 1, 2, 3, ... in the
    order it writes them, and the counts it reports are the numbers of rows
    of the three tables; every [RulesElement] of the root is counted as
    processed, also one that yields no row. *)
Theorem extraction_counts_its_rows (now : string) (root : element)
    (old : option GrantsDb.t) :
  Grant.id <$> GrantsDb.grants (main now root old).1
  = seq 1 (total_grants (main now root old).2)
  /\ StatAdd.id <$> GrantsDb.stat_additions (main now root old).1
     = seq 1 (total_statadds (main now root old).2)
  /\ Modify.id <$> GrantsDb.modifies (main now root old).1
     = seq 1 (total_modifies (main now root old).2)
  /\ total_grants (main now root old).2
     = length (GrantsDb.grants (main now root old).1)
  /\ total_statadds (main now root old).2
     = length (GrantsDb.stat_additions (main now root old).1)
  /\ total_modifies (main now root old).2
     = length (GrantsDb.modifies (main now root old).1)
  /\ rules_elements_processed (main now root old).2
     = length (findall "RulesElement" root).
Proof.
  unfold main.
  destruct (main_fold_kept (build_id_to_name root)
              (findall "RulesElement" root) create_schema 0 0 0 0)
    as [((Jg & Js & Jm) & (Cg & Cs & Cm) & _) Hn].
  { repeat split; try reflexivity; constructor. }
  destruct (fold_left _ (findall "RulesElement" root) _)
    as [[d [[g s] m]] n].
  cbn [fst snd] in *.
  cbn [GrantsDb.grants GrantsDb.stat_additions GrantsDb.modifies
       total_grants total_statadds total_modifies rules_elements_processed].
  rewrite Jg, Js, Jm, Cg, Cs, Cm, Hn. repeat split; reflexivity.
Qed.

(** X14.  Every row the extractor writes is complete: the columns declared
    [NOT NULL] (the granter's reference and type, the granted reference and
    type of a grant, the name and value of a stat addition, the target name
    and field of a modification) hold texts that are not empty, the
    references have no blank at either end, and no resolved id is set. *)
Theorem extracted_rows_are_complete (now : string) (root : element)
    (old : option GrantsDb.t) :
  Forall
    (fun r =>
       nonempty (Grant.granter_xml_id r) = true
       /\ strip (Grant.granter_xml_id r) = Grant.granter_xml_id r
       /\ nonempty (Grant.granter_type r) = true
       /\ nonempty (Grant.granted_xml_id r) = true
       /\ strip (Grant.granted_xml_id r) = Grant.granted_xml_id r
       /\ nonempty (Grant.granted_type r) = true
       /\ Grant.granter_compendium_id r = None
       /\ Grant.granted_compendium_id r = None)
    (GrantsDb.grants (main now root old).1)
  /\ Forall
       (fun r =>
          nonempty (StatAdd.granter_xml_id r) = true
          /\ strip (StatAdd.granter_xml_id r) = StatAdd.granter_xml_id r
          /\ nonempty (StatAdd.granter_type r) = true
          /\ nonempty (StatAdd.stat_name r) = true
          /\ nonempty (StatAdd.value r) = true
          /\ StatAdd.granter_compendium_id r = None)
       (GrantsDb.stat_additions (main now root old).1)
  /\ Forall
       (fun r =>
          nonempty (Modify.granter_xml_id r) = true
          /\ strip (Modify.granter_xml_id r) = Modify.granter_xml_id r
          /\ nonempty (Modify.granter_type r) = true
          /\ nonempty (Modify.target_name r) = true
          /\ nonempty (Modify.field r) = true
          /\ Modify.granter_compendium_id r = None)
       (GrantsDb.modifies (main now root old).1).
Proof.
  unfold main.
  destruct (main_fold_kept (build_id_to_name root)
              (findall "RulesElement" root) create_schema 0 0 0 0)
    as [(_ & _ & (Rg & Rs & Rm)) _].
  { repeat split; try reflexivity; constructor. }
  destruct (fold_left _ (findall "RulesElement" root) _)
    as [[d [[g s] m]] n].
  cbn [fst snd] in *.
  cbn [GrantsDb.grants GrantsDb.stat_additions GrantsDb.modifies].
  repeat split; assumption.
Qed.

(** The row ids of an extracted store are distinct. *)
Lemma extracted_ids_distinct (now : string) (root : element)
    (old : option GrantsDb.t) :
  NoDup (map Grant.id (GrantsDb.grants (main now root old).1))
  /\ NoDup (map StatAdd.id (GrantsDb.stat_additions (main now root old).1))
  /\ NoDup (map Modify.id (GrantsDb.modifies (main now root old).1)).
Proof.
  unfold main.
  destruct (main_fold_kept (build_id_to_name root)
              (findall "RulesElement" root) create_schema 0 0 0 0)
    as [((Jg & Js & Jm) & _ & _) _].
  { repeat split; try reflexivity; constructor. }
  destruct (fold_left _ (findall "RulesElement" root) _)
    as [[d [[g s] m]] n].
  cbn [fst snd] in *.
  cbn [GrantsDb.grants GrantsDb.stat_additions GrantsDb.modifies].
  change (@map Grant.row nat) with (@fmap list _ Grant.row nat).
  change (@map StatAdd.row nat) with (@fmap list _ StatAdd.row nat).
  change (@map Modify.row nat) with (@fmap list _ Modify.row nat).
  rewrite Jg, Js, Jm. repeat split; apply NoDup_seq.
Qed.

End ExtractInvariants.

(* ===================================================================== *)
(** * What the canonical store keeps *)
(* ===================================================================== *)

Section StoreInvariants.
Import PyStr Json Build.

Variable rt : runtime.

(** The ids of the rows of a table that are not [NULL]. *)
Local Abbreviation ids rows :=
  (List.filter (fun v => negb (is_null v)) (map (column "id") rows)).

(** There is a power with this id. *)
Local Abbreviation has_power T x :=
  (exists row,
     In row (default [] ((T : gmap string (list srow)) !! "powers"))
     /\ column "id" row = SText x).

(** Ids are unique within a table and no name is [NULL]. *)
Local Abbreviation tables_ok T :=
  (forall t rows, (T : gmap string (list srow)) !! t = Some rows ->
     NoDup (ids rows)
     /\ Forall (fun r => is_null (column "name" r) = false) rows).

(** The tag relations and the log only name powers that are there. *)
Local Abbreviation refs_ok T s :=
  (Forall (fun pk => has_power T pk.1) (power_keywords s)
   /\ Forall (fun pk => has_power T pk.1) (power_damage_types s)
   /\ Forall (fun pk => has_power T pk.1) (power_conditions s)
   /\ Forall (fun l => has_power T (entry_id l)) (parse_log s)).

(** No pair twice in a relation, and the log numbered 1, 2, ... *)
Local Abbreviation rels_ok s :=
  (NoDup (power_keywords s) /\ NoDup (power_damage_types s)
   /\ NoDup (power_conditions s) /\ NoDup (name_index s)
   /\ map log_id (parse_log s) = seq 1 (length (parse_log s))).

Local Abbreviation sound s :=
  (tables_ok (tables s) /\ refs_ok (tables s) s /\ rels_ok s).

Lemma same_id_spec (i : sqlval) (r : srow) :
  same_id i r = true <-> i = column "id" r /\ is_null i = false.
Proof.
  unfold same_id. destruct i as [| a | a];
    destruct (column "id" r) as [| b | b]; cbn [is_null];
    try (split; [discriminate | intros [H _]; discriminate H]);
    try (split; [discriminate | intros [_ H]; discriminate H]).
  - rewrite Z.eqb_eq. split; [intros ->; auto | intros [[= ->] _]; auto].
  - rewrite String.eqb_eq. split; [intros ->; auto | intros [[= ->] _]; auto].
Qed.

Lemma ids_filter_In (P : srow -> bool) (rows : list srow) (v : sqlval) :
  In v (ids (List.filter P rows)) -> In v (ids rows).
Proof.
  induction rows as [| r rows IH]; cbn [List.filter map]; [auto |].
  destruct (P r); cbn [map List.filter].
  - destruct (negb (is_null (column "id" r))); cbn [In]; tauto.
  - destruct (negb (is_null (column "id" r))); cbn [In]; tauto.
Qed.

(** [INSERT OR REPLACE] first removes the row that has the id. *)
Lemma ids_kept (i : sqlval) (rows : list srow) :
  NoDup (ids rows) ->
  NoDup (ids (List.filter (fun r' => negb (same_id i r')) rows))
  /\ ~ In i (ids (List.filter (fun r' => negb (same_id i r')) rows)).
Proof.
  induction rows as [| r rows IH]; cbn [List.filter map].
  - intros _. split; [constructor | intros []].
  - destruct (negb (is_null (column "id" r))) eqn:Hnn.
    + intros Hn. apply NoDup_cons in Hn. destruct Hn as [Hr Hn].
      destruct (IH Hn) as [IH1 IH2].
      destruct (same_id i r) eqn:Hs; cbn [negb List.filter map].
      * auto.
      * rewrite Hnn. split.
        -- apply NoDup_cons. split; [| exact IH1].
           intros Hin. apply Hr. apply list_elem_of_In.
           apply list_elem_of_In in Hin. exact (ids_filter_In _ _ _ Hin).
        -- intros [Heq | Hin]; [| exact (IH2 Hin)].
           assert (Ht : same_id i r = true).
           { apply same_id_spec. split; [auto |]. subst i.
             destruct (is_null (column "id" r)); [discriminate | reflexivity]. }
           congruence.
    + intros Hn. destruct (IH Hn) as [IH1 IH2].
      destruct (same_id i r) eqn:Hs; cbn [negb List.filter map].
      * auto.
      * rewrite Hnn. auto.
Qed.

Lemma ids_app_one (rows : list srow) (r : srow) :
  ids (app rows [r])
  = app (ids rows)
      (if negb (is_null (column "id" r)) then [column "id" r] else []).
Proof.
  rewrite map_app, List.filter_app. cbn [map List.filter]. reflexivity.
Qed.

Lemma insert_or_replace_tables (table : string) (r : srow) (s s' : store) :
  insert_or_replace table r s = Done s' ->
  tables s'
  = <[table := app (List.filter (fun r' => negb (same_id (column "id" r) r'))
                      (default [] (tables s !! table))) [r]]> (tables s)
  /\ is_null (column "name" r) = false
  /\ power_keywords s' = power_keywords s
  /\ power_damage_types s' = power_damage_types s
  /\ power_conditions s' = power_conditions s
  /\ name_index s' = name_index s
  /\ parse_log s' = parse_log s
  /\ meta s' = meta s
  /\ categories s' = categories s.
Proof.
  unfold insert_or_replace.
  destruct (is_null (column "name" r)); [discriminate |].
  intros [= <-]. repeat split; reflexivity.
Qed.

(** Writing a row keeps the ids of every table unique and the names
    present. *)
Lemma insert_or_replace_tables_ok (table : string) (r : srow) (s s' : store) :
  insert_or_replace table r s = Done s' ->
  tables_ok (tables s) -> tables_ok (tables s').
Proof.
  intros Hins Hok. destruct (insert_or_replace_tables _ _ _ _ Hins)
    as (Ht & Hname & _).
  intros t rows. rewrite Ht, lookup_insert. case_decide; [| apply Hok].
  intros [= <-].
  assert (Hrows : NoDup (ids (default [] (tables s !! table)))
                  /\ Forall (fun r => is_null (column "name" r) = false)
                       (default [] (tables s !! table))).
  { destruct (tables s !! table) as [rows |] eqn:Hl; cbn [default from_option id].
    - exact (Hok table rows Hl).
    - split; constructor. }
  destruct Hrows as [Hn Hf].
  destruct (ids_kept (column "id" r) _ Hn) as [Hk1 Hk2]. split.
  - rewrite ids_app_one. apply NoDup_app. split; [exact Hk1 |].
    destruct (negb (is_null (column "id" r))).
    + split; [| apply NoDup_singleton].
      intros y Hy Hk. apply list_elem_of_In in Hy, Hk.
      destruct Hk as [<- | []]. exact (Hk2 Hy).
    + split; [| constructor].
      intros y _ Hk. apply list_elem_of_In in Hk. destruct Hk.
  - apply Forall_app. split.
    + apply Forall_forall. intros x Hx. apply list_elem_of_In, filter_In in Hx.
      rewrite Forall_forall in Hf. apply Hf, list_elem_of_In, Hx.
    + repeat constructor. exact Hname.
Qed.

(** A power that was there is there after any row is written, and the
    power just written is there. *)
Lemma insert_or_replace_has_power (table : string) (r : srow) (s s' : store)
    (x : string) :
  insert_or_replace table r s = Done s' ->
  has_power (tables s) x
  \/ (table = "powers" /\ column "id" r = SText x) ->
  has_power (tables s') x.
Proof.
  intros Hins Hx. destruct (insert_or_replace_tables _ _ _ _ Hins)
    as (Ht & _). rewrite Ht.
  destruct (String.eqb_spec table "powers") as [-> | Hne].
  - rewrite lookup_insert_eq. cbn [default from_option id].
    destruct Hx as [(row & Hin & Hid) | [_ Hid]].
    + destruct (same_id (column "id" r) row) eqn:Hs.
      * apply same_id_spec in Hs. destruct Hs as [Heq _].
        exists r. split; [apply in_or_app; right; left; reflexivity |].
        congruence.
      * exists row. split; [| exact Hid]. apply in_or_app. left.
        apply filter_In. split; [exact Hin | rewrite Hs; reflexivity].
    + exists r. split; [apply in_or_app; right; left; reflexivity | exact Hid].
  - rewrite lookup_insert_ne by congruence.
    destruct Hx as [H | [H _]]; [exact H | congruence].
Qed.

Lemma insert_or_replace_sound (table : string) (r : srow) (s s' : store) :
  insert_or_replace table r s = Done s' -> sound s -> sound s'.
Proof.
  intros Hins (Ht & (R1 & R2 & R3 & R4) & Hr).
  pose proof (insert_or_replace_tables_ok _ _ _ _ Hins Ht) as Ht'.
  assert (Hmono : forall x, has_power (tables s) x -> has_power (tables s') x).
  { intros x Hx. apply (insert_or_replace_has_power table r s s' x Hins).
    left. exact Hx. }
  destruct (insert_or_replace_tables _ _ _ _ Hins)
    as (_ & _ & -> & -> & -> & E4 & E5 & _).
  rewrite E4, E5. split; [exact Ht' |]. split; [| exact Hr].
  repeat split; eapply Forall_impl; eauto; cbv beta; auto.
Qed.

(** [INSERT OR IGNORE] into a tag relation. *)
Lemma tag_insert_ok (T : gmap string (list srow)) (pid : sqlval)
    (tag : string) (rel : list (string * string)) :
  (forall x, pid = SText x -> has_power T x) ->
  NoDup rel /\ Forall (fun pk => has_power T pk.1) rel ->
  NoDup (tag_insert pid tag rel)
  /\ Forall (fun pk => has_power T pk.1) (tag_insert pid tag rel).
Proof.
  intros Hp [Hn Hf]. unfold tag_insert. destruct pid as [| z | p]; auto.
  destruct (existsb _ rel) eqn:He; [auto |]. split.
  - apply NoDup_app. split; [exact Hn |]. split; [| apply NoDup_singleton].
    intros y Hy Hk. apply list_elem_of_In in Hy, Hk. destruct Hk as [<- | []].
    assert (Ht : existsb
                   (fun '(a, b) => String.eqb a p && String.eqb b tag) rel
                 = true).
    { apply existsb_exists. exists (p, tag). split; [exact Hy |].
      rewrite !String.eqb_refl. reflexivity. }
    congruence.
  - apply Forall_app. split; [exact Hf |]. repeat constructor.
    apply Hp. reflexivity.
Qed.

Lemma tag_inserts_ok (T : gmap string (list srow)) (pid : sqlval)
    (tags : list string) (rel : list (string * string)) :
  (forall x, pid = SText x -> has_power T x) ->
  NoDup rel /\ Forall (fun pk => has_power T pk.1) rel ->
  NoDup (fold_left (fun rel tag => tag_insert pid tag rel) tags rel)
  /\ Forall (fun pk => has_power T pk.1)
       (fold_left (fun rel tag => tag_insert pid tag rel) tags rel).
Proof.
  intros Hp. revert rel. induction tags as [| tag tags IH]; intros rel Hrel;
    [exact Hrel |].
  cbn [fold_left]. apply IH. apply tag_insert_ok; assumption.
Qed.

(** A row appended to the log. *)
Lemma log_insert_sound (e : sqlval) (f : string) (v so c : sqlval)
    (s s' : store) :
  log_insert rt e f v so c s = Done s' ->
  (forall x, e = SText x -> has_power (tables s) x) ->
  sound s -> sound s' /\ tables s' = tables s.
Proof.
  unfold log_insert. destruct e as [| z | x]; try discriminate.
  intros [= <-] Hp (Ht & (R1 & R2 & R3 & R4) & (N1 & N2 & N3 & N4 & Hl)).
  cbn [tables power_keywords power_damage_types power_conditions name_index
       parse_log].
  split; [| reflexivity]. split; [exact Ht |]. split.
  - repeat split; try assumption. apply Forall_app. split; [exact R4 |].
    repeat constructor. cbn [entry_id]. apply Hp. reflexivity.
  - repeat split; try assumption.
    rewrite map_app, length_app, Hl. cbn [map length log_id].
    rewrite Nat.add_1_r, seq_S. reflexivity.
Qed.

Lemma log_sources_sound (e : sqlval) (f : string)
    (sources : list (string * string * string)) (s : store) :
  (forall x, e = SText x -> has_power (tables s) x) ->
  sound s ->
  sound (log_sources rt e f sources s).1
  /\ tables (log_sources rt e f sources s).1 = tables s.
Proof.
  revert s. induction sources as [| [[so v] c] rest IH]; intros s Hp Hs;
    cbn [log_sources].
  - split; [exact Hs | reflexivity].
  - destruct (log_insert rt e f (SText v) (SText so) (SText c) s)
      as [s' |] eqn:Hins; [| split; [exact Hs | reflexivity]].
    destruct (log_insert_sound _ _ _ _ _ _ _ Hins Hp Hs) as [Hs' Ht'].
    destruct (IH s') as [H1 H2]; [rewrite Ht'; exact Hp | exact Hs' |].
    split; [exact H1 | rewrite H2; exact Ht'].
Qed.

Lemma keywords_sound (pid : sqlval) (tags : list string) (s : store) :
  (forall x, pid = SText x -> has_power (tables s) x) ->
  sound s ->
  sound
    (with_tags
       (fold_left (fun rel kw => tag_insert pid kw rel) tags
          (power_keywords s))
       (power_damage_types s) (power_conditions s) s).
Proof.
  intros Hp (Ht & (R1 & R2 & R3 & R4) & (N1 & N2 & N3 & N4 & Hl)).
  destruct (tag_inserts_ok (tables s) pid tags (power_keywords s) Hp
              (conj N1 R1)) as [N1' R1'].
  cbn [with_tags tables power_keywords power_damage_types power_conditions
       name_index parse_log].
  split; [exact Ht |]. split; repeat split; assumption.
Qed.

Lemma damage_types_sound (pid : sqlval) (tags : list string) (s : store) :
  (forall x, pid = SText x -> has_power (tables s) x) ->
  sound s ->
  sound
    (with_tags (power_keywords s)
       (fold_left (fun rel dt => tag_insert pid dt rel) tags
          (power_damage_types s))
       (power_conditions s) s).
Proof.
  intros Hp (Ht & (R1 & R2 & R3 & R4) & (N1 & N2 & N3 & N4 & Hl)).
  destruct (tag_inserts_ok (tables s) pid tags (power_damage_types s) Hp
              (conj N2 R2)) as [N2' R2'].
  cbn [with_tags tables power_keywords power_damage_types power_conditions
       name_index parse_log].
  split; [exact Ht |]. split; repeat split; assumption.
Qed.

Lemma conditions_sound (pid : sqlval) (tags : list string) (s : store) :
  (forall x, pid = SText x -> has_power (tables s) x) ->
  sound s ->
  sound
    (with_tags (power_keywords s) (power_damage_types s)
       (fold_left (fun rel cond => tag_insert pid cond rel) tags
          (power_conditions s)) s).
Proof.
  intros Hp (Ht & (R1 & R2 & R3 & R4) & (N1 & N2 & N3 & N4 & Hl)).
  destruct (tag_inserts_ok (tables s) pid tags (power_conditions s) Hp
              (conj N3 R3)) as [N3' R3'].
  cbn [with_tags tables power_keywords power_damage_types power_conditions
       name_index parse_log].
  split; [exact Ht |]. split; repeat split; assumption.
Qed.

(** The statements of [insert_powers] after the row is written. *)
Lemma power_tags_sound (p : power_row) (s : store) :
  (forall x, p_id p = SText x -> has_power (tables s) x) ->
  sound s -> sound (power_tags rt p s).
Proof.
  intros Hp Hs. unfold power_tags.
  destruct (if py_truthy rt (p_keywords_raw p)
            then as_text (p_keywords_raw p) else Done EmptyString)
    as [kw_text |]; [| exact Hs].
  cbv zeta.
  pose proof (keywords_sound (p_id p) (split_keywords kw_text) s Hp Hs) as Hs1.
  set (s1 := with_tags
               (fold_left (fun rel kw => tag_insert (p_id p) kw rel)
                  (split_keywords kw_text) (power_keywords s))
               (power_damage_types s) (power_conditions s) s) in *.
  assert (Hp1 : forall x, p_id p = SText x -> has_power (tables s1) x)
    by exact Hp.
  clearbody s1. clear Hp Hs.
  destruct (extract_damage_types rt (p_keywords_raw p))
    as [[damage_types dt_sources] |]; [| exact Hs1].
  pose proof (damage_types_sound (p_id p) (set_iter rt damage_types) s1
                Hp1 Hs1) as Hs2.
  set (s2 := with_tags (power_keywords s1)
               (fold_left (fun rel dt => tag_insert (p_id p) dt rel)
                  (set_iter rt damage_types) (power_damage_types s1))
               (power_conditions s1) s1) in *.
  assert (Hp2 : forall x, p_id p = SText x -> has_power (tables s2) x)
    by exact Hp1.
  clearbody s2. clear Hp1 Hs1.
  destruct (log_sources_sound (p_id p) "damage_type" dt_sources s2 Hp2 Hs2)
    as [Hs3 Ht3].
  destruct (log_sources rt (p_id p) "damage_type" dt_sources s2)
    as [s3 ok3]. cbn [fst] in Hs3, Ht3.
  destruct ok3; [| exact Hs3].
  assert (Hp3 : forall x, p_id p = SText x -> has_power (tables s3) x)
    by (rewrite Ht3; exact Hp2).
  clear Hp2 Hs2 Ht3.
  destruct (extract_conditions rt (p_html_body p) (p_search_text p))
    as [[conditions cond_sources] |]; [| exact Hs3].
  pose proof (conditions_sound (p_id p) (set_iter rt conditions) s3
                Hp3 Hs3) as Hs4.
  set (s4 := with_tags (power_keywords s3) (power_damage_types s3)
               (fold_left (fun rel cond => tag_insert (p_id p) cond rel)
                  (set_iter rt conditions) (power_conditions s3)) s3) in *.
  assert (Hp4 : forall x, p_id p = SText x -> has_power (tables s4) x)
    by exact Hp3.
  clearbody s4. clear Hp3 Hs3.
  destruct (log_sources_sound (p_id p) "condition" cond_sources s4 Hp4 Hs4)
    as [Hs5 Ht5].
  destruct (log_sources rt (p_id p) "condition" cond_sources s4)
    as [s5 ok5]. cbn [fst] in Hs5, Ht5.
  destruct ok5; [| exact Hs5].
  assert (Hp5 : forall x, p_id p = SText x -> has_power (tables s5) x)
    by (rewrite Ht5; exact Hp4).
  destruct (p_defense p) as [defense |]; [| exact Hs5].
  destruct (nonempty defense); [| exact Hs5].
  destruct (log_insert rt (p_id p) "defense_targeted" (SText defense)
              (SText "regex") (opt_text (p_defense_conf p)) s5)
    as [s6 |] eqn:Hins; [| exact Hs5].
  exact (proj1 (log_insert_sound _ _ _ _ _ _ _ Hins Hp5 Hs5)).
Qed.

Ltac step_outcome :=
  match goal with
  | |- and_then ?o _ = Done _ -> _ =>
      destruct o as [? |]; cbn [and_then]; [| discriminate]
  | |- (let '(_, _) := ?x in _) = Done _ -> _ => destruct x
  end.

(** The id the later statements of [insert_powers] use is the id of the row
    it writes. *)
Lemma power_record_id (col_map : list value)
    (html_bodies search_texts row : value) (p : power_row) :
  power_record rt col_map html_bodies search_texts row = Done p ->
  column "id" (p_params p) = p_id p.
Proof.
  unfold power_record. cbv zeta. repeat step_outcome.
  intros [= <-]. reflexivity.
Qed.

Lemma insert_powers_row_sound (col_map : list value)
    (html_bodies search_texts : value) (s : store) (row : value) :
  sound s ->
  sound (insert_powers_row rt col_map html_bodies search_texts s row).
Proof.
  intros Hs. unfold insert_powers_row.
  destruct (power_record rt col_map html_bodies search_texts row)
    as [p |] eqn:Hrec; [| exact Hs].
  destruct (insert_or_replace "powers" (p_params p) s) as [s' |] eqn:Hins;
    [| exact Hs].
  apply power_tags_sound.
  - intros x Hx.
    apply (insert_or_replace_has_power "powers" (p_params p) s s' x Hins).
    right. split; [reflexivity |].
    rewrite (power_record_id _ _ _ _ _ Hrec). exact Hx.
  - exact (insert_or_replace_sound _ _ _ _ Hins Hs).
Qed.

Lemma fold_sound {A : Type} (f : store -> A -> store) (l : list A)
    (s : store) :
  (forall s' a, sound s' -> sound (f s' a)) ->
  sound s -> sound (fold_left f l s).
Proof.
  intros Hf. revert s. induction l as [| a l IH]; intros s Hs; [exact Hs |].
  cbn [fold_left]. apply IH, Hf, Hs.
Qed.

Lemma insert_powers_sound (columns rows html_bodies search_texts : value)
    (s s' : store) :
  insert_powers rt columns rows html_bodies search_texts s = Done s' ->
  sound s -> sound s'.
Proof.
  unfold insert_powers.
  destruct (make_col_map columns) as [col_map |]; [| discriminate].
  destruct (py_iter rows) as [items |]; [| discriminate].
  cbn [and_then]. intros [= <-] Hs. apply fold_sound; [| exact Hs].
  intros s0 row. apply insert_powers_row_sound.
Qed.

Lemma insert_generic_row_sound (table_name : string) (col_map : list value)
    (col_mapping : list (string * string)) (html_bodies search_texts : value)
    (s : store) (row : value) :
  sound s ->
  sound
    (insert_generic_row rt table_name col_map col_mapping html_bodies
       search_texts s row).
Proof.
  intros Hs. unfold insert_generic_row.
  destruct (generic_values rt col_map col_mapping html_bodies search_texts row)
    as [[values level] |]; [| exact Hs].
  cbn [and_then]. destruct (bind_all rt values) as [r |]; [| exact Hs].
  cbn [and_then]. destruct level as [l |].
  - destruct (bind_int l) as [b |]; [| exact Hs]. cbn [and_then].
    destruct (insert_or_replace table_name (app r [("level", b)]) s)
      as [s' |] eqn:Hins; [| exact Hs].
    exact (insert_or_replace_sound _ _ _ _ Hins Hs).
  - destruct (insert_or_replace table_name r s) as [s' |] eqn:Hins;
      [| exact Hs].
    exact (insert_or_replace_sound _ _ _ _ Hins Hs).
Qed.

Lemma insert_generic_sound (table_name : string) (columns rows : value)
    (html_bodies search_texts : value) (col_mapping : list (string * string))
    (s s' : store) :
  insert_generic rt table_name columns rows html_bodies search_texts
    col_mapping s = Done s' ->
  sound s -> sound s'.
Proof.
  unfold insert_generic.
  destruct (make_col_map columns) as [col_map |]; [| discriminate].
  destruct (py_iter rows) as [items |]; [| discriminate].
  cbn [and_then]. intros [= <-] Hs. apply fold_sound; [| exact Hs].
  intros s0 row. apply insert_generic_row_sound.
Qed.

Lemma index_insert_sound (name_lower entry_id : string) (s : store) :
  sound s -> sound (index_insert name_lower entry_id s).
Proof.
  intros Hs. unfold index_insert.
  destruct (existsb _ (name_index s)) eqn:He; [exact Hs |].
  destruct Hs as (Ht & R & (N1 & N2 & N3 & N4 & Hl)).
  cbn [tables power_keywords power_damage_types power_conditions name_index
       parse_log].
  split; [exact Ht |]. split; [exact R |].
  repeat split; try assumption.
  apply NoDup_app. split; [exact N4 |]. split; [| apply NoDup_singleton].
  intros y Hy Hk. apply list_elem_of_In in Hy, Hk. destruct Hk as [<- | []].
  assert (Htrue : existsb
                    (fun '(a, b) =>
                       String.eqb a name_lower && String.eqb b entry_id)
                    (name_index s) = true).
  { apply existsb_exists. exists (name_lower, entry_id).
    split; [exact Hy |]. rewrite !String.eqb_refl. reflexivity. }
  congruence.
Qed.

Lemma build_name_index_sound (entries : list (string * value)) (s : store) :
  sound s -> sound (build_name_index rt entries s).
Proof.
  intros Hs. unfold build_name_index. apply fold_sound; [| exact Hs].
  intros s0 [name_lower entry_id] Hs0.
  destruct entry_id; try (apply index_insert_sound; exact Hs0).
  apply fold_sound; [| exact Hs0].
  intros s1 eid. apply index_insert_sound.
Qed.

Lemma create_schema_sound : sound create_schema.
Proof.
  split; [| split].
  - intros t rows Hl. unfold create_schema in Hl. cbn [tables] in Hl.
    rewrite lookup_empty in Hl. discriminate Hl.
  - repeat split; constructor.
  - repeat split; constructor.
Qed.

(** One turn of the loop over the categories. *)
Lemma build_category_sound (src : sources) (acc : outcome (store * nat))
    (entry : string * string) :
  match acc with Done (s, _) => sound s | Raised => True end ->
  match build_category rt src acc entry with
  | Done (s, _) => sound s
  | Raised => True
  end.
Proof.
  unfold build_category. destruct acc as [[s total_entries] |];
    cbn [and_then]; [| auto].
  destruct entry as [category table_name]. intros Hs.
  destruct (category_dirs src !! category) as [files |]; [| exact Hs].
  destruct (load_category_data files)
    as [[[columns rows] html_bodies] search_texts].
  destruct (negb (py_truthy rt rows)); [exact Hs |].
  match goal with
  | |- match and_then ?o _ with _ => _ end =>
      assert (Hstep : match o with Done s' => sound s' | Raised => True end);
      [| destruct o as [s' |]; cbn [and_then]; [| exact I]]
  end.
  - destruct (String.eqb category "power").
    + destruct (insert_powers rt columns rows html_bodies search_texts s)
        as [s' |] eqn:Hins; [| exact I].
      exact (insert_powers_sound _ _ _ _ _ _ Hins Hs).
    + destruct (assoc table_name generic_mappings) as [mapping |];
        [| exact Hs].
      destruct mapping as [| m mapping]; [exact Hs |].
      destruct (insert_generic rt table_name columns rows html_bodies
                  search_texts (m :: mapping) s) as [s' |] eqn:Hins;
        [| exact I].
      exact (insert_generic_sound _ _ _ _ _ _ _ _ Hins Hs).
  - destruct (py_len rows) as [n |]; cbn [and_then]; [| exact I].
    exact Hstep.
Qed.

Lemma build_categories_sound (src : sources) (l : list (string * string))
    (acc : outcome (store * nat)) :
  match acc with Done (s, _) => sound s | Raised => True end ->
  match fold_left (build_category rt src) l acc with
  | Done (s, _) => sound s
  | Raised => True
  end.
Proof.
  revert acc. induction l as [| entry l IH]; intros acc Hacc; [exact Hacc |].
  cbn [fold_left]. apply IH, build_category_sound, Hacc.
Qed.

(** The store a run leaves keeps the three invariants. *)
Lemma build_database_sound (src : sources) (existing : option store) :
  match build_database rt src existing with
  | Done s => sound s
  | Raised => True
  end.
Proof.
  unfold build_database.
  pose proof (build_categories_sound src category_table_map
                (Done (create_schema, 0)) create_schema_sound) as Hs.
  destruct (fold_left (build_category rt src) category_table_map
              (Done (create_schema, 0))) as [[s total_entries] |];
    cbn [and_then]; [| exact I].
  cbv zeta.
  destruct (name_index_js src) as [content |].
  - exact (build_name_index_sound _ _ Hs).
  - exact Hs.
Qed.

(** X15.  In the store a run of [build_database] leaves, no table holds two
    rows with the same id that is not NULL, and no row has the name NULL:
    [INSERT OR REPLACE] with the columns [id TEXT PRIMARY KEY] and
    [name TEXT NOT NULL] keeps the last row written for an id, and a row
    without a name is not written. *)
Theorem built_tables_have_unique_ids (src : sources)
    (existing : option store) :
  match build_database rt src existing with
  | Done s =>
      forall t rows, tables s !! t = Some rows ->
        NoDup (List.filter (fun v => negb (is_null v))
                 (map (column "id") rows))
        /\ Forall (fun r => is_null (column "name" r) = false) rows
  | Raised => True
  end.
Proof.
  pose proof (build_database_sound src existing) as Hs.
  destruct (build_database rt src existing) as [s |]; [| exact I].
  exact (proj1 Hs).
Qed.

(** X16.  Every row of [power_keywords], [power_damage_types],
    [power_conditions] and [_parse_log] in the store a run leaves names a
    power that is in the table [powers]: the rows are written only after the
    row of the power, and a later row with the same id replaces it under that
    id.  The schema declares the foreign keys; the code is what keeps them. *)
Theorem built_tags_name_stored_powers (src : sources)
    (existing : option store) :
  match build_database rt src existing with
  | Done s =>
      Forall (fun pk => has_power (tables s) pk.1) (power_keywords s)
      /\ Forall (fun pk => has_power (tables s) pk.1) (power_damage_types s)
      /\ Forall (fun pk => has_power (tables s) pk.1) (power_conditions s)
      /\ Forall (fun l => has_power (tables s) (entry_id l)) (parse_log s)
  | Raised => True
  end.
Proof.
  pose proof (build_database_sound src existing) as Hs.
  destruct (build_database rt src existing) as [s |]; [| exact I].
  exact (proj1 (proj2 Hs)).
Qed.

(** X17.  In the store a run leaves no pair occurs twice in
    [power_keywords], [power_damage_types], [power_conditions] or
    [name_index] ([INSERT OR IGNORE] on the pair as the key), and the rows of
    [_parse_log] are numbered 1, 2, ..., n in the order they were written. *)
Theorem built_relations_have_no_duplicates (src : sources)
    (existing : option store) :
  match build_database rt src existing with
  | Done s =>
      NoDup (power_keywords s) /\ NoDup (power_damage_types s)
      /\ NoDup (power_conditions s) /\ NoDup (name_index s)
      /\ map log_id (parse_log s) = seq 1 (length (parse_log s))
  | Raised => True
  end.
Proof.
  pose proof (build_database_sound src existing) as Hs.
  destruct (build_database rt src existing) as [s |]; [| exact I].
  exact (proj2 (proj2 Hs)).
Qed.

(** ** The two bookkeeping tables *)

(** Nothing but the end of a turn of the category loop and the end of the
    run writes to [_categories] and [_meta]. *)
Local Abbreviation same_books s s' :=
  (meta s' = meta s /\ categories s' = categories s).

Lemma insert_or_replace_books (table : string) (r : srow) (s s' : store) :
  insert_or_replace table r s = Done s' -> same_books s s'.
Proof.
  intros H. destruct (insert_or_replace_tables _ _ _ _ H)
    as (_ & _ & _ & _ & _ & _ & _ & Hm & Hc). auto.
Qed.

Lemma log_sources_books (e : sqlval) (f : string)
    (sources : list (string * string * string)) (s : store) :
  same_books s (log_sources rt e f sources s).1.
Proof.
  revert s. induction sources as [| [[so v] c] rest IH]; intros s;
    cbn [log_sources]; [auto |].
  unfold log_insert. destruct e as [| z | x]; cbn [fst]; auto.
  match goal with |- context [log_sources rt _ _ rest ?s1] =>
    destruct (IH s1) as [H1 H2] end.
  split; [rewrite H1 | rewrite H2]; reflexivity.
Qed.

Lemma power_tags_books (p : power_row) (s : store) :
  same_books s (power_tags rt p s).
Proof.
  unfold power_tags.
  destruct (if py_truthy rt (p_keywords_raw p)
            then as_text (p_keywords_raw p) else Done EmptyString)
    as [kw_text |]; [| auto].
  cbv zeta.
  destruct (extract_damage_types rt (p_keywords_raw p))
    as [[damage_types dt_sources] |]; [| auto].
  match goal with |- context [log_sources rt ?e ?f ?l ?s1] =>
    pose proof (log_sources_books e f l s1) as H3;
    destruct (log_sources rt e f l s1) as [s3 ok3] end.
  cbn [fst with_tags meta categories] in H3.
  destruct ok3; [| exact H3].
  destruct (extract_conditions rt (p_html_body p) (p_search_text p))
    as [[conditions cond_sources] |]; [| exact H3].
  match goal with |- context [log_sources rt ?e ?f ?l ?s1] =>
    pose proof (log_sources_books e f l s1) as H5;
    destruct (log_sources rt e f l s1) as [s5 ok5] end.
  cbn [fst with_tags meta categories] in H5.
  assert (H35 : same_books s s5).
  { destruct H3 as [A B], H5 as [C D]. split; congruence. }
  destruct ok5; [| exact H35].
  destruct (p_defense p) as [defense |]; [| exact H35].
  destruct (nonempty defense); [| exact H35].
  unfold log_insert. destruct (p_id p); exact H35.
Qed.

Lemma insert_powers_row_books (col_map : list value)
    (html_bodies search_texts : value) (s : store) (row : value) :
  same_books s (insert_powers_row rt col_map html_bodies search_texts s row).
Proof.
  unfold insert_powers_row.
  destruct (power_record rt col_map html_bodies search_texts row)
    as [p |]; [| auto].
  destruct (insert_or_replace "powers" (p_params p) s) as [s' |] eqn:Hins;
    [| auto].
  destruct (insert_or_replace_books _ _ _ _ Hins) as [A B].
  destruct (power_tags_books p s') as [C D]. split; congruence.
Qed.

Lemma insert_generic_row_books (table_name : string) (col_map : list value)
    (col_mapping : list (string * string)) (html_bodies search_texts : value)
    (s : store) (row : value) :
  same_books s
    (insert_generic_row rt table_name col_map col_mapping html_bodies
       search_texts s row).
Proof.
  unfold insert_generic_row.
  destruct (generic_values rt col_map col_mapping html_bodies search_texts row)
    as [[values level] |]; [| auto].
  cbn [and_then]. destruct (bind_all rt values) as [r |]; [| auto].
  cbn [and_then]. destruct level as [l |].
  - destruct (bind_int l) as [b |]; [| auto]. cbn [and_then].
    destruct (insert_or_replace table_name (app r [("level", b)]) s)
      as [s' |] eqn:Hins; [| auto].
    exact (insert_or_replace_books _ _ _ _ Hins).
  - destruct (insert_or_replace table_name r s) as [s' |] eqn:Hins;
      [| auto].
    exact (insert_or_replace_books _ _ _ _ Hins).
Qed.

Lemma fold_books {A : Type} (f : store -> A -> store) (l : list A)
    (s : store) :
  (forall s' a, same_books s' (f s' a)) -> same_books s (fold_left f l s).
Proof.
  intros Hf. revert s. induction l as [| a l IH]; intros s; [auto |].
  cbn [fold_left]. destruct (IH (f s a)) as [A1 B1].
  destruct (Hf s a) as [C D]. split; congruence.
Qed.

Lemma insert_powers_books (columns rows html_bodies search_texts : value)
    (s s' : store) :
  insert_powers rt columns rows html_bodies search_texts s = Done s' ->
  same_books s s'.
Proof.
  unfold insert_powers.
  destruct (make_col_map columns) as [col_map |]; [| discriminate].
  destruct (py_iter rows) as [items |]; [| discriminate].
  cbn [and_then]. intros [= <-]. apply fold_books.
  intros s0 row. apply insert_powers_row_books.
Qed.

Lemma insert_generic_books (table_name : string) (columns rows : value)
    (html_bodies search_texts : value) (col_mapping : list (string * string))
    (s s' : store) :
  insert_generic rt table_name columns rows html_bodies search_texts
    col_mapping s = Done s' ->
  same_books s s'.
Proof.
  unfold insert_generic.
  destruct (make_col_map columns) as [col_map |]; [| discriminate].
  destruct (py_iter rows) as [items |]; [| discriminate].
  cbn [and_then]. intros [= <-]. apply fold_books.
  intros s0 row. apply insert_generic_row_books.
Qed.

Lemma build_name_index_books (entries : list (string * value)) (s : store) :
  same_books s (build_name_index rt entries s).
Proof.
  assert (Hi : forall a b s0, same_books s0 (index_insert a b s0)).
  { intros a b s0. unfold index_insert.
    destruct (existsb _ (name_index s0)); auto. }
  unfold build_name_index. apply fold_books.
  intros s0 [name_lower entry_id].
  destruct entry_id; try apply Hi.
  apply fold_books. intros s1 eid. apply Hi.
Qed.

(** The counts of [_categories] add up to [total_entries], each of its rows
    is for a category whose turn has come, and [_meta] is still empty. *)
Local Abbreviation counted done s n :=
  (list_sum (map (fun c : string * (nat * string) => c.2.1) (categories s))
   = n
   /\ Forall (fun c : string * (nat * string) =>
                In c.1 done /\ In (c.1, c.2.2) category_table_map)
        (categories s)
   /\ meta s = []).

Lemma with_category_counted (done : list string) (category table_name : string)
    (n total : nat) (s s0 : store) :
  ~ In category done ->
  In (category, table_name) category_table_map ->
  same_books s0 s ->
  counted done s0 total ->
  counted (app done [category]) (with_category category n table_name s)
    (total + n).
Proof.
  intros Hnew Hin [Hm Hc] (Hsum & Hall & Hmeta).
  cbn [with_category categories meta]. rewrite Hm, Hc.
  assert (Hfilter : List.filter
                      (fun c : string * (nat * string) =>
                         negb (String.eqb c.1 category)) (categories s0)
                    = categories s0).
  { clear Hsum Hc. revert Hall.
    generalize (categories s0) as cats.
    induction cats as [| c cs IH]; intros Hall; [reflexivity |].
    apply Forall_cons in Hall. destruct Hall as [[Hc1 _] Hall].
    cbn [List.filter]. destruct (String.eqb_spec c.1 category) as [He | _].
    - exfalso. apply Hnew. rewrite <- He. exact Hc1.
    - cbn [negb]. rewrite (IH Hall). reflexivity. }
  rewrite Hfilter. split; [| split; [| exact Hmeta]].
  - rewrite map_app, list_sum_app, Hsum.
    cbn [map list_sum fold_right fst snd]. lia.
  - apply Forall_app. split.
    + eapply Forall_impl; [exact Hall |]. cbn beta.
      intros c [H1 H2]. split; [apply in_or_app; left; exact H1 | exact H2].
    + apply Forall_cons. split; [| constructor]. cbn [fst snd]. split.
      * apply in_or_app. right. left. reflexivity.
      * exact Hin.
Qed.

Lemma counted_more (done : list string) (category : string) (s : store)
    (n : nat) :
  counted done s n -> counted (app done [category]) s n.
Proof.
  intros (Hsum & Hall & Hmeta). split; [exact Hsum |].
  split; [| exact Hmeta].
  eapply Forall_impl; [exact Hall |]. cbn beta.
  intros c [H1 H2]. split; [apply in_or_app; left; exact H1 | exact H2].
Qed.

Lemma build_category_counted (src : sources) (done : list string)
    (acc : outcome (store * nat)) (entry : string * string) :
  ~ In entry.1 done ->
  In entry category_table_map ->
  match acc with Done (s, n) => counted done s n | Raised => True end ->
  match build_category rt src acc entry with
  | Done (s, n) => counted (app done [entry.1]) s n
  | Raised => True
  end.
Proof.
  unfold build_category. destruct acc as [[s total_entries] |];
    cbn [and_then]; [| auto].
  destruct entry as [category table_name]. cbn [fst]. intros Hnew Hin Hs.
  destruct (category_dirs src !! category) as [files |];
    [| exact (counted_more _ _ _ _ Hs)].
  destruct (load_category_data files)
    as [[[columns rows] html_bodies] search_texts].
  destruct (negb (py_truthy rt rows)); [exact (counted_more _ _ _ _ Hs) |].
  match goal with
  | |- match and_then ?o _ with _ => _ end =>
      assert (Hstep : match o with
                      | Done s' => same_books s s'
                      | Raised => True
                      end);
      [| destruct o as [s' |]; cbn [and_then]; [| exact I]]
  end.
  - destruct (String.eqb category "power").
    + destruct (insert_powers rt columns rows html_bodies search_texts s)
        as [s' |] eqn:Hins; [| exact I].
      exact (insert_powers_books _ _ _ _ _ _ Hins).
    + destruct (assoc table_name generic_mappings) as [mapping |]; [| auto].
      destruct mapping as [| m mapping]; [auto |].
      destruct (insert_generic rt table_name columns rows html_bodies
                  search_texts (m :: mapping) s) as [s' |] eqn:Hins;
        [| exact I].
      exact (insert_generic_books _ _ _ _ _ _ _ _ Hins).
  - destruct (py_len rows) as [n |]; cbn [and_then]; [| exact I].
    exact (with_category_counted done category table_name n total_entries
             s' s Hnew Hin Hstep Hs).
Qed.

Lemma build_categories_counted (src : sources) (l : list (string * string))
    (done : list string) (acc : outcome (store * nat)) :
  NoDup (app done (map fst l)) ->
  (forall entry, In entry l -> In entry category_table_map) ->
  match acc with Done (s, n) => counted done s n | Raised => True end ->
  match fold_left (build_category rt src) l acc with
  | Done (s, n) => counted (app done (map fst l)) s n
  | Raised => True
  end.
Proof.
  revert done acc. induction l as [| entry l IH]; intros done acc Hn Hl Hacc.
  - cbn [map fold_left]. rewrite app_nil_r. exact Hacc.
  - cbn [map fold_left] in Hn |- *.
    assert (Heq : app done (entry.1 :: map fst l)
                  = app (app done [entry.1]) (map fst l))
      by (rewrite <- app_assoc; reflexivity).
    rewrite Heq in Hn |- *. apply IH.
    + exact Hn.
    + intros e He. apply Hl. right. exact He.
    + apply build_category_counted; [| apply Hl; left; reflexivity | exact Hacc].
      apply NoDup_app in Hn. destruct Hn as (Hn & _ & _).
      apply NoDup_app in Hn. destruct Hn as (_ & Hn & _).
      intros Hin. apply (Hn entry.1).
      * apply list_elem_of_In. exact Hin.
      * apply list_elem_of_In. left. reflexivity.
Qed.

(** X18.  When a run of [build_database] ends, [_meta] holds exactly the
    three keys [build_date], [total_entries] and [version], and
    [total_entries] is the sum of the [entry_count] column of
    [_categories]; every row of [_categories] pairs a category with its
    table as [category_table_map] has them. *)
Theorem built_meta_totals_the_categories (src : sources)
    (existing : option store) :
  match build_database rt src existing with
  | Done s =>
      meta s
      = [ ("build_date", now rt);
          ("total_entries",
           decimal
             (Z.of_nat
                (list_sum
                   (map (fun c : string * (nat * string) => c.2.1)
                      (categories s)))));
          ("version", "1.0") ]
      /\ Forall (fun c : string * (nat * string) =>
                   In (c.1, c.2.2) category_table_map) (categories s)
  | Raised => True
  end.
Proof.
  unfold build_database.
  assert (Hn : NoDup (app [] (map fst category_table_map))).
  { refine (bool_decide_unpack _ _). vm_compute. exact I. }
  pose proof (build_categories_counted src category_table_map []
                (Done (create_schema, 0)) Hn (fun _ H => H)) as Hs.
  destruct (fold_left (build_category rt src) category_table_map
              (Done (create_schema, 0))) as [[s total_entries] |];
    cbn [and_then]; [| exact I].
  destruct Hs as (Hsum & Hall & Hmeta).
  { repeat split; constructor. }
  cbv zeta.
  assert (Hb : same_books s
                 match name_index_js src with
                 | Some content =>
                     build_name_index rt (dict_items (parse_object content)) s
                 | None => s
                 end).
  { destruct (name_index_js src); [apply build_name_index_books | auto]. }
  destruct Hb as [Hm Hc].
  cbn [with_meta meta categories]. rewrite Hm, Hc, Hmeta, Hsum. split.
  - reflexivity.
  - eapply Forall_impl; [exact Hall |]. cbn beta. intros c [_ H]. exact H.
Qed.

End StoreInvariants.

(* ===================================================================== *)
(** * Reading the data files and deriving fields *)
(* ===================================================================== *)

Section TagFacts.
Import PyStr Json Build.

Variable rt : runtime.

(** What the two loops that collect tags keep: the set has no string twice,
    and [sources] holds a triple for exactly the strings of the set. *)
Local Abbreviation tagged kind conf found sources :=
  (NoDup (found : list string)
   /\ forall src : string * string * string,
        In src sources
        <-> exists w, In w found /\ src = (kind, w, conf)).

Lemma mem_In (x : string) (l : list string) : mem x l = true <-> In x l.
Proof.
  unfold mem. rewrite existsb_exists. split.
  - intros (y & Hy & E). apply String.eqb_eq in E. subst. exact Hy.
  - intros H. exists x. split; [exact H | apply String.eqb_refl].
Qed.

Lemma set_add_In (x y : string) (found : list string) :
  In y (set_add x found) <-> In y found \/ y = x.
Proof.
  unfold set_add. destruct (mem x found) eqn:Hm.
  - apply mem_In in Hm. split; [auto |]. intros [H | ->]; assumption.
  - rewrite in_app_iff. cbn [In]. intuition congruence.
Qed.

Lemma set_add_tagged (kind conf x : string) (found : list string)
    (sources : list (string * string * string)) :
  tagged kind conf found sources ->
  tagged kind conf (set_add x found) (app sources [(kind, x, conf)]).
Proof.
  intros [Hn Hs]. split.
  - unfold set_add. destruct (mem x found) eqn:Hm; [exact Hn |].
    apply NoDup_app. split; [exact Hn |]. split; [| apply NoDup_singleton].
    intros y Hy Hx. apply list_elem_of_In in Hy, Hx.
    destruct Hx as [<- | []].
    apply mem_In in Hy. congruence.
  - intros src. rewrite in_app_iff. cbn [In]. split.
    + intros [H | [<- | []]].
      * apply Hs in H. destruct H as (w & Hw & ->). exists w.
        split; [apply set_add_In; auto | reflexivity].
      * exists x. split; [apply set_add_In; auto | reflexivity].
    + intros (w & Hw & ->). apply set_add_In in Hw.
      destruct Hw as [Hw | ->]; [| auto].
      left. apply Hs. exists w. auto.
Qed.

(** The loop of [extract_damage_types] over the damage types. *)
Lemma damage_loop (kw_lower : string) (l : list string) (found : list string)
    (sources : list (string * string * string)) :
  tagged "keyword" "high" found sources ->
  let r :=
    fold_left
      (fun '(found, sources) dt =>
         if contains dt kw_lower
         then (set_add dt found, app sources [("keyword", dt, "high")])
         else (found, sources))
      l (found, sources) in
  tagged "keyword" "high" r.1 r.2
  /\ forall dt, In dt r.1
       <-> In dt found \/ (In dt l /\ contains dt kw_lower = true).
Proof.
  revert found sources. induction l as [| x l IH]; intros found sources Ht.
  - cbn [fold_left fst snd In]. split; [exact Ht |]. intros dt. tauto.
  - cbn [fold_left]. destruct (contains x kw_lower) eqn:Hx.
    + destruct (IH _ _ (set_add_tagged "keyword" "high" x _ _ Ht))
        as [H1 H2].
      split; [exact H1 |]. intros dt. rewrite H2, set_add_In. cbn [In].
      split.
      * intros [[H | ->] | [H3 H4]]; auto.
      * intros [H | [[<- | H3] H4]]; auto.
    + destruct (IH _ _ Ht) as [H1 H2]. split; [exact H1 |].
      intros dt. rewrite H2. cbn [In]. split.
      * intros [H | [H3 H4]]; auto.
      * intros [H | [[<- | H3] H4]]; auto. congruence.
Qed.


(** The loops of [extract_conditions] over the patterns and their matches. *)
Lemma condition_matches (ms : list Re.found) (found : list string)
    (sources : list (string * string * string)) :
  tagged "pattern" "medium" found sources ->
  Forall (fun w => In w CONDITIONS) found ->
  let r :=
    fold_left
      (fun '(found, sources) m =>
         let word := Re.group 1 m in
         if mem word CONDITIONS
         then (set_add word found, app sources [("pattern", word, "medium")])
         else (found, sources))
      ms (found, sources) in
  tagged "pattern" "medium" r.1 r.2
  /\ Forall (fun w => In w CONDITIONS) r.1.
Proof.
  revert found sources. induction ms as [| m ms IH];
    intros found sources Ht Hc.
  - cbn [fold_left fst snd]. auto.
  - cbn [fold_left]. cbv zeta.
    destruct (mem (Re.group 1 m) CONDITIONS) eqn:Hm; [| apply IH; assumption].
    apply IH; [apply set_add_tagged; exact Ht |].
    apply Forall_forall. intros w Hw. apply list_elem_of_In in Hw.
    apply set_add_In in Hw. destruct Hw as [Hw | ->].
    + rewrite Forall_forall in Hc. apply Hc, list_elem_of_In, Hw.
    + apply mem_In, Hm.
Qed.

Lemma condition_loop (text_lower : string) (patterns : list Re.t)
    (acc : list string * list (string * string * string)) :
  tagged "pattern" "medium" acc.1 acc.2 ->
  Forall (fun w => In w CONDITIONS) acc.1 ->
  let r :=
    fold_left
      (fun acc pattern =>
         fold_left
           (fun '(found, sources) m =>
              let word := Re.group 1 m in
              if mem word CONDITIONS
              then (set_add word found,
                    app sources [("pattern", word, "medium")])
              else (found, sources))
           (Re.finditer pattern text_lower) acc)
      patterns acc in
  tagged "pattern" "medium" r.1 r.2
  /\ Forall (fun w => In w CONDITIONS) r.1.
Proof.
  revert acc. induction patterns as [| p ps IH]; intros acc Ht Hc.
  - cbn [fold_left]. auto.
  - cbn [fold_left]. destruct acc as [found sources]. cbn [fst snd] in Ht, Hc.
    destruct (condition_matches (Re.finditer p text_lower) found sources
                Ht Hc) as [H1 H2].
    apply IH; assumption.
Qed.

(** X20.  [extract_conditions] reports only conditions of the constant
    [CONDITIONS], none twice, and [sources] holds the triple
    [('pattern', condition, 'medium')] for exactly the reported conditions;
    with neither a markup body nor a search text it reports nothing. *)
Theorem conditions_are_known_conditions (html_body search_text : value) :
  match extract_conditions rt html_body search_text with
  | Done (found, sources) =>
      NoDup found
      /\ Forall (fun w => In w CONDITIONS) found
      /\ (forall src,
            In src sources
            <-> exists w, In w found /\ src = ("pattern", w, "medium"))
      /\ (py_truthy rt html_body = false ->
          py_truthy rt search_text = false ->
          found = [] /\ sources = [])
  | Raised => True
  end.
Proof.
  unfold extract_conditions.
  assert (H0 : tagged "pattern" "medium" [] []).
  { split; [constructor |]. intros src. split; [intros [] |].
    intros (w & [] & _). }
  destruct (negb (py_truthy rt html_body) && negb (py_truthy rt search_text))
    eqn:Hb.
  - destruct H0 as [Hn Hs]. repeat split; auto; apply Hs.
  - destruct (search_or_markup rt html_body search_text) as [text |];
      cbn [and_then]; [| exact I].
    cbv zeta.
    assert (Hc0 : Forall (fun w => In w CONDITIONS) ([] : list string))
      by constructor.
    destruct (condition_loop (lower text) condition_patterns ([], []) H0 Hc0)
      as [[Hn Hs] Hc].
    destruct (fold_left _ condition_patterns ([], [])) as [found sources].
    cbn [fst snd] in Hn, Hs, Hc.
    split; [exact Hn |]. split; [exact Hc |]. split; [exact Hs |].
    intros H1 H2. rewrite H1, H2 in Hb. discriminate Hb.
Qed.

End TagFacts.

Section ColumnFacts.
Import PyStr Json Build.

Lemma last_index_from_spec (name : string) (cols : list value) (i : nat) :
  match last_index_from i name cols with
  | Some j =>
      i <= j
      /\ nth_error cols (j - i) = Some (JStr name)
      /\ forall k, j - i < k -> nth_error cols k <> Some (JStr name)
  | None => ~ In (JStr name) cols
  end.
Proof.
  revert i. induction cols as [| c cs IH]; intros i; cbn [last_index_from].
  - intros [].
  - specialize (IH (S i)).
    destruct (last_index_from (S i) name cs) as [j |].
    + destruct IH as (Hle & Hnth & Hlast). split; [lia |].
      replace (j - i) with (S (j - S i)) by lia. cbn [nth_error].
      split; [exact Hnth |].
      intros k Hk. destruct k as [| k]; [lia |]. cbn [nth_error].
      apply Hlast. lia.
    + assert (Hc : forall k, nth_error cs k <> Some (JStr name)).
      { intros k Hk. apply IH. exact (nth_error_In _ _ Hk). }
      destruct c as [| b | z | f | n | l | d];
        try (intros [H | H]; [discriminate H | exact (IH H)]).
      destruct (String.eqb_spec n name) as [-> | Hn].
      * split; [lia |]. rewrite Nat.sub_diag. cbn [nth_error].
        split; [reflexivity |].
        intros k Hk. destruct k as [| k]; [lia |]. cbn [nth_error]. apply Hc.
      * intros [H | H]; [congruence | exact (IH H)].
Qed.

(** X21.  The column map of [insert_powers] and [insert_generic],
    [{col: idx for idx, col in enumerate(columns)}], gives for a column
    name the index of its last occurrence in the header of the listing, and
    nothing for a name the header lacks: when a name stands twice, the
    cells of the later column are the ones stored. *)
Theorem column_map_takes_the_last_occurrence (cols : list value)
    (name : string) :
  match col_get cols name with
  | Some i =>
      nth_error cols i = Some (JStr name)
      /\ forall k, i < k -> nth_error cols k <> Some (JStr name)
  | None => ~ In (JStr name) cols
  end.
Proof.
  unfold col_get. pose proof (last_index_from_spec name cols 0) as H.
  destruct (last_index_from 0 name cols) as [j |]; [| exact H].
  rewrite Nat.sub_0_r in H. exact (proj2 H).
Qed.

End ColumnFacts.

Section PayloadFacts.
Import PyStr Json Build.

Lemma find_char_None (c : ascii) (s : string) :
  find_char c s = None <-> rfind_char c s = None.
Proof.
  induction s as [| d s IH]; cbn [find_char rfind_char]; [tauto |].
  destruct (Ascii.eqb c d).
  - split; [discriminate |]. destruct (rfind_char c s); discriminate.
  - destruct (find_char c s), (rfind_char c s); cbn [fmap option_fmap option_map];
      split; try discriminate; try reflexivity.
    + intros _. destruct IH as [_ IH]. discriminate (IH eq_refl).
    + intros _. destruct IH as [IH _]. discriminate (IH eq_refl).
Qed.

Lemma find_char_cons (c d : ascii) (s : string) :
  find_char c (String d s) = None ->
  Ascii.eqb c d = false /\ find_char c s = None.
Proof.
  cbn [find_char]. destruct (Ascii.eqb c d); [discriminate |].
  destruct (find_char c s); [discriminate | auto].
Qed.

(** Blanks go from the left up to a character that is none. *)
Lemma lstrip_append (a : string) (c : ascii) (r : string) :
  is_space c = false ->
  lstrip (a ++ String c r) = lstrip a ++ String c r.
Proof.
  intros Hc. induction a as [| x a IH].
  - rewrite !append_nil. cbn [lstrip]. rewrite Hc. reflexivity.
  - rewrite append_cons. cbn [lstrip]. destruct (is_space x); [exact IH |].
    reflexivity.
Qed.

Lemma find_char_lstrip (c : ascii) (a : string) :
  find_char c a = None -> find_char c (lstrip a) = None.
Proof.
  induction a as [| x a IH]; [auto |]. intros H. cbn [lstrip].
  destruct (is_space x); [| exact H].
  apply IH. exact (proj2 (find_char_cons _ _ _ H)).
Qed.

(** Blanks go from the right down to a character that is none. *)
Lemma rstrip_append (a : string) (c : ascii) (r : string) :
  is_space c = false ->
  rstrip (a ++ String c r) = a ++ String c (rstrip r).
Proof.
  intros Hc.
  assert (H0 : rstrip (String c r) = String c (rstrip r)).
  { cbn [rstrip]. destruct (rstrip r); [rewrite Hc |]; reflexivity. }
  induction a as [| x a IH]; [rewrite !append_nil; exact H0 |].
  rewrite !append_cons. cbn [rstrip]. rewrite IH.
  destruct a; reflexivity.
Qed.

Lemma find_char_rstrip (c : ascii) (a : string) :
  find_char c a = None -> find_char c (rstrip a) = None.
Proof.
  induction a as [| x a IH]; [auto |]. intros H.
  destruct (find_char_cons _ _ _ H) as [Hx Ha]. specialize (IH Ha).
  cbn [rstrip]. destruct (rstrip a) as [| y r].
  - destruct (is_space x); [reflexivity |]. cbn [find_char]. rewrite Hx.
    reflexivity.
  - cbn [find_char] in IH |- *. rewrite Hx. destruct (Ascii.eqb c y);
      [discriminate IH |].
    destruct (find_char c r); [discriminate IH | reflexivity].
Qed.

(** A byte order mark before the first parenthesis stands before the
    callback name. *)
Lemma bom_before_parenthesis (a r : string) :
  find_char "(" a = None ->
  exists a',
    find_char "(" a' = None
    /\ (if startswith BOM (a ++ String "(" r)
        then drop (String.length BOM) (a ++ String "(" r)
        else a ++ String "(" r)
       = a' ++ String "(" r.
Proof.
  intros Ha.
  destruct (startswith BOM (a ++ String "(" r)) eqn:Hb; [| eauto].
  unfold startswith, BOM in Hb.
  destruct a as [| x1 a]; [discriminate Hb |].
  destruct (find_char_cons _ _ _ Ha) as [_ Ha1].
  destruct a as [| x2 a];
    [rewrite !append_cons, append_nil in Hb; cbn [String.prefix] in Hb;
     destruct (ascii_dec _ x1); discriminate Hb |].
  destruct (find_char_cons _ _ _ Ha1) as [_ Ha2].
  destruct a as [| x3 a];
    [rewrite !append_cons, append_nil in Hb; cbn [String.prefix] in Hb;
     destruct (ascii_dec _ x1); [| discriminate Hb];
     destruct (ascii_dec _ x2); discriminate Hb |].
  destruct (find_char_cons _ _ _ Ha2) as [_ Ha3].
  exists a. split; [exact Ha3 | reflexivity].
Qed.

(** The text between the first opening and the last closing parenthesis. *)
Lemma between_parentheses (a p t : string) :
  find_char "(" a = None ->
  find_char ")" t = None ->
  match find_char "(" (a ++ String "(" (p ++ String ")" t)) with
  | None => None
  | Some paren_start =>
      match rfind_char ")" (a ++ String "(" (p ++ String ")" t)) with
      | None => None
      | Some paren_end =>
          Some (take (paren_end - (paren_start + 1))
                  (drop (paren_start + 1)
                     (a ++ String "(" (p ++ String ")" t))))
      end
  end = Some p.
Proof.
  intros Ha Ht. rewrite (find_char_append "(" a _ Ha).
  replace (a ++ String "(" (p ++ String ")" t))
    with ((a ++ String "(" p) ++ String ")" t)
    by (rewrite append_assoc, append_cons; reflexivity).
  rewrite (rfind_char_append ")" (a ++ String "(" p) t
             (proj1 (find_char_None _ _) Ht)).
  replace ((a ++ String "(" p) ++ String ")" t)
    with ((a ++ String "(" EmptyString) ++ (p ++ String ")" t))
    by (rewrite !append_assoc, !append_cons, append_nil; reflexivity).
  replace (String.length a + 1)
    with (String.length (a ++ String "(" EmptyString))
    by (rewrite length_append; reflexivity).
  rewrite drop_append.
  replace (String.length (a ++ String "(" p)
           - String.length (a ++ String "(" EmptyString))
    with (String.length p)
    by (rewrite !length_append; cbn [String.length]; lia).
  rewrite take_append. reflexivity.
Qed.

(** X22.  [extract_jsonp_payload] undoes the JSONP wrapping: from a callback
    name without an opening parenthesis, an opening parenthesis, any
    arguments, a closing parenthesis and a tail without a closing
    parenthesis it gives back the arguments as they are, whatever blanks or
    byte order mark stand around the call. *)
Theorem jsonp_payload_is_unwrapped (callback args tail : string) :
  find_char "(" callback = None ->
  find_char ")" tail = None ->
  extract_jsonp_payload (callback ++ "(" ++ args ++ ")" ++ tail) = Some args.
Proof.
  intros Hc Ht. unfold extract_jsonp_payload. cbv zeta.
  change (callback ++ "(" ++ args ++ ")" ++ tail)
    with (callback ++ String "(" (args ++ String ")" tail)).
  unfold strip.
  rewrite (lstrip_append callback "(" _ eq_refl).
  replace (lstrip callback ++ String "(" (args ++ String ")" tail))
    with ((lstrip callback ++ String "(" args) ++ String ")" tail)
    by (rewrite append_assoc, append_cons; reflexivity).
  rewrite (rstrip_append _ ")" tail eq_refl).
  replace ((lstrip callback ++ String "(" args) ++ String ")" (rstrip tail))
    with (lstrip callback ++ String "(" (args ++ String ")" (rstrip tail)))
    by (rewrite append_assoc, append_cons; reflexivity).
  destruct (bom_before_parenthesis (lstrip callback)
              (args ++ String ")" (rstrip tail))
              (find_char_lstrip _ _ Hc)) as (a' & Ha' & ->).
  exact (between_parentheses a' args (rstrip tail) Ha'
           (find_char_rstrip _ _ Ht)).
Qed.

Lemma jsonp_payload_is_unwrapped_witness :
  extract_jsonp_payload
    ("od.reader.jsonp_batch_data" ++ "(" ++ "20130703, {}" ++ ")" ++ ";")
  = Some "20130703, {}".
Proof.
  apply jsonp_payload_is_unwrapped; reflexivity.
Defined.

End PayloadFacts.

Section GenericFacts.
Import PyStr Json Build.

Variable rt : runtime.

(** From [s] to [s'] only the table [table] was written, and every id it
    held it still holds. *)
Local Abbreviation only_table table s s' :=
  ((forall t, t <> table -> tables s' !! t = tables s !! t)
   /\ (forall row, In row (default [] (tables s !! table)) ->
         exists row', In row' (default [] (tables s' !! table))
                      /\ column "id" row' = column "id" row)
   /\ power_keywords s' = power_keywords s
   /\ power_damage_types s' = power_damage_types s
   /\ power_conditions s' = power_conditions s
   /\ name_index s' = name_index s
   /\ parse_log s' = parse_log s
   /\ meta s' = meta s
   /\ categories s' = categories s).

Lemma only_table_refl (table : string) (s : store) : only_table table s s.
Proof. repeat split; eauto. Qed.

Lemma only_table_trans (table : string) (s1 s2 s3 : store) :
  only_table table s1 s2 -> only_table table s2 s3 -> only_table table s1 s3.
Proof.
  intros (A1 & A2 & A3 & A4 & A5 & A6 & A7 & A8 & A9)
         (B1 & B2 & B3 & B4 & B5 & B6 & B7 & B8 & B9).
  split; [| split; [| repeat split; congruence]].
  - intros t Ht. rewrite (B1 t Ht). exact (A1 t Ht).
  - intros row Hrow. destruct (A2 row Hrow) as (row1 & H1 & E1).
    destruct (B2 row1 H1) as (row2 & H2 & E2). exists row2.
    split; [exact H2 | congruence].
Qed.

Lemma insert_or_replace_only_table (table : string) (r : srow)
    (s s' : store) :
  insert_or_replace table r s = Done s' -> only_table table s s'.
Proof.
  intros H. destruct (insert_or_replace_tables _ _ _ _ H)
    as (Ht & _ & H3 & H4 & H5 & H6 & H7 & H8 & H9).
  split; [| split; [| repeat split; assumption]].
  - intros t Hne. rewrite Ht, lookup_insert_ne; [reflexivity | congruence].
  - intros row Hrow. rewrite Ht, lookup_insert_eq.
    cbn [default from_option id].
    destruct (same_id (column "id" r) row) eqn:Hsame.
    + exists r. split; [apply in_or_app; right; left; reflexivity |].
      apply same_id_spec in Hsame. exact (proj1 Hsame).
    + exists row. split; [| reflexivity].
      apply in_or_app. left. apply filter_In. rewrite Hsame. auto.
Qed.

Lemma insert_generic_row_only_table (table_name : string)
    (col_map : list value) (col_mapping : list (string * string))
    (html_bodies search_texts : value) (s : store) (row : value) :
  only_table table_name s
    (insert_generic_row rt table_name col_map col_mapping html_bodies
       search_texts s row).
Proof.
  unfold insert_generic_row.
  destruct (generic_values rt col_map col_mapping html_bodies search_texts row)
    as [[values level] |]; [| apply only_table_refl].
  cbn [and_then].
  destruct (bind_all rt values) as [r |]; [| apply only_table_refl].
  cbn [and_then]. destruct level as [l |].
  - destruct (bind_int l) as [b |]; [| apply only_table_refl].
    cbn [and_then].
    destruct (insert_or_replace table_name (app r [("level", b)]) s)
      as [s' |] eqn:Hins; [| apply only_table_refl].
    exact (insert_or_replace_only_table _ _ _ _ Hins).
  - destruct (insert_or_replace table_name r s) as [s' |] eqn:Hins;
      [| apply only_table_refl].
    exact (insert_or_replace_only_table _ _ _ _ Hins).
Qed.

(** X23.  [insert_generic] writes to its own table and to nothing else: the
    other tables, the tag relations, the name index, the log, [_meta] and
    [_categories] are as before, whatever the listing holds; and it loses no
    id the table held, since a row gives way only to a row with its id. *)
Theorem insert_generic_writes_its_own_table (table_name : string)
    (columns rows html_bodies search_texts : value)
    (col_mapping : list (string * string)) (s : store) :
  match
    insert_generic rt table_name columns rows html_bodies search_texts
      col_mapping s
  with
  | Done s' =>
      (forall t, t <> table_name -> tables s' !! t = tables s !! t)
      /\ (forall row, In row (default [] (tables s !! table_name)) ->
            exists row', In row' (default [] (tables s' !! table_name))
                         /\ column "id" row' = column "id" row)
      /\ power_keywords s' = power_keywords s
      /\ power_damage_types s' = power_damage_types s
      /\ power_conditions s' = power_conditions s
      /\ name_index s' = name_index s
      /\ parse_log s' = parse_log s
      /\ meta s' = meta s
      /\ categories s' = categories s
  | Raised => True
  end.
Proof.
  unfold insert_generic.
  destruct (make_col_map columns) as [col_map |]; [| exact I].
  destruct (py_iter rows) as [items |]; [| exact I].
  cbn [and_then]. revert s. induction items as [| row items IH]; intros s.
  - cbn [fold_left]. apply only_table_refl.
  - cbn [fold_left].
    exact (only_table_trans table_name s _ _
             (insert_generic_row_only_table table_name col_map col_mapping
                html_bodies search_texts s row)
             (IH _)).
Qed.

End GenericFacts.

(* ===================================================================== *)
(** * The three scripts in a row: where the resolved ids point *)
(* ===================================================================== *)

Section PipelineFacts.
Import PyStr Resolve.

(** The canonical store has, in one of the tables the resolver reads, a row
    with this id. *)
Local Abbreviation stored s id :=
  (exists t rows row,
     In t id_tables /\ Build.tables s !! t = Some rows /\ In row rows
     /\ Build.column "id" row = Build.SText id).

(** What the resolver reads as a row of a table is a row of the store. *)
Lemma as_compendium_rows (s : Build.store) (t : string)
    (e : Compendium.entity) :
  In e (table_rows (Build.as_compendium s) t) ->
  exists rows row,
    Build.tables s !! t = Some rows /\ In row rows
    /\ Build.column "id" row = Build.SText (Compendium.id e).
Proof.
  unfold table_rows, Build.as_compendium. cbn [Compendium.tables].
  rewrite lookup_fmap. destruct (Build.tables s !! t) as [rows |];
    cbn [fmap option_fmap option_map default from_option id]; [| intros []].
  intros He. apply list_elem_of_In, list_elem_of_omap in He.
  destruct He as (row & Hrow & Hent). exists rows, row.
  split; [reflexivity |]. split; [apply list_elem_of_In; exact Hrow |].
  unfold Build.entity_of in Hent.
  destruct (Build.column "id" row) as [| z | i]; try discriminate Hent.
  destruct (Build.column "name" row) as [| z | n]; try discriminate Hent.
  injection Hent as <-. reflexivity.
Qed.

(** Whatever the loop resolves a reference to is the id of a row the
    resolver read. *)
Lemma answer_is_read (c : Compendium.t) (db : GrantsDb.t)
    (csv : option (list string)) (k : string) (cnt : counts) (id : string) :
  Log.resolved_compendium_id (log_entry (load_env c db csv) k cnt).1 = Some id ->
  exists t e, In t id_tables /\ In e (table_rows c t) /\ Compendium.id e = id.
Proof.
  intros Hid.
  destruct (log_entry_resolved_origin _ _ _ _ Hid)
    as [(table & Hx & Hd & Hs & Ht) | [(Hm & Hs)
        | (comp_id & table & Hx & Hn & Hs)]].
  - destruct (direct_hit_rows c db csv k id table Hx Hd) as (Hin & e & He & Hi).
    exists table, e. auto.
  - apply (all_valid_ids_rows c db csv).
    apply (load_manual_mappings_valid _ csv k). exact Hm.
  - apply (all_valid_ids_rows c db csv).
    apply (search_by_name_sound _ _ _ _ Hn).
Qed.

(** The edges after the update phase, on tables whose row ids are
    distinct: each row as it was, or with what the loop resolves its
    references to. *)
Lemma main_edges (c : Compendium.t) (db : GrantsDb.t)
    (csv : option (list string)) :
  NoDup (map Grant.id (GrantsDb.grants db)) ->
  NoDup (map StatAdd.id (GrantsDb.stat_additions db)) ->
  NoDup (map Modify.id (GrantsDb.modifies db)) ->
  GrantsDb.grants (main c db csv).1
  = map
      (fun r =>
         if is_some
              (Log.resolved_compendium_id
                 (log_entry (load_env c db csv) (Grant.granter_xml_id r)
                    (0, 0, 0, 0)).1)
            || is_some
                 (Log.resolved_compendium_id
                    (log_entry (load_env c db csv) (Grant.granted_xml_id r)
                       (0, 0, 0, 0)).1)
         then
           set_grant_ids
             (Log.resolved_compendium_id
                (log_entry (load_env c db csv) (Grant.granter_xml_id r)
                   (0, 0, 0, 0)).1)
             (Log.resolved_compendium_id
                (log_entry (load_env c db csv) (Grant.granted_xml_id r)
                   (0, 0, 0, 0)).1) r
         else r) (GrantsDb.grants db)
  /\ GrantsDb.stat_additions (main c db csv).1
     = map
         (fun r =>
            if is_some
                 (Log.resolved_compendium_id
                    (log_entry (load_env c db csv) (StatAdd.granter_xml_id r)
                       (0, 0, 0, 0)).1)
            then
              set_statadd_id
                (Log.resolved_compendium_id
                   (log_entry (load_env c db csv) (StatAdd.granter_xml_id r)
                      (0, 0, 0, 0)).1) r
            else r) (GrantsDb.stat_additions db)
  /\ GrantsDb.modifies (main c db csv).1
     = map
         (fun r =>
            if is_some
                 (Log.resolved_compendium_id
                    (log_entry (load_env c db csv) (Modify.granter_xml_id r)
                       (0, 0, 0, 0)).1)
            then
              set_modify_id
                (Log.resolved_compendium_id
                   (log_entry (load_env c db csv) (Modify.granter_xml_id r)
                      (0, 0, 0, 0)).1) r
            else r) (GrantsDb.modifies db).
Proof.
  intros Hgn Hsn Hmn.
  set (E := load_env c db csv).
  set (info := collect_id_info db).
  pose proof (resolve_all_good E info) as Hgood0.
  unfold main. fold E. fold info.
  destruct (resolve_all E info) as [log_rows ch0]. cbn [snd] in Hgood0.
  destruct (update_grants_table E (map fst info) (GrantsDb.grants db) ch0
              Hgood0 (grant_references_known db) Hgn) as [Hg Hgood1].
  destruct (update_grants E (GrantsDb.grants db) ch0) as [[g ch1] n1].
  cbn [fst snd] in Hg, Hgood1.
  destruct (update_stat_additions_table E (map fst info)
              (GrantsDb.stat_additions db) ch1 Hgood1
              (stat_addition_reference_known db) Hsn) as (Hs & Hgood2 & Hsc).
  destruct (update_stat_additions E (GrantsDb.stat_additions db) ch1)
    as [[sa ch2] n2].
  cbn [fst snd] in Hs, Hgood2, Hsc.
  destruct (update_modifies_table E (map fst info)
              (GrantsDb.modifies db) ch2 Hgood2
              (modify_reference_known db) Hmn) as (Hm & Hmc).
  destruct (update_modifies E (GrantsDb.modifies db) ch2) as [[md ch3] n3].
  cbn [fst snd] in Hm, Hmc.
  cbn [fst snd GrantsDb.grants GrantsDb.stat_additions GrantsDb.modifies].
  auto.
Qed.

(** The extractor sets no resolved id. *)
Lemma extracted_rows_unresolved (now : string) (root : Extract.element)
    (old : option GrantsDb.t) :
  Forall
    (fun r =>
       Grant.granter_compendium_id r = None
       /\ Grant.granted_compendium_id r = None)
    (GrantsDb.grants (Extract.main now root old).1)
  /\ Forall (fun r => StatAdd.granter_compendium_id r = None)
       (GrantsDb.stat_additions (Extract.main now root old).1)
  /\ Forall (fun r => Modify.granter_compendium_id r = None)
       (GrantsDb.modifies (Extract.main now root old).1).
Proof.
  unfold Extract.main.
  destruct (main_fold_kept (Extract.build_id_to_name root)
              (Extract.findall "RulesElement" root) Extract.create_schema
              0 0 0 0)
    as [(_ & _ & (Rg & Rs & Rm)) _].
  { repeat split; try reflexivity; constructor. }
  destruct (fold_left _ (Extract.findall "RulesElement" root) _)
    as [[d [[g s] m]] n].
  cbn [fst snd] in *.
  cbn [GrantsDb.grants GrantsDb.stat_additions GrantsDb.modifies].
  split; [| split].
  - eapply Forall_impl; [exact Rg |]. cbn beta. tauto.
  - eapply Forall_impl; [exact Rs |]. cbn beta. tauto.
  - eapply Forall_impl; [exact Rm |]. cbn beta. tauto.
Qed.


End PipelineFacts.

(* ===================================================================== *)
(** * What the patterns can match *)
(* ===================================================================== *)

Section PatternFacts.
Import PyStr Json Build.

(** A match hands some position to the continuation. *)
Lemma run_calls {A : Type} (r : Re.t) :
  forall (st : Re.state) (k : Re.state -> option A) (x : A),
    Re.run r st k = Some x -> exists st', k st' = Some x.
Proof.
  induction r as [| p | a IHa b IHb | a IHa b IHb | a IHa | n a IHa | | |];
    intros st k x; cbn [Re.run].
  - eauto.
  - destruct (Re.rest st) as [| c s]; [discriminate |].
    destruct (p c); [eauto | discriminate].
  - intros H. destruct (IHa _ _ _ H) as [st1 H1]. exact (IHb _ _ _ H1).
  - destruct (Re.run a st k) eqn:Ha.
    + intros [= <-]. exact (IHa _ _ _ Ha).
    + apply IHb.
  - generalize (String.length (Re.rest st)). intros n. revert st.
    induction n as [| n IHn]; intros st; [eauto |].
    match goal with
    | |- match ?o with _ => _ end = _ -> _ => destruct o eqn:Ha
    end.
    + intros [= <-]. destruct (IHa _ _ _ Ha) as [st1 H1].
      destruct (Nat.ltb _ _); [| discriminate H1].
      exact (IHn _ H1).
    + eauto.
  - intros H. destruct (IHa _ _ _ H) as [st1 H1]. eauto.
  - destruct (Re.prev st); [discriminate | eauto].
  - destruct (Re.at_end st); [eauto | discriminate].
  - destruct (xorb _ _); [eauto | discriminate].
Qed.

(** A literal under [re.IGNORECASE] takes a text that is the literal up to
    the case of its letters, and closes no group. *)
Lemma run_ilit {A : Type} (w : string) :
  forall (st : Re.state) (k : Re.state -> option A) (x : A),
    Re.run (Re.ilit w) st k = Some x ->
    exists u st',
      Re.rest st = u ++ Re.rest st' /\ lower u = lower w
      /\ Re.caps st' = Re.caps st /\ k st' = Some x.
Proof.
  assert (Hc : forall c (st : Re.state) (k : Re.state -> option A) x,
            Re.run (Re.ichr c) st k = Some x ->
            exists d st',
              Re.rest st = String d (Re.rest st')
              /\ lower_char d = lower_char c
              /\ Re.caps st' = Re.caps st /\ k st' = Some x).
  { intros c st k x. cbn [Re.run Re.ichr].
    destruct (Re.rest st) as [| d s]; [discriminate |].
    destruct (Ascii.eqb_spec (lower_char c) (lower_char d)) as [E | _];
      [| discriminate].
    intros H. exists d. eexists. split; [| split; [| split; [| exact H]]];
      cbn [Re.rest Re.caps]; auto. }
  induction w as [| c w IH]; intros st k x.
  - cbn [Re.ilit Re.run]. intros H. exists EmptyString, st. auto.
  - destruct w as [| c' w].
    + cbn [Re.ilit]. intros H.
      destruct (Hc _ _ _ _ H) as (d & st' & H1 & H2 & H3 & H4).
      exists (String d EmptyString), st'. cbn [lower]. rewrite H2. auto.
    + change (Re.ilit (String c (String c' w)))
        with (Re.Seq (Re.ichr c) (Re.ilit (String c' w))).
      cbn [Re.run]. intros H.
      destruct (Hc _ _ _ _ H) as (d & st1 & H1 & H2 & H3 & H4).
      destruct (IH _ _ _ H4) as (u & st' & G1 & G2 & G3 & G4).
      exists (String d u), st'. rewrite H1, G1, G3, H3.
      cbn [lower] in G2 |- *. rewrite H2, G2. auto.
Qed.

(** What a group around such a literal records. *)
Lemma consumed_prefix (st st' : Re.state) (u : string) :
  Re.rest st = u ++ Re.rest st' -> Re.consumed st st' = u.
Proof.
  intros H. unfold Re.consumed. rewrite H, length_append.
  replace (String.length u + String.length (Re.rest st')
           - String.length (Re.rest st'))
    with (String.length u) by lia.
  apply take_append.
Qed.

Lemma search_from_here (r : Re.t) (s : string) :
  forall (i : nat) (p : option ascii) (m : Re.found),
    Re.search_from r i p s = Some m ->
    exists i' p' s', Re.match_here r i' p' s' = Some m.
Proof.
  induction s as [| c s IH]; intros i p m; cbn [Re.search_from].
  - destruct (Re.match_here r i p EmptyString) eqn:H; [| discriminate].
    intros [= <-]. eauto.
  - destruct (Re.match_here r i p (String c s)) eqn:H.
    + intros [= <-]. eauto.
    + apply IH.
Qed.

Lemma upper_char_lower_char (c : ascii) :
  upper_char (lower_char c) = upper_char c.
Proof. destruct c as [[] [] [] [] [] [] [] []]; reflexivity. Qed.

Lemma lower_char_idem (c : ascii) : lower_char (lower_char c) = lower_char c.
Proof. destruct c as [[] [] [] [] [] [] [] []]; reflexivity. Qed.

Lemma lower_idem (s : string) : lower (lower s) = lower s.
Proof.
  induction s as [| c s IH]; [reflexivity |].
  cbn [lower]. rewrite lower_char_idem, IH. reflexivity.
Qed.

Lemma upper_lower (s : string) : upper (lower s) = upper s.
Proof.
  induction s as [| c s IH]; [reflexivity |].
  cbn [lower upper]. rewrite upper_char_lower_char, IH. reflexivity.
Qed.

Lemma capitalize_lower (s : string) : capitalize (lower s) = capitalize s.
Proof.
  destruct s as [| c s]; [reflexivity |].
  cbn [lower capitalize]. rewrite upper_char_lower_char, lower_idem.
  reflexivity.
Qed.

(** The group of a match of [vs_defense] is one of the four names, up to
    the case of its letters. *)
Lemma vs_defense_group (text : string) (m : Re.found) :
  Re.search vs_defense text = Some m ->
  In (lower (Re.group 1 m)) ["ac"; "fortitude"; "reflex"; "will"].
Proof.
  unfold Re.search. intros H.
  destruct (search_from_here _ _ _ _ _ H) as (i & p & s & Hm). clear H.
  unfold Re.match_here in Hm.
  destruct (Re.run vs_defense _ Some) as [st' |] eqn:Hrun; [| discriminate].
  injection Hm as <-. unfold Re.group. cbn [Re.groups].
  unfold vs_defense in Hrun. cbn [Re.cat Re.alts Re.run Re.opt] in Hrun.
  destruct (run_ilit "vs" _ _ _ Hrun) as (u0 & st0 & _ & _ & _ & H0).
  clear Hrun.
  assert (H1 : exists st1,
            Re.run (Re.Star Re.ws) st1
              (fun st2 =>
                 Re.run
                   (Re.Alt (Re.ilit "AC")
                      (Re.Alt (Re.ilit "Fortitude")
                         (Re.Alt (Re.ilit "Reflex") (Re.ilit "Will"))))
                   st2
                   (fun st3 =>
                      Some {| Re.prev := Re.prev st3; Re.rest := Re.rest st3;
                              Re.caps :=
                                (1, Re.consumed st2 st3) :: Re.caps st3 |}))
            = Some st').
  { destruct (Re.run (Re.chr ".") st0 _) eqn:Hdot.
    - injection H0 as <-. exact (run_calls _ _ _ _ Hdot).
    - eauto. }
  clear H0. destruct H1 as [st1 H1].
  destruct (run_calls _ _ _ _ H1) as [st2 H2]. clear H1.
  cbn [Re.run] in H2.
  assert (Hw : exists w u st3,
            In (lower w) ["ac"; "fortitude"; "reflex"; "will"]
            /\ Re.rest st2 = u ++ Re.rest st3 /\ lower u = lower w
            /\ Some {| Re.prev := Re.prev st3; Re.rest := Re.rest st3;
                       Re.caps := (1, Re.consumed st2 st3) :: Re.caps st3 |}
               = Some st').
  { destruct (Re.run (Re.ilit "AC") st2 _) eqn:Ha.
    { injection H2 as <-.
      destruct (run_ilit "AC" _ _ _ Ha) as (u & st3 & G1 & G2 & _ & G4).
      exists "AC", u, st3. cbn. auto. }
    destruct (Re.run (Re.ilit "Fortitude") st2 _) eqn:Hf.
    { injection H2 as <-.
      destruct (run_ilit "Fortitude" _ _ _ Hf) as (u & st3 & G1 & G2 & _ & G4).
      exists "Fortitude", u, st3. cbn. auto. }
    destruct (Re.run (Re.ilit "Reflex") st2 _) eqn:Hr.
    { injection H2 as <-.
      destruct (run_ilit "Reflex" _ _ _ Hr) as (u & st3 & G1 & G2 & _ & G4).
      exists "Reflex", u, st3. cbn. auto. }
    destruct (run_ilit "Will" _ _ _ H2) as (u & st3 & G1 & G2 & _ & G4).
    exists "Will", u, st3. cbn. auto 10. }
  destruct Hw as (w & u & st3 & Hin & G1 & G2 & [= <-]).
  cbn [Re.caps Re.lookup Nat.eqb].
  rewrite (consumed_prefix _ _ _ G1), G2. exact Hin.
Qed.

(** One of several literals under [re.IGNORECASE]. *)
Lemma run_alts_ilit {A : Type} (ws : list string) :
  forall (st : Re.state) (k : Re.state -> option A) (x : A),
    Re.run (Re.alts (map Re.ilit ws)) st k = Some x ->
    exists w u st',
      In w ws /\ Re.rest st = u ++ Re.rest st' /\ lower u = lower w
      /\ Re.caps st' = Re.caps st /\ k st' = Some x.
Proof.
  induction ws as [| w ws IH]; intros st k x.
  - cbn [map Re.alts Re.run]. destruct (Re.rest st); discriminate.
  - destruct ws as [| w' ws].
    + cbn [map Re.alts]. intros H.
      destruct (run_ilit w _ _ _ H) as (u & st' & H1 & H2 & H3 & H4).
      exists w, u, st'. cbn [In]. auto.
    + change (Re.alts (map Re.ilit (w :: w' :: ws)))
        with (Re.Alt (Re.ilit w) (Re.alts (map Re.ilit (w' :: ws)))).
      cbn [Re.run]. destruct (Re.run (Re.ilit w) st k) eqn:Hw.
      * intros [= <-].
        destruct (run_ilit w _ _ _ Hw) as (u & st' & H1 & H2 & H3 & H4).
        exists w, u, st'. cbn [In]. auto.
      * intros H. destruct (IH _ _ _ H) as (w0 & u & st' & H0 & H1).
        exists w0, u, st'. split; [right; exact H0 | exact H1].
Qed.

(** A run of characters of one class closes no group. *)
Lemma run_star_chr {A : Type} (p : ascii -> bool) :
  forall (st : Re.state) (k : Re.state -> option A) (x : A),
    Re.run (Re.Star (Re.Chr p)) st k = Some x ->
    exists st', Re.caps st' = Re.caps st /\ k st' = Some x.
Proof.
  intros st k x. cbn [Re.run].
  generalize (String.length (Re.rest st)). intros n. revert st.
  induction n as [| n IHn]; intros st; [eauto |].
  destruct (Re.rest st) as [| c s]; [eauto |].
  destruct (p c); [| eauto].
  cbn [Re.rest]. destruct (Nat.ltb _ _); [| eauto].
  match goal with
  | |- match ?o with _ => _ end = _ -> _ => destruct o eqn:Ha
  end; [| eauto].
  intros [= <-]. destruct (IHn _ Ha) as (st' & H1 & H2). eauto.
Qed.

Lemma run_plus_chr {A : Type} (p : ascii -> bool) :
  forall (st : Re.state) (k : Re.state -> option A) (x : A),
    Re.run (Re.plus (Re.Chr p)) st k = Some x ->
    exists st', Re.caps st' = Re.caps st /\ k st' = Some x.
Proof.
  intros st k x H.
  change (match Re.rest st with
          | String c s =>
              if p c
              then Re.run (Re.Star (Re.Chr p))
                     {| Re.prev := Some c; Re.rest := s;
                        Re.caps := Re.caps st |} k
              else None
          | EmptyString => None
          end = Some x) in H.
  destruct (Re.rest st) as [| c s]; [discriminate |].
  destruct (p c); [| discriminate].
  destruct (run_star_chr p _ _ _ H) as (st' & H1 & H2). eauto.
Qed.

(** The first group of a match of [word_shape_number] is one of the shapes,
    up to the case of its letters. *)
Lemma word_shape_group (w : string) (shapes : list string) (text : string)
    (m : Re.found) :
  Re.search (word_shape_number w shapes) text = Some m ->
  In (lower (Re.group 1 m)) (map lower shapes).
Proof.
  unfold Re.search. intros H.
  destruct (search_from_here _ _ _ _ _ H) as (i & p & s & Hm). clear H.
  unfold Re.match_here in Hm.
  destruct (Re.run (word_shape_number w shapes) _ Some) as [st' |] eqn:Hrun;
    [| discriminate].
  injection Hm as <-. unfold Re.group. cbn [Re.groups].
  unfold word_shape_number in Hrun. cbn [Re.cat] in Hrun.
  cbn [Re.run] in Hrun.
  destruct (run_calls _ _ _ _ Hrun) as [st1 H1]. clear Hrun.
  destruct (run_calls _ _ _ _ H1) as [st2 H2]. clear H1.
  destruct (run_alts_ilit shapes _ _ _ H2)
    as (w0 & u & st3 & Hin & G1 & G2 & _ & H3). clear H2.
  destruct (run_plus_chr _ _ _ _ H3) as (st4 & C4 & H4). clear H3.
  cbn [Re.caps] in C4.
  destruct (run_plus_chr _ _ _ _ H4) as (st5 & C5 & H5). clear H4.
  injection H5 as <-. cbn [Re.caps Re.lookup Nat.eqb].
  rewrite C5, C4. cbn [Re.lookup Nat.eqb].
  rewrite (consumed_prefix _ _ _ G1), G2.
  apply in_map. exact Hin.
Qed.

End PatternFacts.

Section DefenseFacts.
Import PyStr Json Build.

Variable rt : runtime.



End DefenseFacts.
